(** * FileTransferProtocol: a shallow embedding of the receiver core

    The development follows the C++ sources:
    - [channel/channel.h]            Go-style channels ([Channel]);
    - [threadpool/workstealqueue.h],
      [threadpool/threadqueue.h],
      [threadpool.cpp]               the work-stealing executor ([Pool]);
    - [drexelprotocol/msgtype.h],
      [drexelprotocol/pdu.h],
      [drexelprotocol/connection.h]  the datagram protocol ([Wire], [Conn]);
    - [drexelprotocol/ftp.h],
      [drexelprotocol/server.h],
      [server.cpp]                   the writer and the dispatcher ([Server]).

    Machine integers are [Z] with the conversions of the C++ code written
    out; buffers are lists of bytes; the two hash maps of the dispatcher are
    [gmap]s keyed by the peer's address string. *)

From Stdlib Require Import ZArith Lia List Bool String.
From coqutil Require Import Byte Word.LittleEndianList.
From stdpp Require Import gmap strings list pretty.

Local Open Scope Z_scope.

(** ** Machine integers *)

Module Int.

(** Conversion to [unsigned int]. *)
Definition to_uint32 (z : Z) : Z := z mod 2 ^ 32.

(** Conversion to [int] (two's complement). *)
Definition to_int32 (z : Z) : Z := (z + 2 ^ 31) mod 2 ^ 32 - 2 ^ 31.

(** Conversion to [size_t] on an LP64 target. *)
Definition to_size_t (z : Z) : Z := z mod 2 ^ 64.

End Int.

(** ** Go-style channels ([channel/channel.h]) *)

Module Channel.

(** A thread is named by a number.  A condition variable is the list of
    the threads parked on it, the longest waiting first. *)
Definition tid := nat.

Section Buffered.
Context {X : Type}.

(** [class bufferedChannel].  [buffer] is the [std::queue]: [push]
    appends at the end and [front]/[pop] work on the head.  The mutex
    [buffMut] makes every member function below one atomic step up to
    the place where it parks in a [wait]. *)
Record bufferedChannel := mkBuffered {
  open : bool;
  buffer : list X;
  maxSize : Z;
  sender : list tid;
  receiver : list tid;
}.

(** [bufferedChannel(int size)] *)
Definition bufferedChannel_new (size : Z) : bufferedChannel :=
  {| open := true; buffer := []; maxSize := size;
     sender := []; receiver := [] |}.

(** [buffer->size()], a [size_t]. *)
Definition size (c : bufferedChannel) : Z := Z.of_nat (length (buffer c)).

(** [notify_one]: one parked thread, if any, leaves the wait list. *)
Definition notify_one (cv : list tid) : list tid := tail cv.

(** [notify_all]: every parked thread leaves the wait list. *)
Definition notify_all (cv : list tid) : list tid := [].

(** What a call does before it returns to the scheduler. *)
Inductive outcome (R : Type) :=
| Returns (r : R) (c : bufferedChannel)
| Throws (what : string) (c : bufferedChannel)
| Waits (c : bufferedChannel).
Arguments Returns {R}. Arguments Throws {R}. Arguments Waits {R}.

(** [close()] *)
Definition close (c : bufferedChannel) : bufferedChannel :=
  {| open := false; buffer := buffer c; maxSize := maxSize c;
     sender := sender c; receiver := notify_all (receiver c) |}.

(** [isClosed()] *)
Definition isClosed (c : bufferedChannel) : bool :=
  negb (open c) && (size c =? 0).

(** The tail of [send] from [sender.wait(lk, size < maxSize)] on; a
    thread woken from the wait re-enters here.  The comparison is
    between a [size_t] and an [int], so [maxSize] is converted. *)
Definition send_wait (t : tid) (value : X) (c : bufferedChannel) : outcome unit :=
  if size c <? Int.to_size_t (maxSize c) then
    Returns tt
      {| open := open c; buffer := buffer c ++ [value]; maxSize := maxSize c;
         sender := sender c; receiver := notify_one (receiver c) |}
  else
    Waits
      {| open := open c; buffer := buffer c; maxSize := maxSize c;
         sender := sender c ++ [t]; receiver := receiver c |}.

(** [send(X value)] *)
Definition send (t : tid) (value : X) (c : bufferedChannel) : outcome unit :=
  if negb (open c) then Throws "Receive on Closed Channel." c
  else send_wait t value c.

(** The tail of [receive] from [receiver.wait(lk, size > 0 || !open)],
    with the second closed-and-empty test that follows the wait.  Past
    that test the predicate of the wait gives [size > 0]; [front()] of
    an empty queue cannot be reached. *)
Definition receive_wait (t : tid) (c : bufferedChannel) : outcome X :=
  if (0 <? size c) || negb (open c) then
    if negb (open c) && (size c =? 0) then
      Throws "Receive on Closed Channel." c
    else
      match buffer c with
      | data :: rest =>
          Returns data
            {| open := open c; buffer := rest; maxSize := maxSize c;
               sender := notify_one (sender c); receiver := receiver c |}
      | [] => Throws "front() of an empty queue" c
      end
  else
    Waits
      {| open := open c; buffer := buffer c; maxSize := maxSize c;
         sender := sender c; receiver := receiver c ++ [t] |}.

(** [receive()] *)
Definition receive (t : tid) (c : bufferedChannel) : outcome X :=
  if negb (open c) && (size c =? 0) then Throws "Receive on Closed Channel." c
  else receive_wait t c.

End Buffered.
Arguments bufferedChannel : clear implicits.
Arguments outcome : clear implicits.
Arguments Returns {X R}. Arguments Throws {X R}. Arguments Waits {X R}.

(** *** Threads around one channel

    The channel is shared by threads that call [send], [receive] and
    [close].  A thread parked in a [wait] stays parked until it runs
    again ([Resume]): it then re-evaluates the predicate of its wait, as
    [std::condition_variable::wait(lock, pred)] does after a notification
    or a spurious wake-up.  [sent] and [received] are history variables:
    the values pushed and the values handed out, oldest first. *)
Section System.
Context {X : Type}.

Inductive parked := ParkedSend (value : X) | ParkedReceive.

Record system := mkSystem {
  chan : bufferedChannel X;
  waiting : gmap tid parked;
  sent : list X;
  received : list X;
}.

Inductive action :=
| Send (t : tid) (value : X)
| Receive (t : tid)
| Resume (t : tid)
| Close.

Definition unpark (t : tid) (cv : list tid) : list tid :=
  filter (λ u, u ≠ t) cv.

Definition leave_sender (t : tid) (c : bufferedChannel X) : bufferedChannel X :=
  {| open := open c; buffer := buffer c; maxSize := maxSize c;
     sender := unpark t (sender c); receiver := receiver c |}.

Definition leave_receiver (t : tid) (c : bufferedChannel X) : bufferedChannel X :=
  {| open := open c; buffer := buffer c; maxSize := maxSize c;
     sender := sender c; receiver := unpark t (receiver c) |}.

Definition after_send (t : tid) (value : X) (s : system) (o : outcome X unit) : system :=
  match o with
  | Returns _ c =>
      {| chan := c; waiting := delete t (waiting s);
         sent := sent s ++ [value]; received := received s |}
  | Throws _ c =>
      {| chan := c; waiting := delete t (waiting s);
         sent := sent s; received := received s |}
  | Waits c =>
      {| chan := c; waiting := <[t := ParkedSend value]> (waiting s);
         sent := sent s; received := received s |}
  end.

Definition after_receive (t : tid) (s : system) (o : outcome X X) : system :=
  match o with
  | Returns data c =>
      {| chan := c; waiting := delete t (waiting s);
         sent := sent s; received := received s ++ [data] |}
  | Throws _ c =>
      {| chan := c; waiting := delete t (waiting s);
         sent := sent s; received := received s |}
  | Waits c =>
      {| chan := c; waiting := <[t := ParkedReceive]> (waiting s);
         sent := sent s; received := received s |}
  end.

(** One atomic step.  A parked thread cannot start a new call, and
    only a parked thread can be resumed. *)
Definition step (s : system) (a : action) : system :=
  match a with
  | Send t value =>
      match waiting s !! t with
      | Some _ => s
      | None => after_send t value s (send t value (chan s))
      end
  | Receive t =>
      match waiting s !! t with
      | Some _ => s
      | None => after_receive t s (receive t (chan s))
      end
  | Resume t =>
      match waiting s !! t with
      | Some (ParkedSend value) =>
          after_send t value s (send_wait t value (leave_sender t (chan s)))
      | Some ParkedReceive =>
          after_receive t s (receive_wait t (leave_receiver t (chan s)))
      | None => s
      end
  | Close =>
      {| chan := close (chan s); waiting := waiting s;
         sent := sent s; received := received s |}
  end.

Definition run (s : system) (acts : list action) : system :=
  fold_left step acts s.

(** A parked thread has been notified once it is off the wait list of
    its condition variable: [notify_one] or [notify_all] has taken it
    off, and its [wait] evaluates the predicate again as soon as it
    gets the mutex. *)
Definition notified (s : system) (t : tid) : bool :=
  match waiting s !! t with
  | Some (ParkedSend _) => bool_decide (t ∉ sender (chan s))
  | Some ParkedReceive => bool_decide (t ∉ receiver (chan s))
  | None => false
  end.

(** A step of the system when no wake-up is spurious: a parked thread
    runs again only after it has been notified. *)
Definition step_notified (s : system) (a : action) : system :=
  match a with
  | Resume t => if notified s t then step s a else s
  | _ => step s a
  end.

Definition run_notified (s : system) (acts : list action) : system :=
  fold_left step_notified acts s.

(** [makeChannel<X>(size)] for [size <> 0], with nobody around yet. *)
Definition fresh (size : Z) : system :=
  {| chan := bufferedChannel_new size; waiting := ∅;
     sent := []; received := [] |}.

End System.
Arguments system : clear implicits.
Arguments action : clear implicits.
Arguments parked : clear implicits.

End Channel.

(** ** The work-stealing executor
    ([threadpool/workstealqueue.h], [threadpool/threadqueue.h],
    [threadpool.cpp]) *)

Module Pool.

Section Pool.
(** The tasks, [std::function<void()>] in the source. *)
Context {T : Type}.

(** [WorkStealQueue<T>]: the [std::deque], front at the head.  Each
    member function holds the queue's mutex, so it is atomic. *)
Definition WorkStealQueue := list T.

(** [WorkStealQueue::empty] *)
Definition ws_empty (q : WorkStealQueue) : bool :=
  match q with [] => true | _ => false end.

(** [WorkStealQueue::push]: [push_front] *)
Definition ws_push (data : T) (q : WorkStealQueue) : WorkStealQueue :=
  data :: q.

(** [WorkStealQueue::trySteal]: [back] and [pop_back] *)
Definition trySteal (q : WorkStealQueue) : option T * WorkStealQueue :=
  match last q with
  | None => (None, q)
  | Some result => (Some result, removelast q)
  end.

(** [WorkStealQueue::tryPop]: [front] and [pop_front] *)
Definition ws_tryPop (q : WorkStealQueue) : option T * WorkStealQueue :=
  match q with
  | [] => (None, q)
  | result :: rest => (Some result, rest)
  end.

(** [ThreadedQueue<T>]: the [std::queue], front at the head. *)
Definition ThreadedQueue := list T.

(** [ThreadedQueue::push] *)
Definition tq_push (value : T) (q : ThreadedQueue) : ThreadedQueue :=
  q ++ [value].

(** [ThreadedQueue::tryPop] *)
Definition tq_tryPop (q : ThreadedQueue) : option T * ThreadedQueue :=
  match q with
  | [] => (None, q)
  | result :: rest => (Some result, rest)
  end.

(** [class ThreadPool], without the threads themselves. *)
Record ThreadPool := mkPool {
  threadCount : Z;
  done : bool;
  workQueue : ThreadedQueue;
  queues : list WorkStealQueue;
}.

(** The two [thread_local] members.  [localWorkQueue] points into
    [queues]; [None] is the null pointer of a thread that is not a
    worker. *)
Record worker := mkWorker {
  myIndex : Z;
  localWorkQueue : option nat;
}.

(** The first two statements of [workerThread(myIndex_)]. *)
Definition workerThread_init (myIndex_ : Z) : worker :=
  {| myIndex := myIndex_; localWorkQueue := Some (Z.to_nat myIndex_) |}.

(** The thread-locals of a thread that never ran [workerThread]. *)
Definition outsider : worker :=
  {| myIndex := 0; localWorkQueue := None |}.

(** [ThreadPool::isEmpty] *)
Definition isEmpty (p : ThreadPool) : bool :=
  forallb ws_empty (queues p) && ws_empty (workQueue p).

(** [ThreadPool::popLocal] *)
Definition popLocal (w : worker) (p : ThreadPool) : option T * ThreadPool :=
  match localWorkQueue w with
  | None => (None, p)
  | Some l =>
      match queues p !! l with
      | None => (None, p)
      | Some q =>
          let '(r, q') := ws_tryPop q in
          (r, {| threadCount := threadCount p; done := done p;
                 workQueue := workQueue p; queues := <[l := q']> (queues p) |})
      end
  end.

(** [ThreadPool::popPoolQueue] *)
Definition popPoolQueue (p : ThreadPool) : option T * ThreadPool :=
  let '(r, q') := tq_tryPop (workQueue p) in
  (r, {| threadCount := threadCount p; done := done p;
         workQueue := q'; queues := queues p |}).

(** The loop of [ThreadPool::popOtherThreads], [n] trips left and the
    counter at [i].  [index] is computed in [unsigned] arithmetic and
    reduced modulo [queues.size()].  The third component lists the
    deques on which [trySteal] was called, in the order of the calls.
    [queues.at(index)] cannot be out of range, as [index < size]. *)
Fixpoint popOtherThreads_loop (w : worker) (n : nat) (i : Z)
    (qs : list WorkStealQueue) : option T * list WorkStealQueue * list nat :=
  match n with
  | O => (None, qs, [])
  | S n' =>
      let index :=
        Z.to_nat (Int.to_uint32 (myIndex w + i + 1) mod Z.of_nat (length qs)) in
      match qs !! index with
      | None => (None, qs, [index])
      | Some q =>
          match trySteal q with
          | (Some task, q') => (Some task, <[index := q']> qs, [index])
          | (None, _) =>
              let '(r, qs', tried) :=
                popOtherThreads_loop w n' (Int.to_uint32 (i + 1)) qs in
              (r, qs', index :: tried)
          end
      end
  end.

(** [ThreadPool::popOtherThreads] *)
Definition popOtherThreads (w : worker) (p : ThreadPool)
    : option T * ThreadPool * list nat :=
  let '(r, qs, tried) :=
    popOtherThreads_loop w (length (queues p)) 0 (queues p) in
  (r, {| threadCount := threadCount p; done := done p;
         workQueue := workQueue p; queues := qs |}, tried).

(** [ThreadPool::runPendingTask], up to the call of the task: the task
    to run (or [None], and the thread yields), the pool afterwards, and
    the deques on which a steal was attempted. *)
Definition runPendingTask (w : worker) (p : ThreadPool)
    : option T * ThreadPool * list nat :=
  match popLocal w p with
  | (Some task, p1) => (Some task, p1, [])
  | (None, p1) =>
      match popPoolQueue p1 with
      | (Some task, p2) => (Some task, p2, [])
      | (None, p2) => popOtherThreads w p2
      end
  end.

(** [ThreadPool::submit] *)
Definition submit (w : worker) (task : T) (p : ThreadPool) : ThreadPool :=
  match localWorkQueue w with
  | Some l =>
      {| threadCount := threadCount p; done := done p; workQueue := workQueue p;
         queues := alter (ws_push task) l (queues p) |}
  | None =>
      {| threadCount := threadCount p; done := done p;
         workQueue := tq_push task (workQueue p); queues := queues p |}
  end.

(** [ThreadPool::ThreadPool], for [hardware_concurrency() = n]. *)
Definition ThreadPool_new (n : nat) : ThreadPool :=
  {| threadCount := Z.of_nat n; done := false; workQueue := [];
     queues := repeat [] n |}.

End Pool.
Arguments ThreadPool : clear implicits.
Arguments WorkStealQueue : clear implicits.
Arguments ThreadedQueue : clear implicits.

End Pool.

(** ** The frame ([drexelprotocol/msgtype.h], [drexelprotocol/pdu.h]) *)

Module Wire.

(** [enum MsgType] *)
Module MsgType.
Definition INI : Z := 0.
Definition ACK : Z := 1.
Definition SND : Z := 2.
Definition CONNECT : Z := 4.
Definition CLOSE : Z := 8.
Definition NACK : Z := 16.
Definition FRAGMENT : Z := 32.
Definition ERROR : Z := 64.
Definition SNDACK : Z := Z.lor SND ACK.
Definition CNTACK : Z := Z.lor CONNECT ACK.
Definition CLOSEACK : Z := Z.lor CLOSE ACK.
Definition SENDFRAGMENT : Z := Z.lor FRAGMENT SND.
Definition SENDFRAGMENTACK : Z := Z.lor FRAGMENT SNDACK.
End MsgType.

(** [struct PDU]: five [int]s. *)
Record PDU := mkPDU {
  proto_ver : Z;
  mtype : Z;
  seqnum : Z;
  dgram_sz : Z;
  err_num : Z;
}.

(** [sizeof(PDU)] *)
Definition sizeof_PDU : Z := 20.

(** The object representation of a [PDU], as [sendto] reads it from
    [&pdu]: the members in order, four bytes each, little-endian. *)
Definition PDU_bytes (p : PDU) : list byte :=
  le_split 4 (proto_ver p) ++ le_split 4 (mtype p) ++ le_split 4 (seqnum p)
    ++ le_split 4 (dgram_sz p) ++ le_split 4 (err_num p).

(** The [int] stored at byte offset [off] of a buffer. *)
Definition int_at (off : nat) (buff : list byte) : Z :=
  Int.to_int32 (le_combine (take 4 (drop off buff))).

(** [memcpy(&inPdu, buff, sizeof(PDU))]: the first twenty bytes of the
    buffer read as a [PDU]. *)
Definition PDU_of_bytes (buff : list byte) : PDU :=
  {| proto_ver := int_at 0 buff; mtype := int_at 4 buff; seqnum := int_at 8 buff;
     dgram_sz := int_at 12 buff; err_num := int_at 16 buff |}.

(** [memcpy(buff + off, src, length src)] inside the buffer. *)
Definition write_at (off : nat) (src : list byte) (buff : list byte) : list byte :=
  take off buff ++ src ++ drop (off + length src) buff.

End Wire.

(** ** The connection endpoint ([drexelprotocol/connection.h]) *)

Module Conn.
Import Wire.

(** [struct in_addr]: the four octets of the address, in network order. *)
Record in_addr := mk_in_addr { o1 : byte; o2 : byte; o3 : byte; o4 : byte }.

(** [struct sockaddr_in] *)
Record sockaddr_in := mk_sockaddr_in {
  sin_family : Z;
  sin_port : Z;
  sin_addr : in_addr;
}.

(** [inet_ntoa] of the C library: the octets in decimal, dot-separated. *)
Definition octet (b : byte) : string := pretty (Z.to_N (byte.unsigned b)).

Definition inet_ntoa (a : in_addr) : string :=
  octet (o1 a) +:+ "." +:+ octet (o2 a) +:+ "." +:+ octet (o3 a) +:+ "." +:+ octet (o4 a).

(** [struct Sock] *)
Record Sock := mkSock {
  len : Z;
  isAddrInit : bool;
  addr : sockaddr_in;
}.

Definition MAX_BUFF_SZ : Z := 512.
Definition MAX_DGRAM_SZ : Z := MAX_BUFF_SZ + sizeof_PDU.
Definition NO_ERROR : Z := 0.
Definition ERROR_GENERAL : Z := -1.
Definition ERROR_PROTOCOL : Z := -2.
Definition ERROR_BAD_DGRAM : Z := -32.
Definition BUFF_UNDERSIZED : Z := -4.
Definition BUFF_OVERSIZED : Z := -8.
Definition CONNECTION_CLOSED : Z := -16.

(** [class Connection<PDU>] *)
Record Connection := mkConnection {
  udpSock : Z;
  seqNum : Z;
  connected : bool;
  dbgMode : Z;
  outSockAddr : Sock;
  inSockAddr : Sock;
  seqNums : gmap string Z;
  _buffer : list byte;
}.

Definition set_seqNum (n : Z) (c : Connection) : Connection :=
  {| udpSock := udpSock c; seqNum := n; connected := connected c;
     dbgMode := dbgMode c; outSockAddr := outSockAddr c;
     inSockAddr := inSockAddr c; seqNums := seqNums c; _buffer := _buffer c |}.

Definition set_outSockAddr (s : Sock) (c : Connection) : Connection :=
  {| udpSock := udpSock c; seqNum := seqNum c; connected := connected c;
     dbgMode := dbgMode c; outSockAddr := s;
     inSockAddr := inSockAddr c; seqNums := seqNums c; _buffer := _buffer c |}.

Definition set_seqNums (m : gmap string Z) (c : Connection) : Connection :=
  {| udpSock := udpSock c; seqNum := seqNum c; connected := connected c;
     dbgMode := dbgMode c; outSockAddr := outSockAddr c;
     inSockAddr := inSockAddr c; seqNums := m; _buffer := _buffer c |}.

Definition set_buffer (b : list byte) (c : Connection) : Connection :=
  {| udpSock := udpSock c; seqNum := seqNum c; connected := connected c;
     dbgMode := dbgMode c; outSockAddr := outSockAddr c;
     inSockAddr := inSockAddr c; seqNums := seqNums c; _buffer := b |}.

Definition set_connected (b : bool) (c : Connection) : Connection :=
  {| udpSock := udpSock c; seqNum := seqNum c; connected := b;
     dbgMode := dbgMode c; outSockAddr := outSockAddr c;
     inSockAddr := inSockAddr c; seqNums := seqNums c; _buffer := _buffer c |}.

(** A datagram on its way in: where it comes from and what it carries. *)
Record datagram := mkDatagram {
  src : sockaddr_in;
  data : list byte;
}.

(** What the endpoint does to the outside, oldest first in a log. *)
Inductive event :=
| Sendto (dest : sockaddr_in) (bytes : list byte)
| SockClose.

(** The kernel, as far as the endpoint depends on it: the value [sendto]
    returns for a socket, a destination and the bytes handed over. *)
Class Kernel := { sendto : Z -> sockaddr_in -> list byte -> Z }.

(** A kernel that always takes the whole datagram. *)
Definition healthy : Kernel :=
  {| sendto := λ _ _ bytes, Z.of_nat (length bytes) |}.

Section Connection.
Context `{Kernel}.

(** [Connection::close] *)
Definition close : list event := [SockClose].

(** [Connection::recvRaw].  [rx] is what [recvfrom] finds: [None] when
    it fails, else the next datagram, of which at most [buffSz] bytes
    (a [size_t] for the kernel) land at the start of [buff]; the source
    address goes to [outSockAddr.addr].  Result: the return value, the
    endpoint, the buffer. *)
Definition recvRaw (c : Connection) (buff : list byte) (buffSz : Z)
    (rx : option datagram) : Z * Connection * list byte :=
  if negb (isAddrInit (inSockAddr c)) then (-1, c, buff)
  else
    match rx with
    | None => (-1, c, buff)
    | Some d =>
        let got := take (Z.to_nat (Int.to_size_t buffSz)) (data d) in
        (Z.of_nat (length got),
         set_outSockAddr
           {| len := len (outSockAddr c); isAddrInit := true; addr := src d |} c,
         write_at 0 got buff)
    end.

(** [Connection::sendRaw]: the return value and the log. *)
Definition sendRaw (c : Connection) (sbuff : list byte) (sbuff_sz : Z)
    : Z * list event :=
  if negb (isAddrInit (outSockAddr c)) then (-1, [])
  else
    let bytes := take (Z.to_nat sbuff_sz) sbuff in
    (sendto (udpSock c) (addr (outSockAddr c)) bytes,
     [Sendto (addr (outSockAddr c)) bytes]).

(** The sequence counter after a frame: [seqNum++] or
    [seqNum += inPdu.dgram_sz], on an [unsigned int]. *)
Definition advance (seq errCode sz : Z) : Z :=
  if errCode =? NO_ERROR then
    if sz =? 0 then Int.to_uint32 (seq + 1)
    else Int.to_uint32 (seq + sz)
  else Int.to_uint32 (seq + 1).

(** The two validations of a received frame.  [bytesIn < sizeof(PDU)]
    compares an [int] with a [size_t]; the second test overrides the
    first. *)
Definition classify (bytesIn : Z) (inPdu : PDU) (buffSz : Z) : Z :=
  let errCode := NO_ERROR in
  let errCode :=
    if Int.to_size_t bytesIn <? sizeof_PDU then ERROR_BAD_DGRAM else errCode in
  let errCode :=
    if dgram_sz inPdu >? buffSz then BUFF_UNDERSIZED else errCode in
  errCode.

(** [PDU outPdu] with [dgram_sz], [seqnum], [err_num] and [mtype] set. *)
Definition outPdu_for (seq errCode mt : Z) : PDU :=
  {| proto_ver := 1; mtype := mt; seqnum := Int.to_int32 seq;
     dgram_sz := 0; err_num := errCode |}.

(** What a call of [recvDgram] leaves behind. *)
Record received := mkReceived {
  rd_ret : Z;
  rd_conn : Connection;
  rd_buff : list byte;
  rd_log : list event;
}.

(** The [switch (inPdu.mtype)] at the end of [recvDgram]; [log] holds
    what was sent before it. *)
Definition recvDgram_switch (c : Connection) (buff : list byte)
    (bytesIn : Z) (inPdu : PDU) (errCode : Z) (log : list event) : received :=
  if mtype inPdu =? MsgType.SND then
    let '(actSndSz, sent) :=
      sendRaw c (PDU_bytes (outPdu_for (seqNum c) errCode MsgType.SNDACK)) sizeof_PDU in
    if negb (Int.to_size_t actSndSz =? sizeof_PDU) then
      mkReceived ERROR_PROTOCOL c buff (log ++ sent)
    else mkReceived bytesIn c buff (log ++ sent)
  else if mtype inPdu =? MsgType.CLOSE then
    let '(actSndSz, sent) :=
      sendRaw c (PDU_bytes (outPdu_for (seqNum c) errCode MsgType.CLOSEACK)) sizeof_PDU in
    if negb (Int.to_size_t actSndSz =? sizeof_PDU) then
      mkReceived ERROR_PROTOCOL c buff (log ++ sent)
    else mkReceived CONNECTION_CLOSED c buff (log ++ sent ++ close)
  else mkReceived ERROR_PROTOCOL c buff log.

(** [Connection::recvDgram] *)
Definition recvDgram (c : Connection) (buff : list byte) (buffSz : Z)
    (rx : option datagram) : received :=
  if buffSz >? MAX_DGRAM_SZ then mkReceived BUFF_OVERSIZED c buff []
  else
    let '(bytesIn, c, buff) := recvRaw c buff buffSz rx in
    let inPdu := PDU_of_bytes buff in
    let errCode := classify bytesIn inPdu buffSz in
    let c := set_seqNum (advance (seqNum c) errCode (dgram_sz inPdu)) c in
    if negb (errCode =? NO_ERROR) then
      let '(actSndSz, sent) :=
        sendRaw c (PDU_bytes (outPdu_for (seqNum c) errCode MsgType.ERROR)) sizeof_PDU in
      if negb (Int.to_size_t actSndSz =? sizeof_PDU) then
        mkReceived ERROR_PROTOCOL c buff sent
      else recvDgram_switch c buff bytesIn inPdu errCode sent
    else if Z.land (mtype inPdu) MsgType.FRAGMENT =? MsgType.FRAGMENT then
      let '(actSndSz, sent) :=
        sendRaw c (PDU_bytes (outPdu_for (seqNum c) errCode MsgType.SENDFRAGMENTACK))
          sizeof_PDU in
      if negb (Int.to_size_t actSndSz =? sizeof_PDU) then
        mkReceived ERROR_PROTOCOL c buff sent
      else mkReceived bytesIn c buff sent
    else recvDgram_switch c buff bytesIn inPdu errCode [].

(** What a call that sends leaves behind; [Undefined] when the source
    runs into undefined behaviour ([memcpy] with a negative length or
    past the end of the caller's buffer). *)
Inductive sending :=
| Sent (ret : Z) (c : Connection) (log : list event)
| Undefined.

(** [Connection::sendDgram].  [rx] is what the [recvRaw] for the
    acknowledgement finds. *)
Definition sendDgram (c : Connection) (sbuff : list byte) (sbuff_sz : Z)
    (rx : option datagram) : sending :=
  if negb (isAddrInit (outSockAddr c)) then Sent ERROR_GENERAL c []
  else
    let mt := if sbuff_sz >? MAX_BUFF_SZ then MsgType.SENDFRAGMENT else MsgType.SND in
    let sz := if sbuff_sz >? MAX_BUFF_SZ then MAX_BUFF_SZ else sbuff_sz in
    let buffer := write_at 8 (le_split 4 (seqNum c)) (_buffer c) in
    let buffer := write_at 4 (le_split 4 mt) buffer in
    let buffer := write_at 12 (le_split 4 sz) buffer in
    if (sz <? 0) || (Z.of_nat (length sbuff) <? sz) then Undefined
    else
      let buffer := write_at 20 (take (Z.to_nat sz) sbuff) buffer in
      let c := set_buffer buffer c in
      let totalSendSz := Int.to_int32 (Int.to_size_t (Int.to_size_t sz + sizeof_PDU)) in
      let '(bytesOut, log) := sendRaw c buffer totalSendSz in
      let c :=
        if sz =? 0 then set_seqNum (Int.to_uint32 (seqNum c + 1)) c
        else set_seqNum (Int.to_uint32 (seqNum c + sz)) c in
      let '(_, c, _) := recvRaw c (repeat Byte.x00 20) sizeof_PDU rx in
      Sent (Int.to_int32 (Int.to_size_t (Int.to_size_t bytesOut - sizeof_PDU))) c log.

(** [Connection::connect].  [PDU pdu = {0}] sets [proto_ver] to 0. *)
Definition connect (c : Connection) (rx : option datagram) : sending :=
  if negb (isAddrInit (outSockAddr c)) then Sent ERROR_GENERAL c []
  else
    let pdu :=
      {| proto_ver := 0; mtype := MsgType.CONNECT; seqnum := Int.to_int32 (seqNum c);
         dgram_sz := 0; err_num := 0 |} in
    let '(sndSz, log) := sendRaw c (PDU_bytes pdu) sizeof_PDU in
    if negb (Int.to_size_t sndSz =? sizeof_PDU) then Sent (-1) c log
    else
      let '(rcvSz, c, buff) := recvRaw c (PDU_bytes pdu) sizeof_PDU rx in
      if negb (Int.to_size_t rcvSz =? sizeof_PDU) then Sent (-1) c log
      else if negb (mtype (PDU_of_bytes buff) =? MsgType.CNTACK) then Sent (-1) c log
      else Sent 1 (set_connected true (set_seqNum (Int.to_uint32 (seqNum c + 1)) c)) log.

(** [Connection::disconnect].  [PDU pdu = {}] keeps [proto_ver = 1]. *)
Definition disconnect (c : Connection) (rx : option datagram) : sending :=
  let pdu :=
    {| proto_ver := 1; mtype := MsgType.CLOSE; seqnum := Int.to_int32 (seqNum c);
       dgram_sz := 0; err_num := 0 |} in
  let '(sndSz, log) := sendRaw c (PDU_bytes pdu) sizeof_PDU in
  if negb (Int.to_size_t sndSz =? sizeof_PDU) then Sent ERROR_GENERAL c log
  else
    let '(rcvSz, c, buff) := recvRaw c (PDU_bytes pdu) sizeof_PDU rx in
    if negb (Int.to_size_t rcvSz =? sizeof_PDU) then Sent ERROR_GENERAL c log
    else if negb (mtype (PDU_of_bytes buff) =? MsgType.CLOSEACK) then
      Sent ERROR_GENERAL c log
    else Sent CONNECTION_CLOSED c (log ++ close).

(** [Connection::listen], the single-peer accept of the endpoint. *)
Definition listen (c : Connection) (rx : option datagram) : sending :=
  if negb (isAddrInit (inSockAddr c)) then Sent ERROR_GENERAL c []
  else
    let '(rcvSz, c, buff) := recvRaw c (repeat Byte.x00 20) sizeof_PDU rx in
    if negb (Int.to_size_t rcvSz =? sizeof_PDU) then Sent ERROR_GENERAL c []
    else
      let pdu := PDU_of_bytes buff in
      let c := set_seqNum (Int.to_uint32 (Int.to_int32 (seqnum pdu + 1))) c in
      let pdu :=
        {| proto_ver := proto_ver pdu; mtype := MsgType.CNTACK;
           seqnum := Int.to_int32 (seqNum c); dgram_sz := dgram_sz pdu;
           err_num := err_num pdu |} in
      let '(sndSz, log) := sendRaw c (PDU_bytes pdu) sizeof_PDU in
      if negb (Int.to_size_t sndSz =? sizeof_PDU) then Sent ERROR_GENERAL c log
      else Sent 1 (set_connected true c) log.

(** What a call that loops over datagrams comes to: it returns, or it
    sits in [recvfrom] with nothing left to read, or the source runs
    into undefined behaviour. *)
Inductive looping :=
| Ended (ret : Z) (c : Connection) (out : list byte) (log : list event)
| Starved (c : Connection) (out : list byte) (log : list event)
| Wild.

(** [Connection::send]: [sendDgram] until the buffer is out.  [rxs]
    lists, trip by trip, what the [recvfrom] for the acknowledgement
    finds.  When the list is out the call stays in the [recvfrom] of
    the frame it has just sent (or, on an endpoint that is not set up,
    gets [ERROR_GENERAL] from [sendDgram] and returns). *)
Fixpoint send (c : Connection) (sbuff : list byte) (sbuff_sz : Z) (total : Z)
    (log : list event) (rxs : list (option datagram)) : looping :=
  if sbuff_sz >? 0 then
    match rxs with
    | [] =>
        match sendDgram c sbuff sbuff_sz None with
        | Sent _ c' sent =>
            if isAddrInit (outSockAddr c) then Starved c' [] (log ++ sent)
            else Ended (-1) c' [] (log ++ sent)
        | Undefined => Wild
        end
    | rx :: rest =>
        match sendDgram c sbuff sbuff_sz rx with
        | Sent sndSz c' sent =>
            if sndSz <=? 0 then Ended (-1) c' [] (log ++ sent)
            else
              send c' (drop (Z.to_nat sndSz) sbuff) (Int.to_int32 (sbuff_sz - sndSz))
                (Int.to_int32 (total + sndSz)) (log ++ sent) rest
        | Undefined => Wild
        end
    end
  else Ended total c [] log.

(** One trip of the loop of [Connection::recv]: the result of
    [recvDgram] on the zeroed [_buffer], the number of bytes copied
    out (computed in [size_t]), and whether the frame was a fragment.
    [room] is what is left of the caller's buffer. *)
Definition recv_copied (total rcvLen buffSz : Z) : Z :=
  if Int.to_size_t (Int.to_size_t total + Int.to_size_t (Int.to_size_t rcvLen - sizeof_PDU))
       >? Int.to_size_t buffSz
  then Int.to_int32 (buffSz - total)
  else Int.to_int32 (Int.to_size_t (Int.to_size_t rcvLen - sizeof_PDU)).

(** [Connection::recv]: the payloads of the frames up to the first
    one that is not a fragment, one after the other in the caller's
    buffer [out] of [buffSz] bytes. *)
Fixpoint recv (c : Connection) (out : list byte) (buffSz : Z) (total : Z)
    (log : list event) (rxs : list (option datagram)) : looping :=
  match rxs with
  | [] => Starved c out log
  | rx :: rest =>
      let r :=
        recvDgram c (repeat Byte.x00 (Z.to_nat MAX_DGRAM_SZ)) MAX_DGRAM_SZ rx in
      let c := set_buffer (rd_buff r) (rd_conn r) in
      let log := log ++ rd_log r in
      if rd_ret r =? CONNECTION_CLOSED then Ended CONNECTION_CLOSED c out log
      else
        let copied := recv_copied total (rd_ret r) buffSz in
        if (copied <? 0) || (MAX_BUFF_SZ <? copied)
           || (Z.of_nat (length out) <? total + copied) then Wild
        else
          let out :=
            write_at (Z.to_nat total)
              (take (Z.to_nat copied) (drop (Z.to_nat sizeof_PDU) (rd_buff r))) out in
          let total := Int.to_int32 (total + copied) in
          if Z.land (mtype (PDU_of_bytes (rd_buff r))) MsgType.FRAGMENT
               =? MsgType.FRAGMENT
          then recv c out buffSz total log rest
          else Ended total c out log
  end.

End Connection.

End Conn.

(** ** The writer and the dispatcher
    ([drexelprotocol/ftp.h], [drexelprotocol/server.h], [server.cpp]) *)

Module Server.
Import Wire Conn.

(** [enum Status] *)
Module Status.
Definition NEW : Z := 0.
Definition APPEND : Z := 1.
End Status.

(** [sizeof(FTP_PDU)]: [fileName[100]], then three 4-byte members. *)
Definition sizeof_FTP_PDU : Z := 112.

(** A [const char*] read as a C string: the bytes before the first NUL.
    A [std::string] is NUL-terminated, so the end of the message stops
    the read as well. *)
Fixpoint c_str (bs : list byte) : list byte :=
  match bs with
  | [] => []
  | b :: rest => if Byte.eqb b Byte.x00 then [] else b :: c_str rest
  end.

(** [pdu->fileName] and [pdu->status] of the message reinterpreted as an
    [FTP_PDU].  [status] lies in the bytes 104 to 107; the NUL that ends
    a [std::string] is byte 107 of a message of 107 bytes, so from that
    length on the four bytes are those of the string.  Of a shorter
    message the source reads [status] past the end of the string
    ([status_in_reach] is false). *)
Definition fileName (buff : list byte) : string := string_of_list_byte (c_str buff).
Definition status (buff : list byte) : Z := int_at 104 buff.
Definition status_in_reach (buff : list byte) : bool :=
  107 <=? Z.of_nat (length buff).

(** The disk: the files by name, and the names the system refuses to
    open for writing. *)
Record filesystem := mkFs {
  files : gmap string (list byte);
  refuses : string -> bool;
}.

(** [std::ofstream outFile{name, out | mode}; outFile << bytes], for a
    name the system accepts, [outFile] closed at the end of the block. *)
Definition write_file (name : string) (truncate : bool) (bytes : list byte)
    (fs : filesystem) : filesystem :=
  let before := if truncate then [] else default [] (files fs !! name) in
  {| files := <[name := before ++ bytes]> (files fs); refuses := refuses fs |}.

(** [class FTPFileWriter].  [stream] is the channel the pointer leads
    to; the writer is the one who deletes it, on its way out. *)
Record FTPFileWriter := mkWriter {
  closed : bool;
  stream : Channel.bufferedChannel (list byte);
  address : string;
}.

(** [FTPFileWriter::FTPFileWriter]: [stream(makeChannel<std::string>(20))],
    which is [new bufferedChannel<std::string>(20)]. *)
Definition FTPFileWriter_new (address : string) : FTPFileWriter :=
  {| closed := false; stream := Channel.bufferedChannel_new 20; address := address |}.

Definition set_stream (c : Channel.bufferedChannel (list byte)) (w : FTPFileWriter)
    : FTPFileWriter :=
  {| closed := closed w; stream := c; address := address w |}.

(** What a call on the writer comes to. *)
Inductive fate :=
| Returned
| Blocked (value : list byte)
| Terminated (what : string)
| Exit (status : Z).

(** [FTPFileWriter::pushToChannel], called by thread [t]:
    [stream->send(std::string(buff, buffSz))].  A negative [buffSz] is a
    huge [size_t], and the string constructor throws. *)
Definition pushToChannel (t : Channel.tid) (w : FTPFileWriter) (buff : list byte)
    (buffSz : Z) : FTPFileWriter * fate :=
  if buffSz <? 0 then (w, Terminated "std::length_error")
  else
    let value := take (Z.to_nat buffSz) buff in
    match Channel.send t value (stream w) with
    | Channel.Returns _ c => (set_stream c w, Returned)
    | Channel.Throws what c => (set_stream c w, Terminated what)
    | Channel.Waits c => (set_stream c w, Blocked value)
    end.

(** One trip round the loop of [serverLoop]; the ways it can end. *)
Inductive trip :=
| Again (w : FTPFileWriter) (fs : filesystem)
| Parked (w : FTPFileWriter)
| Left (w : FTPFileWriter)
| Exits (status : Z) (cerr : string)
| Overreads.

(** After the loop: [delete stream; closed = true]. *)
Definition serverLoop_end (w : FTPFileWriter) : FTPFileWriter :=
  {| closed := true; stream := stream w; address := address w |}.

(** The body of the loop from the result of [receive] on.  The mode is
    computed from [pdu->status] before the file is opened.  When the
    message is too short for [status] the mode is whatever lies behind
    the string: a name the system refuses fails to open in either mode,
    and for any other name the trip has left what the language defines
    ([Overreads]). *)
Definition serverLoop_body (w : FTPFileWriter) (fs : filesystem)
    (got : Channel.outcome (list byte) (list byte)) : trip :=
  match got with
  | Channel.Throws _ c => Left (serverLoop_end (set_stream c w))
  | Channel.Waits c => Parked (set_stream c w)
  | Channel.Returns buff c =>
      let name := fileName buff in
      let truncate := status buff =? Status.NEW in
      if refuses fs name then Exits (-1) ("ERROR:  Cannot open file " +:+ name)
      else if negb (status_in_reach buff) then Overreads
      else
        Again (set_stream c w)
          (write_file name truncate (drop (Z.to_nat sizeof_FTP_PDU) buff) fs)
  end.

(** One trip of [FTPFileWriter::serverLoop], run by thread [t]. *)
Definition serverLoop_trip (t : Channel.tid) (w : FTPFileWriter) (fs : filesystem)
    : trip :=
  if Channel.isClosed (stream w) then Left (serverLoop_end w)
  else serverLoop_body w fs (Channel.receive t (stream w)).

(** The same trip for a thread that was parked in [receive]. *)
Definition serverLoop_resume (t : Channel.tid) (w : FTPFileWriter) (fs : filesystem)
    : trip :=
  serverLoop_body w fs
    (Channel.receive_wait t (Channel.leave_receiver t (stream w))).

(** [serverLoop] alone on its thread: trips until it leaves the loop,
    parks or exits the process; [None] when [fuel] runs out first. *)
Fixpoint serverLoop (fuel : nat) (t : Channel.tid) (w : FTPFileWriter)
    (fs : filesystem) : option (trip * filesystem) :=
  match fuel with
  | O => None
  | S fuel' =>
      match serverLoop_trip t w fs with
      | Again w' fs' => serverLoop fuel' t w' fs'
      | other => Some (other, fs)
      end
  end.

(** The task [listen] submits: the lambda captures the server by
    reference and finds its writer in [fw] when it runs. *)
Inductive task := WriterTask.

(** Writers live on the heap and are named by their address. *)
Definition ptr := nat.

(** [class FTPServer] *)
Record FTPServer := mkServer {
  dpc : Connection;
  connected : Z;
  pool : Pool.ThreadPool task;
  fw : list ptr;
  ftpWriters : gmap string ptr;
  heap : gmap ptr FTPFileWriter;
  next : ptr;
}.

(** What the dispatcher does, oldest first in a log. *)
Inductive event :=
| Net (e : Conn.event)
| Cerr (text : string) (value : Z)
| Submit
| ChannelClose (w : ptr)
| PushToChannel (w : ptr) (buffSz : Z).

(** The thread of [main], which runs [listen]. *)
Definition dispatcher : Channel.tid := 0%nat.

(** What a call of [listen] leaves behind. *)
Record listened := mkListened {
  ls_server : FTPServer;
  ls_log : list event;
  ls_fate : fate;
}.

Section Dispatcher.
Context `{Kernel}.

(** [ftpWriters[address]->...]: the writer behind the entry.  A missing
    entry is created as a null pointer by [operator[]], and the call
    through it ends the process. *)
Definition writer_of (s : FTPServer) (address : string) : option (ptr * FTPFileWriter) :=
  match ftpWriters s !! address with
  | None => None
  | Some p =>
      match heap s !! p with
      | None => None
      | Some w => Some (p, w)
      end
  end.

Definition set_heap (h : gmap ptr FTPFileWriter) (s : FTPServer) : FTPServer :=
  {| dpc := dpc s; connected := connected s; pool := pool s; fw := fw s;
     ftpWriters := ftpWriters s; heap := h; next := next s |}.

Definition set_dpc (c : Connection) (s : FTPServer) : FTPServer :=
  {| dpc := c; connected := connected s; pool := pool s; fw := fw s;
     ftpWriters := ftpWriters s; heap := heap s; next := next s |}.

(** The branch [rcvSz == sizeof(PDU)] of [listen] up to the return of
    [pool->submit]: the acknowledgement, the new writer at the back of
    [fw], the task in the pool.  [stack] stands for the members of the
    local [pdu] that are never assigned.  (Of the diagnostics, the ones
    written to [std::cerr] are logged.) *)
Definition listen_submit (s : FTPServer) (c : Connection) (address : string)
    (stack : PDU) : FTPServer * list event :=
  let c := set_seqNums (<[address := Int.to_uint32 (0 + 1)]> (seqNums c)) c in
  let pdu :=
    {| proto_ver := 1; mtype := MsgType.CNTACK;
       seqnum := Int.to_int32 (default 0 (seqNums c !! address));
       dgram_sz := dgram_sz stack; err_num := err_num stack |} in
  let '(_, sent) := sendRaw c (PDU_bytes pdu) sizeof_PDU in
  let p := next s in
  ({| dpc := c; connected := Int.to_int32 (connected s + 1);
      pool := Pool.submit Pool.outsider WriterTask (pool s);
      fw := fw s ++ [p];
      ftpWriters := ftpWriters s;
      heap := <[p := FTPFileWriter_new address]> (heap s);
      next := S p |},
   map Net sent ++ [Submit]).

(** The statement after it, [ftpWriters[address] = fw.back()].  No lock
    is held between the two: a worker that has taken the task has run
    [fw.back(); fw.pop_back()] by then, and [fw] is read as that worker
    has left it.  [None] is [back()] of an empty vector. *)
Definition listen_store (s : FTPServer) (address : string) : option FTPServer :=
  match last (fw s) with
  | None => None
  | Some p =>
      Some {| dpc := dpc s; connected := connected s; pool := pool s; fw := fw s;
              ftpWriters := <[address := p]> (ftpWriters s);
              heap := heap s; next := next s |}
  end.

(** The whole branch when no worker runs between [pool->submit] and the
    store: [fw.back()] is the writer just made. *)
Definition listen_connect (s : FTPServer) (c : Connection) (address : string)
    (stack : PDU) : listened :=
  let '(s1, log) := listen_submit s c address stack in
  mkListened (default s1 (listen_store s1 address)) log Returned.

(** The acknowledgement of the [else] branch of [listen]: the log, and
    whether the frame was a [CLOSE] that got as far as the channel. *)
Definition acknowledge (c : Connection) (seq : Z) (inPdu : PDU) (errCode : Z)
    : list event * bool :=
  if negb (errCode =? NO_ERROR) then
    let '(actSndSz, sent) :=
      sendRaw c (PDU_bytes (outPdu_for seq errCode MsgType.ERROR)) sizeof_PDU in
    (map Net sent ++
       (if negb (Int.to_size_t actSndSz =? sizeof_PDU)
        then [Cerr "ERROR: not no error" (mtype inPdu)] else []), false)
  else if Z.land (mtype inPdu) MsgType.FRAGMENT =? MsgType.FRAGMENT then
    let '(actSndSz, sent) :=
      sendRaw c (PDU_bytes (outPdu_for seq errCode MsgType.SENDFRAGMENTACK)) sizeof_PDU in
    (map Net sent ++
       (if negb (Int.to_size_t actSndSz =? sizeof_PDU)
        then [Cerr "ERROR: in frag " (mtype inPdu)] else []), false)
  else if mtype inPdu =? MsgType.SND then
    let '(actSndSz, sent) :=
      sendRaw c (PDU_bytes (outPdu_for seq errCode MsgType.SNDACK)) sizeof_PDU in
    (map Net sent ++
       (if negb (Int.to_size_t actSndSz =? sizeof_PDU)
        then [Cerr "ERROR: Unexpected or bad mtype in header " (mtype inPdu)] else []),
     false)
  else if mtype inPdu =? MsgType.CLOSE then
    let '(actSndSz, sent) :=
      sendRaw c (PDU_bytes (outPdu_for seq errCode MsgType.CLOSEACK)) sizeof_PDU in
    (map Net sent ++
       (if negb (Int.to_size_t actSndSz =? sizeof_PDU)
        then [Cerr "ERROR: Unexpected or bad mtype in header " (mtype inPdu)] else []),
     true)
  else ([Cerr "ERROR: Unexpected or bad mtype in header " (mtype inPdu)], false).

(** The last statement of the [else] branch:
    [ftpWriters[address]->pushToChannel(_buffer + sizeof(PDU),
    rcvSz - sizeof(PDU))], the length computed in [size_t] and passed
    as an [int]. *)
Definition listen_push (s : FTPServer) (address : string) (rcvSz : Z)
    (log : list event) : listened :=
  match writer_of s address with
  | None => mkListened s log (Terminated "null pointer")
  | Some (p, w) =>
      let buffSz := Int.to_int32 (Int.to_size_t (Int.to_size_t rcvSz - sizeof_PDU)) in
      let '(w', f) :=
        pushToChannel dispatcher w (drop (Z.to_nat sizeof_PDU) (_buffer (dpc s))) buffSz in
      mkListened (set_heap (<[p := w']> (heap s)) s)
        (log ++ [PushToChannel p buffSz]) f
  end.

(** The [else] branch of [listen]. *)
Definition listen_frame (s : FTPServer) (c : Connection) (address : string)
    (rcvSz : Z) : listened :=
  let buffSz := MAX_DGRAM_SZ in
  let inPdu := PDU_of_bytes (_buffer c) in
  let errCode := classify rcvSz inPdu buffSz in
  let seq := advance (default 0 (seqNums c !! address)) errCode (dgram_sz inPdu) in
  let c := set_seqNums (<[address := seq]> (seqNums c)) c in
  let s := set_dpc c s in
  let '(log, closing) := acknowledge c seq inPdu errCode in
  if closing then
    match writer_of s address with
    | None => mkListened s log (Terminated "null pointer")
    | Some (p, w) =>
        let s := set_heap (<[p := set_stream (Channel.close (stream w)) w]> (heap s)) s in
        listen_push s address rcvSz
          (log ++ [ChannelClose p;
                   Cerr "ERROR: Unexpected or bad mtype in header " (mtype inPdu)])
    end
  else listen_push s address rcvSz log.

(** [FTPServer::listen], without the sleep at its end, as a call that
    no worker interrupts between [pool->submit] and the store ([do_hail]
    below is the call that is interrupted there). *)
Definition listen (s : FTPServer) (stack : PDU) (rx : option datagram) : listened :=
  let buffer := repeat Byte.x00 (Z.to_nat MAX_DGRAM_SZ) in
  let '(rcvSz, c, buffer) := recvRaw (dpc s) buffer MAX_DGRAM_SZ rx in
  let c := set_buffer buffer c in
  let address := inet_ntoa (sin_addr (addr (outSockAddr c))) in
  if Int.to_size_t rcvSz =? sizeof_PDU then listen_connect s c address stack
  else listen_frame s c address rcvSz.

End Dispatcher.

(** *** The process

    The dispatcher and the workers that host writers, interleaved at the
    grain of one call of [listen] and one trip of [serverLoop].  Worker
    [i] of the pool is thread [S i]. *)

Record machine := mkMachine {
  server : FTPServer;
  disk : filesystem;
  hosting : gmap nat (ptr * bool);
  stalled : option (ptr * list byte);
}.

(** [exit] and [std::terminate] end every thread at once; [Derailed] is
    a process that has left what the language defines. *)
Inductive process :=
| Running (m : machine)
| Exited (status : Z) (cerr : string)
| Crashed (what : string)
| Derailed (what : string).

(** [Hail stack rx early] is a call of [listen] during which the workers
    of [early], one after the other, run [runPendingTask] between
    [pool->submit] and the store that follows it. *)
Inductive move :=
| Datagram (stack : PDU) (rx : option datagram)
| Retry
| Take (i : nat)
| Trip (i : nat)
| Hail (stack : PDU) (rx : option datagram) (early : list nat).

Section Process.
Context `{Kernel}.

(** The dispatcher calls [listen], unless it is parked in a [send]. *)
Definition do_listen (m : machine) (stack : PDU) (rx : option datagram)
    : process * list event :=
  match stalled m with
  | Some _ => (Running m, [])
  | None =>
      let r := listen (server m) stack rx in
      match ls_fate r with
      | Returned =>
          (Running {| server := ls_server r; disk := disk m;
                      hosting := hosting m; stalled := None |}, ls_log r)
      | Blocked value =>
          let s := ls_server r in
          let address := inet_ntoa (sin_addr (addr (outSockAddr (dpc s)))) in
          (Running {| server := s; disk := disk m; hosting := hosting m;
                      stalled := (λ pw, (fst pw, value)) <$> writer_of s address |},
           ls_log r)
      | Terminated what => (Crashed what, ls_log r)
      | Exit status => (Exited status "", ls_log r)
      end
  end.

(** The parked dispatcher goes round the wait of [send] once more. *)
Definition do_retry (m : machine) : process :=
  match stalled m with
  | None => Running m
  | Some (p, value) =>
      match heap (server m) !! p with
      | None => Crashed "deleted writer"
      | Some w =>
          let s := server m in
          match Channel.send_wait dispatcher value
                  (Channel.leave_sender dispatcher (stream w)) with
          | Channel.Returns _ c =>
              Running {| server := set_heap (<[p := set_stream c w]> (heap s)) s;
                         disk := disk m; hosting := hosting m; stalled := None |}
          | Channel.Throws what _ => Crashed what
          | Channel.Waits c =>
              Running {| server := set_heap (<[p := set_stream c w]> (heap s)) s;
                         disk := disk m; hosting := hosting m;
                         stalled := Some (p, value) |}
          end
      end
  end.

(** Worker [i] runs [runPendingTask]; given the task it enters the
    lambda: [writer = fw.back(); fw.pop_back()]. *)
Definition do_take (m : machine) (i : nat) : process :=
  match hosting m !! i with
  | Some _ => Running m
  | None =>
      let s := server m in
      match Pool.runPendingTask (Pool.workerThread_init (Z.of_nat i)) (pool s) with
      | (None, pool', _) =>
          Running {| server :=
                       {| dpc := dpc s; connected := connected s; pool := pool';
                          fw := fw s; ftpWriters := ftpWriters s; heap := heap s;
                          next := next s |};
                     disk := disk m; hosting := hosting m; stalled := stalled m |}
      | (Some WriterTask, pool', _) =>
          match last (fw s) with
          | None => Derailed "back() of an empty vector"
          | Some p =>
              Running {| server :=
                           {| dpc := dpc s; connected := connected s; pool := pool';
                              fw := removelast (fw s); ftpWriters := ftpWriters s;
                              heap := heap s; next := next s |};
                         disk := disk m; hosting := <[i := (p, false)]> (hosting m);
                         stalled := stalled m |}
          end
      end
  end.

(** Worker [i] makes one trip of the [serverLoop] of its writer; when
    the loop is left the lambda ends with [delete writer;
    ftpWriters.erase(writer->address)]. *)
Definition do_trip (m : machine) (i : nat) : process :=
  match hosting m !! i with
  | None => Running m
  | Some (p, asleep) =>
      let s := server m in
      match heap s !! p with
      | None => Crashed "deleted writer"
      | Some w =>
          let round : trip :=
            if (asleep : bool) then serverLoop_resume (S i) w (disk m)
            else serverLoop_trip (S i) w (disk m) in
          match round with
          | Again w' fs' =>
              Running {| server := set_heap (<[p := w']> (heap s)) s; disk := fs';
                         hosting := <[i := (p, false)]> (hosting m);
                         stalled := stalled m |}
          | Parked w' =>
              Running {| server := set_heap (<[p := w']> (heap s)) s; disk := disk m;
                         hosting := <[i := (p, true)]> (hosting m);
                         stalled := stalled m |}
          | Left w' =>
              Running {| server :=
                           {| dpc := dpc s; connected := connected s; pool := pool s;
                              fw := fw s; ftpWriters := delete (address w') (ftpWriters s);
                              heap := delete p (heap s); next := next s |};
                         disk := disk m; hosting := delete i (hosting m);
                         stalled := stalled m |}
          | Exits status cerr => Exited status cerr
          | Overreads => Derailed "status read past the end of the message"
          end
      end
  end.

(** The workers of [early] run [runPendingTask], one after the other. *)
Definition do_takes (pr : process) (early : list nat) : process :=
  foldl (λ pr i, match pr with Running m => do_take m i | _ => pr end) pr early.

(** The dispatcher calls [listen] and the workers of [early] come in
    between [pool->submit] and the store.  A datagram of another size
    than the header does not get there, and the call is [listen]. *)
Definition do_hail (m : machine) (stack : PDU) (rx : option datagram)
    (early : list nat) : process * list event :=
  match stalled m with
  | Some _ => (Running m, [])
  | None =>
      let buffer := repeat Byte.x00 (Z.to_nat MAX_DGRAM_SZ) in
      let '(rcvSz, c, buffer) := recvRaw (dpc (server m)) buffer MAX_DGRAM_SZ rx in
      let c := set_buffer buffer c in
      let address := inet_ntoa (sin_addr (addr (outSockAddr c))) in
      if Int.to_size_t rcvSz =? sizeof_PDU then
        let '(s1, log) := listen_submit (server m) c address stack in
        match do_takes (Running {| server := s1; disk := disk m;
                                   hosting := hosting m; stalled := None |}) early with
        | Running m1 =>
            match listen_store (server m1) address with
            | Some s2 =>
                (Running {| server := s2; disk := disk m1; hosting := hosting m1;
                            stalled := stalled m1 |}, log)
            | None => (Derailed "back() of an empty vector", log)
            end
        | other => (other, log)
        end
      else do_listen m stack rx
  end.

(** One move of the process, with what the dispatcher logs. *)
Definition advance_process (pr : process) (mv : move) : process * list event :=
  match pr with
  | Running m =>
      match mv with
      | Datagram stack rx => do_listen m stack rx
      | Retry => (do_retry m, [])
      | Take i => (do_take m i, [])
      | Trip i => (do_trip m i, [])
      | Hail stack rx early => do_hail m stack rx early
      end
  | Exited _ _ | Crashed _ | Derailed _ => (pr, [])
  end.

Fixpoint play (pr : process) (mvs : list move) : process * list event :=
  match mvs with
  | [] => (pr, [])
  | mv :: rest =>
      let '(pr', log) := advance_process pr mv in
      let '(pr'', log') := play pr' rest in
      (pr'', log ++ log')
  end.


(** [FTPServer::FTPServer] on a machine with [n] hardware threads, the
    socket bound; [junk] is what the uninitialised parts of the
    connection hold. *)
Definition FTPServer_new (n : nat) (sock : Z) (junk : Connection) : FTPServer :=
  {| dpc :=
       {| udpSock := sock; seqNum := 0; Conn.connected := false; dbgMode := 1;
          outSockAddr :=
            {| len := 16; isAddrInit := isAddrInit (outSockAddr junk);
               addr := addr (outSockAddr junk) |};
          inSockAddr :=
            {| len := len (inSockAddr junk); isAddrInit := true;
               addr := addr (inSockAddr junk) |};
          seqNums := ∅; _buffer := _buffer junk |};
     connected := 0;
     pool := Pool.ThreadPool_new n;
     fw := []; ftpWriters := ∅; heap := ∅; next := 1%nat |}.

End Process.

End Server.

(** ** The client ([client.cpp]) *)

Module Client.
Import Wire Conn Server.

(** [sizeof(sBuff)]: [sizeof(FTP_PDU) + 500]. *)
Definition sizeof_sBuff : Z := sizeof_FTP_PDU + 500.

(** [FTPClient::FTPClient(filePath, addr, port)], the call of [socket]
    returning [sock]: the address of the server goes to [outSockAddr]
    and is copied to [inSockAddr]; [junk] is what the parts of the
    connection that nobody initialises hold. *)
Definition FTPClient_new (sock : Z) (svr : in_addr) (port : Z) (junk : Connection)
    : Connection :=
  let out :=
    {| len := 16; isAddrInit := true;
       addr := {| sin_family := 2; sin_port := port; sin_addr := svr |} |} in
  {| udpSock := sock; seqNum := 0; Conn.connected := false; dbgMode := 1;
     outSockAddr := out; inSockAddr := out; seqNums := ∅; _buffer := _buffer junk |}.

(** The object representation of the local [FTP_PDU pdu] after
    [strcpy(pdu.fileName, name)]: the name and its NUL at the start of
    [fileName[100]], the rest of the array as it was ([garbage], never
    initialised), then [proto_ver = 1], [status] and [err = NONE]. *)
Definition FTP_PDU_bytes (garbage name : list byte) (status : Z) : list byte :=
  write_at 0 (c_str name ++ [Byte.x00]) garbage
    ++ le_split 4 1 ++ le_split 4 status ++ le_split 4 0.

(** How a call of [start] ends: it returns, it sits in a [recvfrom]
    with nothing left to read, it exits the process, or the source runs
    into undefined behaviour. *)
Inductive started :=
| Done (c : Connection) (log : list Conn.event)
| Stuck (c : Connection) (log : list Conn.event)
| Gone (status : Z)
| Astray.

Section Client.
Context `{Kernel}.

(** After the loops: [fclose(f); dpc->disconnect()], the result of
    which is dropped. *)
Definition finish (c : Connection) (log : list Conn.event) (rxs : list (option datagram))
    : started :=
  match rxs with
  | rx :: _ =>
      match disconnect c rx with
      | Sent _ c' sent => Done c' (log ++ sent)
      | Undefined => Astray
      end
  | [] =>
      match disconnect c None with
      | Sent _ c' sent =>
          let pdu :=
            {| proto_ver := 1; mtype := MsgType.CLOSE; seqnum := Int.to_int32 (seqNum c);
               dgram_sz := 0; err_num := 0 |} in
          if Int.to_size_t (fst (sendRaw c (PDU_bytes pdu) sizeof_PDU)) =? sizeof_PDU
          then Stuck c' (log ++ sent)
          else Done c' (log ++ sent)
      | Undefined => Astray
      end
  end.

(** The two loops of [start] on an endpoint whose peer address is
    set, one call of [sendDgram] per step.  [remaining = 0] is the
    head of the outer loop, where [fread] takes up to 500 bytes of
    what is left of the file into [sBuff + pduSize]; otherwise the
    step starts at the head of the inner loop.  [dataPtr] is an offset
    into [sBuff].  [rxs] lists what the [recvfrom] of each call
    finds. *)
Fixpoint loops (rxs : list (option datagram)) (c : Connection) (sBuff : list byte)
    (garbage name : list byte) (status : Z) (file : list byte)
    (remaining dataPtr : Z) (log : list Conn.event) : started :=
  let at_head := remaining =? 0 in
  let chunk := take 500 file in
  if at_head && (Z.of_nat (length chunk) =? 0) then finish c log rxs
  else
    let sBuff :=
      if at_head then write_at (Z.to_nat sizeof_FTP_PDU) chunk sBuff else sBuff in
    let file := if at_head then drop 500 file else file in
    let remaining := if at_head then Z.of_nat (length chunk) else remaining in
    let dataPtr := if at_head then sizeof_FTP_PDU else dataPtr in
    let sBuff := write_at 0 (FTP_PDU_bytes garbage name status) sBuff in
    let sendSize := Int.to_int32 (Int.to_size_t (remaining + sizeof_FTP_PDU)) in
    match rxs with
    | [] =>
        match sendDgram c sBuff sendSize None with
        | Sent _ c' sent => Stuck c' (log ++ sent)
        | Undefined => Astray
        end
    | rx :: rxs' =>
        match sendDgram c sBuff sendSize rx with
        | Undefined => Astray
        | Sent sndSz c' sent =>
            if sndSz <? sizeof_FTP_PDU then
              loops rxs' c' sBuff garbage name status file 0 dataPtr (log ++ sent)
            else
              let remaining' :=
                Int.to_size_t (remaining - (sndSz - sizeof_FTP_PDU)) in
              let dataPtr' := dataPtr + (sndSz - sizeof_FTP_PDU) in
              if remaining' >? 0 then
                if sizeof_sBuff <? dataPtr' + remaining' then Astray
                else
                  loops rxs' c'
                    (write_at (Z.to_nat sizeof_FTP_PDU)
                       (take (Z.to_nat remaining') (drop (Z.to_nat dataPtr') sBuff))
                       sBuff)
                    garbage name Status.APPEND file remaining' dataPtr' (log ++ sent)
              else
                loops rxs' c' sBuff garbage name status file 0 dataPtr' (log ++ sent)
        end
    end.

(** [FTPClient::start].  [file] is what [fopen(filePath, "rb")] leads
    to, [name] the file name of the path, [garbage] the 100 bytes the
    uninitialised [pdu.fileName] holds; the static [sBuff] starts
    zeroed. *)
Definition start (c : Connection) (file : option (list byte))
    (garbage name : list byte) (rxs : list (option datagram)) : started :=
  if negb (Conn.connected c) then Done c []
  else
    match file with
    | None => Gone (-1)
    | Some bytes =>
        if 100 <=? Z.of_nat (length (c_str name)) then Astray
        else if negb (isAddrInit (outSockAddr c)) then Done c []
        else
          loops rxs c (repeat Byte.x00 (Z.to_nat sizeof_sBuff)) garbage name
            Status.NEW bytes 0 sizeof_FTP_PDU []
    end.

End Client.

End Client.

(** ** The notions the properties are stated with *)

Module ChannelNotions.
Import Channel.

Section Notions.
Context {X : Type}.
Implicit Types (s : system X) (a : action X) (c : bufferedChannel X).



(** Every way a step can go, told by its effect on the queue. *)
Inductive effect s : system X → Prop :=
| Pushed t v c :
    size (chan s) < Int.to_size_t (maxSize (chan s)) →
    buffer c = buffer (chan s) ++ [v] → maxSize c = maxSize (chan s) →
    open c = open (chan s) →
    effect s {| chan := c; waiting := delete t (waiting s);
                sent := sent s ++ [v]; received := received s |}
| Popped t data rest c :
    buffer (chan s) = data :: rest →
    buffer c = rest → maxSize c = maxSize (chan s) → open c = open (chan s) →
    effect s {| chan := c; waiting := delete t (waiting s);
                sent := sent s; received := received s ++ [data] |}
| Stayed c w :
    buffer c = buffer (chan s) → maxSize c = maxSize (chan s) →
    (open c = open (chan s) ∨ open c = false) →
    effect s {| chan := c; waiting := w; sent := sent s; received := received s |}.



End Notions.
End ChannelNotions.

Module PoolNotions.

(** The deque a worker with index [m] tries on trip [i] of the loop of
    [popOtherThreads], in a pool of [n] deques. *)
Definition victim (m : Z) (n : nat) (i : nat) : nat :=
  Z.to_nat ((m + Z.of_nat i + 1) mod Z.of_nat n).

(** The deques tried on the trips [i], [i+1], ..., [i+k-1]. *)
Definition victims (m : Z) (n : nat) (i k : nat) : list nat :=
  map (victim m n) (seq i k).

Section Load.
Context {T : Type}.

(** The tasks a list of deques holds, and the tasks a pool holds. *)
Definition tasks_in (qs : list (Pool.WorkStealQueue T)) : nat :=
foldr (λ q n, (length q + n)%nat) 0%nat qs.

Definition load (p : Pool.ThreadPool T) : nat :=
(length (Pool.workQueue p) + tasks_in (Pool.queues p))%nat.

End Load.

End PoolNotions.

Module ConnNotions.
Import Wire Conn.

(** The datagrams a log puts on the wire, oldest first. *)
Definition wire (log : list event) : list (list byte) :=
  flat_map (λ e, match e with Sendto _ bytes => [bytes] | SockClose => [] end) log.

(** What follows the header in a frame. *)
Definition payload (frame : list byte) : list byte :=
  drop (Z.to_nat sizeof_PDU) frame.

(** [frames] carry the bytes [bs], in order, for a sender whose counter
    stands at [seq]: every frame takes what is left, up to
    [MAX_BUFF_SZ] bytes; it is a [SENDFRAGMENT] while more is left
    after it and a [SND] at the end, with the size of its payload in
    [dgram_sz] and the counter in [seqnum]. *)
Fixpoint framing (seq : Z) (bs : list byte) (frames : list (list byte)) : Prop :=
  match frames with
  | [] => bs = []
  | frame :: rest =>
      let p := PDU_of_bytes frame in
      let sz := Z.min (Z.of_nat (length bs)) MAX_BUFF_SZ in
      bs ≠ [] ∧
      mtype p =
        (if Z.of_nat (length bs) <=? MAX_BUFF_SZ then MsgType.SND
         else MsgType.SENDFRAGMENT) ∧
      seqnum p = Int.to_int32 seq ∧
      dgram_sz p = sz ∧
      payload frame = take (Z.to_nat sz) bs ∧
      framing (Int.to_uint32 (seq + sz)) (drop (Z.to_nat sz) bs) rest
  end.

(** Every datagram of [rxs] comes from [a]. *)
Definition all_from (a : sockaddr_in) (rxs : list (option datagram)) : Prop :=
  Forall (λ rx, match rx with Some d => src d = a | None => True end) rxs.

(** An endpoint that can send to [peer]: the address is set, the
    counter is in the range of its type, [_buffer] has its size. *)
Definition ready (peer : sockaddr_in) (c : Connection) : Prop :=
  isAddrInit (outSockAddr c) = true ∧ addr (outSockAddr c) = peer ∧
  0 <= seqNum c < 2 ^ 32 ∧ length (_buffer c) = Z.to_nat MAX_DGRAM_SZ.

End ConnNotions.

Module ServerNotions.
Import Wire Conn Server.

(** The acknowledgement the dispatcher owes a datagram of [rcvSz] bytes
    whose first bytes read as [inPdu]: its [mtype], or [None] for a
    frame that is answered by nothing. *)
Definition reply_mtype (rcvSz : Z) (inPdu : PDU) : option Z :=
  if rcvSz =? sizeof_PDU then Some MsgType.CNTACK
  else if negb (classify rcvSz inPdu MAX_DGRAM_SZ =? NO_ERROR) then Some MsgType.ERROR
  else if Z.land (mtype inPdu) MsgType.FRAGMENT =? MsgType.FRAGMENT
    then Some MsgType.SENDFRAGMENTACK
  else if mtype inPdu =? MsgType.SND then Some MsgType.SNDACK
  else if mtype inPdu =? MsgType.CLOSE then Some MsgType.CLOSEACK
  else None.

(** The same for [recvDgram] and a frame that passes both validations. *)
Definition ack_mtype (inPdu : PDU) : option Z :=
  if Z.land (mtype inPdu) MsgType.FRAGMENT =? MsgType.FRAGMENT
    then Some MsgType.SENDFRAGMENTACK
  else if mtype inPdu =? MsgType.SND then Some MsgType.SNDACK
  else if mtype inPdu =? MsgType.CLOSE then Some MsgType.CLOSEACK
  else None.

Definition is_net (e : event) : bool :=
  match e with Net _ => true | _ => false end.

Definition is_sendto (e : Conn.event) : bool :=
  match e with Sendto _ _ => true | SockClose => false end.

(** The buffer of the dispatcher after a datagram. *)
Definition landed (d : datagram) : list byte :=
  write_at 0 (take (Z.to_nat MAX_DGRAM_SZ) (data d))
    (repeat Byte.x00 (Z.to_nat MAX_DGRAM_SZ)).

Definition arrived (d : datagram) : Z :=
  Z.of_nat (length (take (Z.to_nat MAX_DGRAM_SZ) (data d))).

(** What a frame adds to a sequence counter: [dgram_sz] for a frame that
    passes the validations and carries payload, 1 otherwise. *)
Definition step_of (errCode sz : Z) : Z :=
  if errCode =? NO_ERROR then (if sz =? 0 then 1 else sz) else 1.

Definition frame_step (d : datagram) : Z :=
  let inPdu := PDU_of_bytes (landed d) in
  step_of (classify (arrived d) inPdu MAX_DGRAM_SZ) (dgram_sz inPdu).

(** The key both maps of the dispatcher use for a datagram. *)
Definition peerKey (d : datagram) : string := inet_ntoa (sin_addr (src d)).

(** What the dispatcher keeps between two calls, the address it last
    heard from left out. *)
Definition tables (s : FTPServer) :=
  (ftpWriters s, heap s, seqNums (dpc s), fw s, pool s, next s, connected s,
   _buffer (dpc s)).

(** The disk after a writer has handled the messages, oldest first. *)
Definition written (fs : filesystem) (msgs : list (list byte)) : filesystem :=
  foldl (λ fs buff,
           write_file (fileName buff) (status buff =? Status.NEW)
             (drop (Z.to_nat sizeof_FTP_PDU) buff) fs) fs msgs.

(** What the dispatcher hands to the writer for a datagram: the bytes
    after the header, of the part that fits its buffer. *)
Definition carried (d : datagram) : list byte :=
  drop (Z.to_nat sizeof_PDU) (take (Z.to_nat MAX_DGRAM_SZ) (data d)).

Section Heard.
Context `{Kernel}.

(** The datagram the dispatcher reads in a move: that of a call of
    [listen] it makes while the process runs and it is not parked in a
    [send]. *)
Definition read (pr : process) (mv : move) : option datagram :=
  match pr, mv with
  | Running m, Datagram _ rx | Running m, Hail _ rx _ =>
      match stalled m with Some _ => None | None => rx end
  | _, _ => None
  end.

(** The datagrams the dispatcher reads in the course of a schedule,
    oldest first. *)
Fixpoint heard (pr : process) (mvs : list move) : list datagram :=
  match mvs with
  | [] => []
  | mv :: rest => option_list (read pr mv) ++ heard (advance_process pr mv).1 rest
  end.

End Heard.

(** A schedule: each datagram is followed by one trip of worker [i]. *)
Definition rounds (stack : PDU) (i : nat) (ds : list datagram) : list move :=
  flat_map (λ d, [Datagram stack (Some d); Trip i]) ds.

(** The host [key] is being served: its writer [p] runs on worker [i],
    the channel between the dispatcher and the writer is open and
    empty, and the dispatcher is not parked. *)
Definition serving (key : string) (p : ptr) (i : nat) (m : machine) : Prop :=
  stalled m = None ∧
  isAddrInit (inSockAddr (dpc (server m))) = true ∧
  ftpWriters (server m) !! key = Some p ∧
  (∃ asleep, hosting m !! i = Some (p, asleep)) ∧
  ∃ w, heap (server m) !! p = Some w ∧
       Channel.open (stream w) = true ∧ Channel.buffer (stream w) = [] ∧
       0 < Int.to_size_t (Channel.maxSize (stream w)).

End ServerNotions.

Module ClientNotions.
Import Wire Conn Server Client.

(** [msgs] carry a file of content [bs]: every message is the header
    [hdr] of its status followed by a piece of the file, of 1 to 400
    bytes; the pieces, in order, make up [bs]; the first message has the
    status [st] and the ones after it APPEND. *)
Fixpoint conveys (hdr : Z -> list byte) (st : Z) (bs : list byte)
    (msgs : list (list byte)) : Prop :=
  match msgs with
  | [] => bs = []
  | m :: rest =>
      ∃ piece,
        piece ≠ [] ∧ (length piece <= 400)%nat ∧
        m = hdr st ++ piece ∧ take (length piece) bs = piece ∧
        conveys hdr Status.APPEND (drop (length piece) bs) rest
  end.

(** The data frames of [start]: a SND or a SENDFRAGMENT, longer than
    the two headers and within the size of a datagram. *)
Definition data_frame (f : list byte) : Prop :=
  (mtype (PDU_of_bytes f) = MsgType.SND ∨ mtype (PDU_of_bytes f) = MsgType.SENDFRAGMENT) ∧
  (Z.to_nat (sizeof_PDU + sizeof_FTP_PDU) < length f <= Z.to_nat MAX_DGRAM_SZ)%nat.

End ClientNotions.

(** ** A small installation, for the examples *)

Module Sample.
Import Wire Conn Server.

(** A peer at 10.0.0.1, and a second program on the same host. *)
Definition host : in_addr := mk_in_addr Byte.x0a Byte.x00 Byte.x00 Byte.x01.
Definition peer : sockaddr_in :=
  {| sin_family := 2; sin_port := 40000; sin_addr := host |}.
Definition neighbour : sockaddr_in :=
  {| sin_family := 2; sin_port := 40001; sin_addr := host |}.

Definition zeros : list byte := repeat Byte.x00 (Z.to_nat MAX_DGRAM_SZ).

(** A bound endpoint that has not heard from anybody. *)
Definition endpoint : Connection :=
  {| udpSock := 3; seqNum := 0; Conn.connected := false; dbgMode := 1;
     outSockAddr := {| len := 16; isAddrInit := false; addr := peer |};
     inSockAddr := {| len := 16; isAddrInit := true; addr := peer |};
     seqNums := ∅; _buffer := zeros |}.

(** The address the server is bound to, and the endpoint of a sender
    that has connected to it. *)
Definition station : sockaddr_in :=
  {| sin_family := 2; sin_port := 2080;
     sin_addr := mk_in_addr Byte.x0a Byte.x00 Byte.x00 Byte.x02 |}.

Definition client : Connection :=
  {| udpSock := 4; seqNum := 1; Conn.connected := true; dbgMode := 1;
     outSockAddr := {| len := 16; isAddrInit := true; addr := station |};
     inSockAddr := {| len := 16; isAddrInit := true; addr := station |};
     seqNums := ∅; _buffer := zeros |}.

Definition server0 : FTPServer := FTPServer_new 2 3 endpoint.

Definition junk : PDU :=
  {| proto_ver := 1; mtype := 0; seqnum := 0; dgram_sz := 0; err_num := 0 |}.

(** The frames of the sender: what [connect] and [disconnect] put on the
    wire, and frames with four bytes of payload. *)
Definition connect_frame : list byte :=
  PDU_bytes {| proto_ver := 0; mtype := MsgType.CONNECT; seqnum := 0;
               dgram_sz := 0; err_num := 0 |}.
Definition close_frame : list byte :=
  PDU_bytes {| proto_ver := 1; mtype := MsgType.CLOSE; seqnum := 1;
               dgram_sz := 0; err_num := 0 |}.
Definition frame (mt sz : Z) (payload : list byte) : list byte :=
  PDU_bytes {| proto_ver := 1; mtype := mt; seqnum := 1; dgram_sz := sz;
               err_num := 0 |} ++ payload.
Definition abcd : list byte := [Byte.x61; Byte.x62; Byte.x63; Byte.x64].
Definition efgh : list byte := [Byte.x65; Byte.x66; Byte.x67; Byte.x68].

(** A frame cut off after sixteen bytes, 10000 in its [dgram_sz]. *)
Definition stump : list byte :=
  take 16 (frame MsgType.INI 10000 []).

(** A message for the writer: the [FTP_PDU] naming the file [x], status
    [NEW], and four bytes for the file. *)
Definition message : list byte :=
  [Byte.x78] ++ repeat Byte.x00 99 ++ le_split 4 1 ++ le_split 4 Status.NEW
    ++ le_split 4 0 ++ abcd.

(** The acknowledgement of type [mt] with [seq] in its [seqnum]. *)
Definition ack (mt seq : Z) : list byte :=
  PDU_bytes {| proto_ver := 1; mtype := mt; seqnum := seq; dgram_sz := 0; err_num := 0 |}.

Definition from (a : sockaddr_in) (bytes : list byte) : datagram :=
  {| src := a; data := bytes |}.

(** The server once [peer] has connected. *)
Definition active : FTPServer :=
  ls_server (listen (H := healthy) server0 junk (Some (from peer connect_frame))).

(** A disk that refuses the name [x]. *)
Definition picky : filesystem :=
  {| files := ∅; refuses := λ name, String.eqb name "x" |}.

Definition boot (fs : filesystem) : machine :=
  {| server := server0; disk := fs; hosting := ∅; stalled := None |}.

(** [peer] connects, worker 0 takes the writer's task, and a frame with
    [message] arrives. *)
Definition prologue : list move :=
  [Datagram junk (Some (from peer connect_frame)); Take 0;
   Datagram junk (Some (from peer (frame MsgType.SND 116 message)))].

Definition alive (pr : process) : bool :=
  match pr with Running _ => true | _ => false end.

Definition loaded : machine :=
  match fst (play (H := healthy) (Running (boot picky)) prologue) with
  | Running m => m
  | _ => boot picky
  end.

(** A disk that takes every name. *)
Definition roomy : filesystem := {| files := ∅; refuses := λ _, false |}.

(** The server after [peer] has connected and worker 0 has taken the
    writer's task, on a disk that takes every name. *)
Definition hosted : machine :=
  match fst (play (H := healthy) (Running (boot roomy))
               [Datagram junk (Some (from peer connect_frame)); Take 0]) with
  | Running m => m
  | _ => boot roomy
  end.

End Sample.

Module Fixtures.
Import Wire Conn Server Client Sample.

(** A kernel whose [sendto] always fails. *)
Definition deaf : Kernel := {| sendto := λ _ _ _, -1 |}.

(** A message for the writer: the [FTP_PDU] naming the file [x] with
    the status [st], and the bytes [piece] for the file. *)
Definition note (st : Z) (piece : list byte) : list byte :=
  [Byte.x78] ++ repeat Byte.x00 99 ++ le_split 4 1 ++ le_split 4 st ++ le_split 4 0
    ++ piece.

(** A writer whose channel has been closed with two messages in it. *)
Definition drained : FTPFileWriter :=
  {| closed := false;
     stream :=
       {| Channel.open := false;
          Channel.buffer := [note Status.NEW abcd; note Status.APPEND efgh];
          Channel.maxSize := 20; Channel.sender := []; Channel.receiver := [] |};
     address := "10.0.0.1" |}.

(** 600 bytes to send, and a buffer to receive them in. *)
Definition letters : list byte := repeat Byte.x61 600.
Definition blank : list byte := repeat Byte.x00 700.

(** The frames [send] makes of [letters] for [client]. *)
Definition letter_frames : list (list byte) :=
  [PDU_bytes {| proto_ver := 0; mtype := MsgType.SENDFRAGMENT; seqnum := 1;
                dgram_sz := 512; err_num := 0 |} ++ repeat Byte.x61 512;
   PDU_bytes {| proto_ver := 0; mtype := MsgType.SND; seqnum := 513;
                dgram_sz := 88; err_num := 0 |} ++ repeat Byte.x61 88].

(** The same with the channel of the writer filled by twenty
    messages. *)
Definition crowded : machine :=
  match fst (play (H := healthy) (Running hosted)
               (repeat (Datagram junk
                          (Some (from peer (frame MsgType.SND 116 (note Status.APPEND abcd)))))
                  20)) with
  | Running m => m
  | _ => hosted
  end.

(** The writer of [peer] in [crowded]. *)
Definition busy : FTPFileWriter :=
  default (FTPFileWriter_new "") (heap (server crowded) !! 1%nat).

(** The file the client sends, its name, and what the uninitialised
    [fileName] holds. *)
Definition essay : list byte := repeat Byte.x61 450.
Definition title : list byte := [Byte.x78].
Definition litter : list byte := repeat Byte.xff 100.

End Fixtures.

(** * Properties *)

(** ** Machine integers and the frame *)

Module IntFacts.
Import Int.

Lemma to_int32_id z : - 2 ^ 31 <= z < 2 ^ 31 → to_int32 z = z.
Proof. intros H. unfold to_int32. rewrite Z.mod_small; lia. Qed.

Lemma to_uint32_id z : 0 <= z < 2 ^ 32 → to_uint32 z = z.
Proof. intros H. unfold to_uint32. rewrite Z.mod_small; lia. Qed.

Lemma to_size_t_id z : 0 <= z < 2 ^ 64 → to_size_t z = z.
Proof. intros H. unfold to_size_t. rewrite Z.mod_small; lia. Qed.

Lemma to_uint32_range z : 0 <= to_uint32 z < 2 ^ 32.
Proof. unfold to_uint32. apply Z.mod_pos_bound. lia. Qed.

Lemma to_uint32_add_l a b : to_uint32 (to_uint32 a + b) = to_uint32 (a + b).
Proof. unfold to_uint32. apply Zplus_mod_idemp_l. Qed.

(** An [int] stored and read back: bits 0..31 of [z], as a signed number. *)
Lemma to_int32_mod z : to_int32 (z mod 2 ^ 32) = to_int32 z.
Proof.
  unfold to_int32. f_equal.
  rewrite <- (Zplus_mod_idemp_l z). done.
Qed.

End IntFacts.

Module WireFacts.
Import Wire IntFacts.

Lemma int_at_split (pre post : list byte) (z : Z) (off : nat) :
  length pre = off → int_at off (pre ++ le_split 4 z ++ post) = Int.to_int32 z.
Proof.
  intros <-. unfold int_at. rewrite drop_app_length.
  rewrite take_app_length' by (symmetry; apply length_le_split).
  rewrite le_combine_split. apply to_int32_mod.
Qed.

(** Reading back the representation of a [PDU], whatever follows it. *)
Lemma PDU_of_bytes_PDU_bytes (p : PDU) (rest : list byte) :
  PDU_of_bytes (PDU_bytes p ++ rest) =
    {| proto_ver := Int.to_int32 (proto_ver p); mtype := Int.to_int32 (mtype p);
       seqnum := Int.to_int32 (seqnum p); dgram_sz := Int.to_int32 (dgram_sz p);
       err_num := Int.to_int32 (err_num p) |}.
Proof.
  unfold PDU_of_bytes, PDU_bytes.
  set (a := le_split 4 (proto_ver p)). set (b := le_split 4 (mtype p)).
  set (c := le_split 4 (seqnum p)). set (d := le_split 4 (dgram_sz p)).
  f_equal.
  - rewrite <- !app_assoc. apply (int_at_split []). done.
  - rewrite <- !app_assoc. apply (int_at_split a). done.
  - rewrite <- !app_assoc. rewrite (app_assoc a b). apply int_at_split. done.
  - rewrite <- !app_assoc. rewrite (app_assoc a b), (app_assoc (a ++ b) c).
    apply int_at_split. done.
  - rewrite <- !app_assoc.
    rewrite (app_assoc a b), (app_assoc (a ++ b) c), (app_assoc ((a ++ b) ++ c) d).
    apply int_at_split. done.
Qed.

Lemma length_PDU_bytes p : length (PDU_bytes p) = 20%nat.
Proof. done. Qed.

Lemma write_at_length off src buff :
  (off + length src <= length buff)%nat →
  length (write_at off src buff) = length buff.
Proof.
  intros H. unfold write_at. rewrite !length_app, length_take, length_drop. lia.
Qed.

Lemma write_at_app_l pre off src buff :
  write_at (length pre + off) src (pre ++ buff) = pre ++ write_at off src buff.
Proof.
  unfold write_at. rewrite take_app_add, <- Nat.add_assoc, drop_app_add.
  by rewrite <- app_assoc.
Qed.

Lemma write_at_0 src old buff :
  length src = length old → write_at 0 src (old ++ buff) = src ++ buff.
Proof.
  intros H. unfold write_at. simpl. rewrite H. by rewrite drop_app_length.
Qed.

End WireFacts.

(** ** The channel *)

Module ChannelFacts.
Import Channel ChannelNotions.

Section Facts.
Context {X : Type}.
Implicit Types (s : system X) (a : action X) (c : bufferedChannel X).


Lemma send_wait_cases t v c :
  (size c < Int.to_size_t (maxSize c) ∧
   send_wait t v c =
     Returns tt {| open := open c; buffer := buffer c ++ [v]; maxSize := maxSize c;
                   sender := sender c; receiver := notify_one (receiver c) |}) ∨
  (Int.to_size_t (maxSize c) <= size c ∧
   send_wait t v c =
     Waits {| open := open c; buffer := buffer c; maxSize := maxSize c;
              sender := sender c ++ [t]; receiver := receiver c |}).
Proof.
  unfold send_wait. destruct (Z.ltb_spec (size c) (Int.to_size_t (maxSize c))); auto.
Qed.

Lemma receive_wait_cases t c :
  (∃ data rest, buffer c = data :: rest ∧
     receive_wait t c =
       Returns data {| open := open c; buffer := rest; maxSize := maxSize c;
                       sender := notify_one (sender c); receiver := receiver c |}) ∨
  (buffer c = [] ∧ open c = false ∧
     receive_wait t c = Throws "Receive on Closed Channel." c) ∨
  (buffer c = [] ∧ open c = true ∧
     receive_wait t c =
       Waits {| open := open c; buffer := buffer c; maxSize := maxSize c;
                sender := sender c; receiver := receiver c ++ [t] |}).
Proof.
  unfold receive_wait, size. destruct (buffer c) as [|data rest] eqn:Hb.
  - right. destruct (open c); simpl; auto.
  - left. exists data, rest. split; [done|].
    replace (0 <? Z.of_nat (length (data :: rest))) with true
      by (symmetry; apply Z.ltb_lt; simpl; lia).
    replace (Z.of_nat (length (data :: rest)) =? 0) with false
      by (symmetry; apply Z.eqb_neq; simpl; lia).
    simpl. by rewrite andb_false_r.
Qed.

Lemma receive_cases t c :
  receive t c = receive_wait t c.
Proof.
  unfold receive. destruct (negb (open c) && (size c =? 0)) eqn:E; [|done].
  apply andb_true_iff in E as [Ho Hs]. apply negb_true_iff in Ho.
  apply Z.eqb_eq in Hs. unfold size in Hs.
  destruct (buffer c) eqn:Hb; [|simpl in Hs; lia].
  destruct (receive_wait_cases t c) as [(d & r & Hd & _)|[(_ & _ & ->)|(_ & Ho' & _)]];
    congruence.
Qed.

Lemma stayed_refl s : effect s s.
Proof.
  destruct s as [c w st rc].
  by apply (Stayed {| chan := c; waiting := w; sent := st; received := rc |} c w); auto.
Qed.

Lemma step_effect s a : effect s (step s a).
Proof.
  destruct a as [t v|t|t|]; simpl.
  - destruct (waiting s !! t); [apply stayed_refl|].
    unfold send. destruct (open (chan s)) eqn:Ho; simpl.
    + destruct (send_wait_cases t v (chan s)) as [[Hlt ->]|[Hge ->]]; simpl.
      * by apply Pushed.
      * by apply Stayed; auto.
    + apply Stayed; auto.
  - destruct (waiting s !! t); [apply stayed_refl|].
    rewrite receive_cases.
    destruct (receive_wait_cases t (chan s))
      as [(d & r & Hd & ->)|[(Hb & Ho & ->)|(Hb & Ho & ->)]]; simpl.
    + by eapply Popped.
    + apply Stayed; auto.
    + apply Stayed; auto.
  - destruct (waiting s !! t) as [[v|]|]; [| |apply stayed_refl].
    + destruct (send_wait_cases t v (leave_sender t (chan s))) as [[Hlt ->]|[Hge ->]];
        simpl.
      * by apply Pushed.
      * by apply Stayed; auto.
    + destruct (receive_wait_cases t (leave_receiver t (chan s)))
        as [(d & r & Hd & ->)|[(Hb & Ho & ->)|(Hb & Ho & ->)]]; simpl.
      * by eapply Popped.
      * apply Stayed; auto.
      * apply Stayed; auto.
  - apply Stayed; auto.
Qed.















Lemma closed_stays_closed s a : open (chan s) = false → open (chan (step s a)) = false.
Proof.
  intros Ho. destruct (step_effect s a) as [? ? ? _ _ _ E|? ? ? ? _ _ _ E|? ? _ _ [E|E]];
    simpl; congruence.
Qed.

Lemma run_closed s acts : open (chan s) = false → open (chan (run s acts)) = false.
Proof.
  revert s. induction acts as [|a acts IH]; intros s Hs; [done|].
  simpl. by apply IH, closed_stays_closed.
Qed.

Lemma isClosed_iff c : isClosed c = true ↔ open c = false ∧ buffer c = [].
Proof.
  unfold isClosed, size. rewrite andb_true_iff, negb_true_iff, Z.eqb_eq.
  destruct (buffer c); simpl; split; intros [? ?]; split; try done; lia.
Qed.



(** C5, amended. [close()] notifies every parked receiver: each of
    them leaves its wait when it runs, with the front value if one is
    buffered and with the exception of a closed channel if not.  The
    parked senders are not notified: one that was waiting for a
    notification still is, and one that wakes all the same parks again
    while the buffer is full.  From then on the channel stays closed,
    so a [send] called later throws, a [receive] called later hands
    out the front value while one is buffered and throws on the empty
    buffer; [isClosed()] is true exactly when the channel is closed
    and its buffer is empty. *)
Theorem close_wakes_receivers_then_drains (s : system X) (acts : list (action X))
    (t : tid) (value : X) :
  let s0 := step s Close in
  (∀ r, waiting s !! r = Some ParkedReceive →
     notified s0 r = true ∧
     let s' := step_notified s0 (Resume r) in
     waiting s' !! r = None ∧
     match buffer (chan s) with
     | data :: rest => received s' = received s ++ [data] ∧ buffer (chan s') = rest
     | [] =>
         received s' = received s ∧
         receive_wait r (chan s0) = Throws "Receive on Closed Channel." (chan s0)
     end) ∧
  (∀ u v, waiting s !! u = Some (ParkedSend v) →
     waiting s0 !! u = Some (ParkedSend v) ∧
     notified s0 u = notified s u ∧
     (notified s u = false → step_notified s0 (Resume u) = s0) ∧
     (Int.to_size_t (maxSize (chan s)) <= size (chan s) →
      waiting (step s0 (Resume u)) !! u = Some (ParkedSend v) ∧
      buffer (chan (step s0 (Resume u))) = buffer (chan s))) ∧
  sender (chan s0) = sender (chan s) ∧
  buffer (chan s0) = buffer (chan s) ∧
  let s1 := run s0 acts in
  open (chan s1) = false ∧
  send t value (chan s1) = Throws "Receive on Closed Channel." (chan s1) ∧
  match buffer (chan s1) with
  | data :: rest =>
      ∃ c, receive t (chan s1) = Returns data c ∧ buffer c = rest ∧ open c = false
  | [] => receive t (chan s1) = Throws "Receive on Closed Channel." (chan s1)
  end ∧
  ∀ c : bufferedChannel X, isClosed c = true ↔ open c = false ∧ buffer c = [].
Proof.
  intros s0. split; [|split].
  - intros r Hr.
    assert (Hn : notified s0 r = true).
    { unfold notified. simpl. by rewrite Hr. }
    split; [exact Hn|]. unfold step_notified. rewrite Hn. simpl. rewrite Hr.
    assert (Hleave : leave_receiver r (close (chan s)) = close (chan s)) by done.
    rewrite Hleave.
    destruct (receive_wait_cases r (close (chan s)))
      as [(d & rest & Hd & E)|[(Hb & _ & E)|(_ & Ho & _)]]; [| |done].
    + rewrite E. simpl in Hd. rewrite Hd. simpl. by rewrite lookup_delete_eq.
    + rewrite E. simpl in Hb. rewrite Hb. simpl. by rewrite lookup_delete_eq.
  - intros u v Hu. split; [done|]. split; [by unfold notified; simpl; rewrite Hu|].
    split.
    + intros Hnot. unfold step_notified.
      replace (notified s0 u) with (notified s u)
        by (unfold notified; simpl; by rewrite Hu).
      by rewrite Hnot.
    + intros Hfull. simpl. rewrite Hu.
      destruct (send_wait_cases u v (leave_sender u (close (chan s))))
        as [[Hlt _]|[_ ->]].
      * unfold size in *. simpl in Hlt. lia.
      * simpl. by rewrite lookup_insert_eq.
  - split; [done|]. split; [done|].
    intros s1. assert (Ho : open (chan s1) = false) by by apply run_closed.
    split; [done|]. split; [unfold send; by rewrite Ho|].
    split; [|apply isClosed_iff].
    rewrite receive_cases.
    destruct (receive_wait_cases t (chan s1))
      as [(d & r & Hd & ->)|[(Hb & _ & ->)|(Hb & Ho' & _)]].
    + rewrite Hd. eexists. split; [done|]. simpl. auto.
    + by rewrite Hb.
    + congruence.
Qed.

End Facts.


(** The witness of C5: a receiver parked on the empty channel leaves its
    wait after [close()]. *)
Lemma close_wakes_receivers_then_drains_witness :
  let s := run (fresh 20) [Receive 1%nat] in
  waiting s !! 1%nat = Some (ParkedReceive (X := nat)) ∧
  notified (step s Close) 1%nat = true ∧
  waiting (step_notified (step s Close) (Resume 1%nat)) !! 1%nat = None.
Proof.
  intros s.
  assert (H1 : waiting s !! 1%nat = Some ParkedReceive) by (vm_compute; reflexivity).
  split; [exact H1|].
  pose proof (close_wakes_receivers_then_drains s [] 1%nat 0%nat) as Hthm.
  cbv zeta in Hthm. destruct Hthm as (Hwake & _).
  destruct (Hwake 1%nat H1) as (Hn & Hw & _). split; [exact Hn|exact Hw].
Defined.

(** C5 as stated fails: a sender parked on a full channel is not woken by
    [close()]. *)
Lemma close_leaves_sender_parked :
  let s := run (fresh 20) (map (Send 0%nat) (seq 0 21)) in
  sender (chan s) = [0%nat] ∧
  sender (chan (step s Close)) = [0%nat] ∧
  waiting (step s Close) !! 0%nat = Some (ParkedSend 20%nat) ∧
  ¬ (sender (chan (step s Close)) = [] ∧ receiver (chan (step s Close)) = []).
Proof.
  intros s.
  assert (H1 : sender (chan s) = [0%nat]) by (vm_compute; reflexivity).
  assert (H2 : sender (chan (step s Close)) = [0%nat]) by (vm_compute; reflexivity).
  assert (H3 : waiting (step s Close) !! 0%nat = Some (ParkedSend 20%nat))
    by (vm_compute; reflexivity).
  split; [exact H1|]. split; [exact H2|]. split; [exact H3|].
  intros [H _]. rewrite H2 in H. discriminate H.
Qed.

End ChannelFacts.

(** ** The executor *)

Module PoolFacts.
Import Pool PoolNotions.

Section Facts.
Context {T : Type}.
Implicit Types (q : WorkStealQueue T) (p : ThreadPool T) (w : worker).

Lemma trySteal_None q : fst (trySteal q) = None ↔ q = [].
Proof.
  unfold trySteal. destruct (last q) eqn:E; simpl.
  - split; [done|]. intros ->. done.
  - split; [|done]. intros _. by apply last_None.
Qed.

Lemma trySteal_Some q task q' :
  trySteal q = (Some task, q') ↔ q = q' ++ [task].
Proof.
  unfold trySteal. split.
  - destruct (last q) eqn:E; [|done]. intros [= -> <-].
    apply last_Some in E as [l' ->]. by rewrite removelast_last.
  - intros ->. by rewrite last_snoc, removelast_last.
Qed.

Lemma victim_lt m n i : (0 < n)%nat → (victim m n i < n)%nat.
Proof.
  intros Hn. unfold victim.
  pose proof (Z.mod_pos_bound (m + Z.of_nat i + 1) (Z.of_nat n)). lia.
Qed.

(** What the loop does from trip [i] on, with [k] trips left. *)
Lemma popOtherThreads_loop_spec w (qs : list (WorkStealQueue T)) (k i : nat) :
  (0 < length qs)%nat →
  0 <= myIndex w → myIndex w + Z.of_nat i + Z.of_nat k < 2 ^ 32 →
  let n := length qs in
  match popOtherThreads_loop w k (Z.of_nat i) qs with
  | (None, qs', tried) =>
      qs' = qs ∧ tried = victims (myIndex w) n i k ∧
      Forall (λ v, qs !! v = Some []) tried
  | (Some task, qs', tried) =>
      ∃ j q', (j < k)%nat ∧ tried = victims (myIndex w) n i (S j) ∧
        Forall (λ v, qs !! v = Some []) (victims (myIndex w) n i j) ∧
        qs !! victim (myIndex w) n (i + j) = Some (q' ++ [task]) ∧
        qs' = <[victim (myIndex w) n (i + j) := q']> qs
  end.
Proof.
  intros Hlen Hm. revert i. induction k as [|k IH]; intros i Hb n; simpl.
  { by repeat split. }
  assert (Hidx : Z.to_nat (Int.to_uint32 (myIndex w + Z.of_nat i + 1) mod Z.of_nat (length qs))
                 = victim (myIndex w) n i).
  { unfold victim, Int.to_uint32. rewrite (Z.mod_small (_ + 1) (2 ^ 32)) by lia. done. }
  rewrite Hidx.
  assert (is_Some (qs !! victim (myIndex w) n i)) as [q Hq].
  { apply lookup_lt_is_Some_2. by apply victim_lt. }
  rewrite Hq. destruct (trySteal q) as [[task|] q'] eqn:Hs.
  - apply trySteal_Some in Hs as ->.
    exists 0%nat, q'. rewrite Nat.add_0_r.
    split; [lia|]. split; [done|]. split; [constructor|]. by split.
  - assert (Hq0 : q = []) by (apply trySteal_None; by rewrite Hs).
    subst q.
    assert (Hi1 : Int.to_uint32 (Z.of_nat i + 1) = Z.of_nat (S i)).
    { unfold Int.to_uint32. rewrite Z.mod_small; lia. }
    rewrite Hi1. specialize (IH (S i)).
    destruct (popOtherThreads_loop w k (Z.of_nat (S i)) qs) as [[[task|] qs'] tried].
    + destruct IH as (j & q1 & Hj & -> & Hall & Hlook & ->); [lia|].
      exists (S j), q1. replace (i + S j)%nat with (S i + j)%nat by lia.
      split; [lia|]. split; [done|]. split; [simpl; by constructor|]. by split.
    + destruct IH as (-> & -> & Hall); [lia|].
      split; [done|]. split; [done|]. simpl. by constructor.
Qed.

(** In a pool of [n] deques the worker [m] tries the other deques on
    the first [n - 1] trips and its own on the last. *)
Lemma victim_other (m n i : nat) :
  (m < n)%nat → (i < n - 1)%nat → victim (Z.of_nat m) n i ≠ m.
Proof.
  intros Hm Hi. unfold victim. intros E.
  assert (E' : (Z.of_nat m + Z.of_nat i + 1) mod Z.of_nat n = Z.of_nat m).
  { pose proof (Z.mod_pos_bound (Z.of_nat m + Z.of_nat i + 1) (Z.of_nat n)). lia. }
  destruct (Z_lt_le_dec (Z.of_nat m + Z.of_nat i + 1) (Z.of_nat n)).
  - rewrite Z.mod_small in E' by lia. lia.
  - assert ((Z.of_nat m + Z.of_nat i + 1) mod Z.of_nat n
            = Z.of_nat m + Z.of_nat i + 1 - Z.of_nat n).
    { symmetry. apply Z.mod_unique with 1; lia. }
    lia.
Qed.

Lemma victim_own (m n : nat) :
  (m < n)%nat → victim (Z.of_nat m) n (n - 1) = m.
Proof.
  intros Hm. unfold victim.
  replace (Z.of_nat m + Z.of_nat (n - 1) + 1) with (Z.of_nat m + 1 * Z.of_nat n) by lia.
  rewrite Z.mod_add by lia. rewrite Z.mod_small by lia. lia.
Qed.

Lemma popLocal_None w p p' :
  popLocal w p = (None, p') → p' = p.
Proof.
  unfold popLocal. destruct (localWorkQueue w) as [l|]; [|by intros [= <-]].
  destruct (queues p !! l) as [q|] eqn:Hq; [|by intros [= <-]].
  destruct q as [|task q]; simpl; [|done].
  intros [= <-]. destruct p. simpl in *. f_equal. by apply list_insert_id.
Qed.

Lemma popPoolQueue_None p p' :
  popPoolQueue p = (None, p') → p' = p ∧ workQueue p = [].
Proof.
  unfold popPoolQueue. destruct (workQueue p) eqn:E; simpl; [|done].
  intros [= <-]. split; [|done]. destruct p. simpl in *. by subst.
Qed.

(** C9, amended. When the pop from the own deque and the pop from the
    global queue both fail, worker [m] of [n] tries to steal from the
    deques [(m + i) mod n] for [i = 1, 2, ...] in that order, from the
    back, and stops at the first deque that is not empty; it makes at
    most [n] attempts, of which the first [n - 1] are on other
    workers' deques and the [n]-th is on its own. *)
Theorem steal_order_includes_own_deque (m : nat) p (p1 p2 : ThreadPool T) :
  let w := workerThread_init (Z.of_nat m) in
  let n := length (queues p) in
  (m < n)%nat → Z.of_nat n < 2 ^ 31 →
  popLocal w p = (None, p1) → popPoolQueue p1 = (None, p2) →
  (∀ i, (i < n - 1)%nat → victim (Z.of_nat m) n i ≠ m) ∧
  victim (Z.of_nat m) n (n - 1) = m ∧
  match runPendingTask w p with
  | (None, p', tried) =>
      p' = p ∧ tried = victims (Z.of_nat m) n 0 n ∧
      Forall (λ v, queues p !! v = Some []) tried
  | (Some task, p', tried) =>
      ∃ j q', (j < n)%nat ∧ tried = victims (Z.of_nat m) n 0 (S j) ∧
        Forall (λ v, queues p !! v = Some []) (victims (Z.of_nat m) n 0 j) ∧
        queues p !! victim (Z.of_nat m) n j = Some (q' ++ [task]) ∧
        queues p' = <[victim (Z.of_nat m) n j := q']> (queues p) ∧
        workQueue p' = workQueue p
  end.
Proof.
  intros w n Hm Hn Hl Hg.
  split; [intros i Hi; by apply victim_other|].
  split; [by apply victim_own|].
  unfold runPendingTask. rewrite Hl, Hg.
  apply popLocal_None in Hl as ->. apply popPoolQueue_None in Hg as [-> Hwq].
  unfold popOtherThreads.
  assert (Hloop := popOtherThreads_loop_spec w (queues p) n 0).
  cbv zeta in Hloop. change (Z.of_nat 0) with 0 in Hloop. fold n in Hloop.
  assert (Hw : myIndex w = Z.of_nat m) by done.
  specialize (Hloop ltac:(lia) ltac:(lia) ltac:(lia)).
  rewrite Hw in Hloop.
  fold n.
  destruct (popOtherThreads_loop w n 0 (queues p)) as [[[task|] qs'] tried].
  - destruct Hloop as (j & q' & Hj & -> & Hall & Hlook & ->).
    exists j, q'. simpl. by repeat split.
  - destruct Hloop as (-> & -> & Hall).
    split; [|done]. by destruct p.
Qed.

End Facts.

(** The witness of C9: worker 0 of three, only deque 2 holds a task. *)
Lemma steal_order_includes_own_deque_witness :
  let p := {| threadCount := 3; done := false; workQueue := [];
              queues := [[]; []; [7%nat; 8%nat]] |} in
  runPendingTask (workerThread_init 0) p =
    (Some 8%nat,
     {| threadCount := 3; done := false; workQueue := [];
        queues := [[]; []; [7%nat]] |}, [1%nat; 2%nat]) ∧
  victim 0 3 2 = 0%nat.
Proof.
  intros p.
  destruct (steal_order_includes_own_deque 0 p p p) as (_ & Hown & _);
    [simpl; lia|simpl; lia|reflexivity|reflexivity|].
  split; [reflexivity|exact Hown].
Defined.

(** C9 as stated fails: in a pool of two workers with nothing to do,
    worker 0 tries deque 1 and then its own deque 0. *)
Lemma steal_attempts_reach_own_deque :
  let w := workerThread_init 0 in
  let p := ThreadPool_new (T := nat) 2 in
  popLocal w p = (None, p) ∧ popPoolQueue p = (None, p) ∧
  runPendingTask w p = (None, p, [1%nat; 0%nat]) ∧
  (0%nat ∈ snd (runPendingTask w p)) ∧
  snd (runPendingTask w p) ≠ [1%nat].
Proof.
  intros w p.
  assert (H : runPendingTask w p = (None, p, [1%nat; 0%nat])) by reflexivity.
  split; [reflexivity|]. split; [reflexivity|]. split; [exact H|].
  rewrite H. simpl. split; [|discriminate]. set_solver.
Qed.

End PoolFacts.

(** ** The connection endpoint *)

Module ConnFacts.
Import Wire Conn IntFacts WireFacts.

Lemma drop_repeat {A : Type} (x : A) (n m : nat) :
  drop n (repeat x m) = repeat x (m - n).
Proof.
  revert n. induction m as [|m IH]; intros [|n]; simpl; try done.
Qed.

Lemma PDU_of_zeros : PDU_of_bytes (repeat Byte.x00 (Z.to_nat MAX_DGRAM_SZ)) = mkPDU 0 0 0 0 0.
Proof. vm_compute. reflexivity. Qed.

Lemma four (l : list byte) :
  length l = 4%nat → ∃ x0 x1 x2 x3, l = [x0; x1; x2; x3].
Proof.
  destruct l as [|x0 [|x1 [|x2 [|x3 [|]]]]]; try done. eauto.
Qed.

(** A buffer of at least twenty bytes, cut at the members of the header. *)
Lemma header_cut (b : list byte) :
  (20 <= length b)%nat →
  ∃ a0 a1 a2 a3 a4 body,
    b = a0 ++ a1 ++ a2 ++ a3 ++ a4 ++ body ∧
    length a0 = 4%nat ∧ length a1 = 4%nat ∧ length a2 = 4%nat ∧
    length a3 = 4%nat ∧ length a4 = 4%nat ∧ length body = (length b - 20)%nat.
Proof.
  intros H.
  exists (take 4 b), (take 4 (drop 4 b)), (take 4 (drop 8 b)),
    (take 4 (drop 12 b)), (take 4 (drop 16 b)), (drop 20 b).
  assert (E : ∀ k, drop k b = take 4 (drop k b) ++ drop (k + 4) b).
  { intros k. rewrite <- drop_drop. symmetry. apply take_drop. }
  split.
  - etransitivity; [symmetry; apply (take_drop 4)|]. f_equal.
    etransitivity; [apply (E 4%nat)|]. f_equal.
    etransitivity; [apply (E 8%nat)|]. f_equal.
    etransitivity; [apply (E 12%nat)|]. f_equal.
    apply (E 16%nat).
  - rewrite !length_take, !length_drop. lia.
Qed.

(** The three stores of [sendDgram] into the header of [_buffer]. *)
Lemma header_stores (a0 a1 a2 a3 rest : list byte) (sq mt sz : Z) :
  length a0 = 4%nat → length a1 = 4%nat → length a2 = 4%nat → length a3 = 4%nat →
  write_at 12 (le_split 4 sz)
    (write_at 4 (le_split 4 mt)
       (write_at 8 (le_split 4 sq) (a0 ++ a1 ++ a2 ++ a3 ++ rest))) =
  a0 ++ le_split 4 mt ++ le_split 4 sq ++ le_split 4 sz ++ rest.
Proof.
  intros H0 H1 H2 H3.
  apply four in H0 as (? & ? & ? & ? & ->). apply four in H1 as (? & ? & ? & ? & ->).
  apply four in H2 as (? & ? & ? & ? & ->). apply four in H3 as (? & ? & ? & ? & ->).
  reflexivity.
Qed.

Section Facts.
Context `{Kernel}.

(** C8. [sendDgram(payload, n)] on an endpoint whose peer address is
    set, for [n] bytes the caller really has: one frame goes out to the
    peer; its header carries [SND] when [n <= 512] and [SENDFRAGMENT]
    otherwise, and [dgram_sz = min(n, 512)]; the first [dgram_sz]
    payload bytes follow the twenty header bytes; when [sendto]
    reports the whole frame sent, the call returns [dgram_sz]. *)
Theorem sendDgram_frame (c : Connection) (sbuff : list byte) (n : Z)
    (rx : option datagram) :
  isAddrInit (outSockAddr c) = true →
  0 <= n <= Z.of_nat (length sbuff) →
  length (_buffer c) = Z.to_nat MAX_DGRAM_SZ →
  ∃ ret c' frame,
    sendDgram c sbuff n rx = Sent ret c' [Sendto (addr (outSockAddr c)) frame] ∧
    mtype (PDU_of_bytes frame) =
      (if n <=? MAX_BUFF_SZ then MsgType.SND else MsgType.SENDFRAGMENT) ∧
    dgram_sz (PDU_of_bytes frame) = Z.min n MAX_BUFF_SZ ∧
    Z.of_nat (length frame) = sizeof_PDU + Z.min n MAX_BUFF_SZ ∧
    drop (Z.to_nat sizeof_PDU) frame = take (Z.to_nat (Z.min n MAX_BUFF_SZ)) sbuff ∧
    (sendto (udpSock c) (addr (outSockAddr c)) frame = Z.of_nat (length frame) →
     ret = Z.min n MAX_BUFF_SZ).
Proof.
  intros Hinit Hn Hlen.
  set (sz := Z.min n MAX_BUFF_SZ).
  set (mt := if n <=? MAX_BUFF_SZ then MsgType.SND else MsgType.SENDFRAGMENT).
  assert (Hsz : 0 <= sz <= 512) by (unfold sz, MAX_BUFF_SZ; lia).
  assert (Hszn : sz <= Z.of_nat (length sbuff)) by (unfold sz; lia).
  assert (Hsz' : (if n >? MAX_BUFF_SZ then MAX_BUFF_SZ else n) = sz).
  { unfold sz. destruct (Z.gtb_spec n MAX_BUFF_SZ); lia. }
  assert (Hmt' : (if n >? MAX_BUFF_SZ then MsgType.SENDFRAGMENT else MsgType.SND) = mt).
  { unfold mt. destruct (Z.gtb_spec n MAX_BUFF_SZ), (Z.leb_spec n MAX_BUFF_SZ);
      try done; lia. }
  destruct (header_cut (_buffer c)) as (a0 & a1 & a2 & a3 & a4 & body & Hb & L0 & L1 & L2 & L3 & L4 & Lb).
  { rewrite Hlen. vm_compute. lia. }
  rewrite Hlen in Lb. change (Z.to_nat MAX_DGRAM_SZ - 20)%nat with 512%nat in Lb.
  set (payload := take (Z.to_nat sz) sbuff).
  assert (Lp : length payload = Z.to_nat sz).
  { unfold payload. rewrite length_take. lia. }
  set (hdr := a0 ++ le_split 4 mt ++ le_split 4 (seqNum c) ++ le_split 4 sz ++ a4).
  assert (Lh : length hdr = 20%nat).
  { unfold hdr. rewrite !length_app, !length_le_split. lia. }
  set (frame := hdr ++ payload).
  unfold sendDgram. rewrite Hinit, Hsz', Hmt'. simpl negb. cbv iota.
  replace ((sz <? 0) || (Z.of_nat (length sbuff) <? sz)) with false.
  2: { symmetry. apply orb_false_iff. split; apply Z.ltb_ge; lia. }
  rewrite Hb, header_stores by done. fold hdr.
  replace (a0 ++ le_split 4 mt ++ le_split 4 (seqNum c) ++ le_split 4 sz ++ a4 ++ body)
    with (hdr ++ body) by (unfold hdr; by rewrite <- !app_assoc).
  fold payload.
  assert (Hw : write_at 20 payload (hdr ++ body)
               = hdr ++ payload ++ drop (length payload) body).
  { pose proof (write_at_app_l hdr 0 payload body) as E.
    rewrite Lh in E. simpl in E. rewrite E. done. }
  rewrite Hw.
  replace (Int.to_int32 (Int.to_size_t (Int.to_size_t sz + sizeof_PDU))) with (sz + 20).
  2: { rewrite (to_size_t_id sz) by lia. unfold sizeof_PDU.
       rewrite to_size_t_id by lia. rewrite to_int32_id; lia. }
  unfold sendRaw. simpl outSockAddr. simpl udpSock. rewrite Hinit. simpl negb. cbv iota.
  assert (Hframe : take (Z.to_nat (sz + 20)) (hdr ++ payload ++ drop (length payload) body)
                   = frame).
  { unfold frame. rewrite app_assoc. apply take_app_length'.
    rewrite length_app. lia. }
  rewrite Hframe.
  destruct (recvRaw _ _ _ rx) as [[? c'] ?] eqn:Hr.
  eexists _, c', frame. split; [reflexivity|].
  assert (Hpdu : PDU_of_bytes frame =
            {| proto_ver := int_at 0 a0; mtype := Int.to_int32 mt;
               seqnum := Int.to_int32 (seqNum c); dgram_sz := Int.to_int32 sz;
               err_num := int_at 0 a4 |}).
  { unfold frame, hdr, PDU_of_bytes. rewrite <- !app_assoc. f_equal.
    - apply four in L0 as (? & ? & ? & ? & ->). reflexivity.
    - apply (int_at_split a0). done.
    - rewrite (app_assoc a0). apply int_at_split. rewrite length_app, length_le_split. lia.
    - rewrite (app_assoc a0), (app_assoc (a0 ++ _)). apply int_at_split.
      rewrite !length_app, !length_le_split. lia.
    - apply four in L0 as (? & ? & ? & ? & ->). apply four in L4 as (? & ? & ? & ? & ->).
      reflexivity. }
  rewrite Hpdu. simpl.
  assert (Lf : Z.of_nat (length frame) = sizeof_PDU + sz).
  { unfold frame. rewrite length_app, Lh, Lp. unfold sizeof_PDU. lia. }
  split.
  { rewrite to_int32_id; [done|]. unfold mt. destruct (n <=? MAX_BUFF_SZ); vm_compute; split; congruence. }
  split; [rewrite to_int32_id; [done|lia]|].
  split; [exact Lf|].
  split.
  { unfold frame. change (Z.to_nat sizeof_PDU) with 20%nat. rewrite <- Lh.
    by rewrite drop_app_length. }
  intros ->. rewrite Lf. unfold sizeof_PDU.
  rewrite (to_size_t_id (20 + sz)) by lia. replace (20 + sz - 20) with sz by lia.
  rewrite to_size_t_id by lia. apply to_int32_id. lia.
Qed.

(** What [recvRaw] does with a datagram on a bound endpoint. *)
Lemma recvRaw_datagram (c : Connection) (buff : list byte) (buffSz : Z) (d : datagram) :
  isAddrInit (inSockAddr c) = true → 0 <= buffSz < 2 ^ 64 →
  recvRaw c buff buffSz (Some d) =
    (Z.of_nat (length (take (Z.to_nat buffSz) (data d))),
     set_outSockAddr
       {| len := len (outSockAddr c); isAddrInit := true; addr := src d |} c,
     write_at 0 (take (Z.to_nat buffSz) (data d)) buff).
Proof.
  intros Hi Hb. unfold recvRaw. rewrite Hi. simpl. by rewrite to_size_t_id.
Qed.

(** The classification, with the order of the two tests spelt out. *)
Lemma classify_cases (bytesIn : Z) (inPdu : PDU) (buffSz : Z) :
  0 <= bytesIn < 2 ^ 64 →
  classify bytesIn inPdu buffSz =
    if dgram_sz inPdu >? buffSz then BUFF_UNDERSIZED
    else if bytesIn <? sizeof_PDU then ERROR_BAD_DGRAM
    else NO_ERROR.
Proof.
  intros Hb. unfold classify. rewrite to_size_t_id by done.
  by destruct (dgram_sz inPdu >? buffSz).
Qed.

Lemma sendRaw_bound (c : Connection) (p : PDU) :
  isAddrInit (outSockAddr c) = true →
  sendRaw c (PDU_bytes p) sizeof_PDU =
    (sendto (udpSock c) (addr (outSockAddr c)) (PDU_bytes p),
     [Sendto (addr (outSockAddr c)) (PDU_bytes p)]).
Proof. intros Hi. unfold sendRaw. rewrite Hi. reflexivity. Qed.

(** The counter of the endpoint after a call of [recvDgram] that gets
    a datagram. *)
Lemma recvDgram_seqNum (c : Connection) (buff : list byte) (buffSz : Z) (d : datagram) :
  isAddrInit (inSockAddr c) = true → 0 <= buffSz <= MAX_DGRAM_SZ →
  let got := take (Z.to_nat buffSz) (data d) in
  let inPdu := PDU_of_bytes (write_at 0 got buff) in
  let errCode := classify (Z.of_nat (length got)) inPdu buffSz in
  seqNum (rd_conn (recvDgram c buff buffSz (Some d))) =
    advance (seqNum c) errCode (dgram_sz inPdu).
Proof.
  intros Hi Hb got inPdu errCode. unfold recvDgram.
  replace (buffSz >? MAX_DGRAM_SZ) with false
    by (symmetry; rewrite Z.gtb_ltb; apply Z.ltb_ge; lia).
  rewrite recvRaw_datagram by (done || unfold MAX_DGRAM_SZ, MAX_BUFF_SZ, sizeof_PDU in *; lia).
  fold got. fold inPdu. fold errCode.
  set (c1 := set_seqNum _ _).
  assert (Hout : isAddrInit (outSockAddr c1) = true) by done.
  assert (Hsw : ∀ log, seqNum (rd_conn (recvDgram_switch c1 (write_at 0 got buff)
                         (Z.of_nat (length got)) inPdu errCode log)) = seqNum c1).
  { intros log. unfold recvDgram_switch. rewrite !sendRaw_bound by done.
    repeat (match goal with |- context [if ?b then _ else _] => destruct b end; simpl);
      done. }
  rewrite !sendRaw_bound by done.
  repeat (match goal with
          | |- context [recvDgram_switch] => rewrite Hsw
          | |- context [if ?b then _ else _] => destruct b
          end; simpl); done.
Qed.

(** C7, amended. A call of [recvDgram(buf, cap)] that gets a datagram:
    when the [dgram_sz] read from the buffer exceeds [cap] the error is
    [BUFF_UNDERSIZED], also for a datagram shorter than the header;
    otherwise, when fewer bytes than the header arrived, it is
    [ERROR_BAD_DGRAM].  In both cases the first thing sent back to the
    sender is a bare [PDU] with [mtype = ERROR] and that code in
    [err_num]. *)
Theorem recvDgram_error_reply (c : Connection) (buff : list byte) (buffSz : Z)
    (d : datagram) :
  isAddrInit (inSockAddr c) = true → 0 <= buffSz <= MAX_DGRAM_SZ →
  let got := take (Z.to_nat buffSz) (data d) in
  let bytesIn := Z.of_nat (length got) in
  let inPdu := PDU_of_bytes (write_at 0 got buff) in
  let errCode :=
    if dgram_sz inPdu >? buffSz then BUFF_UNDERSIZED
    else if bytesIn <? sizeof_PDU then ERROR_BAD_DGRAM
    else NO_ERROR in
  errCode ≠ NO_ERROR →
  ∃ reply more,
    rd_log (recvDgram c buff buffSz (Some d)) = Sendto (src d) reply :: more ∧
    length reply = Z.to_nat sizeof_PDU ∧
    mtype (PDU_of_bytes reply) = MsgType.ERROR ∧
    err_num (PDU_of_bytes reply) = errCode ∧
    dgram_sz (PDU_of_bytes reply) = 0.
Proof.
  intros Hi Hb got bytesIn inPdu errCode Herr.
  assert (Hbytes : 0 <= bytesIn < 2 ^ 64).
  { unfold bytesIn, got. rewrite length_take.
    unfold MAX_DGRAM_SZ, MAX_BUFF_SZ, sizeof_PDU in *. lia. }
  assert (Hclass : classify bytesIn inPdu buffSz = errCode)
    by by rewrite classify_cases.
  assert (Hcode : errCode = BUFF_UNDERSIZED ∨ errCode = ERROR_BAD_DGRAM).
  { unfold errCode in *. destruct (dgram_sz inPdu >? buffSz); [by left|].
    destruct (bytesIn <? sizeof_PDU); [by right|done]. }
  clearbody errCode.
  unfold recvDgram.
  replace (buffSz >? MAX_DGRAM_SZ) with false
    by (symmetry; rewrite Z.gtb_ltb; apply Z.ltb_ge; lia).
  rewrite recvRaw_datagram by (done || unfold MAX_DGRAM_SZ, MAX_BUFF_SZ, sizeof_PDU in *; lia).
  fold got. fold bytesIn. fold inPdu. rewrite Hclass.
  set (c1 := set_seqNum _ _).
  assert (Hout : isAddrInit (outSockAddr c1) = true) by done.
  rewrite !sendRaw_bound by done.
  replace (negb (errCode =? NO_ERROR)) with true
    by (symmetry; apply negb_true_iff, Z.eqb_neq; done).
  set (reply := PDU_bytes (outPdu_for (seqNum c1) errCode MsgType.ERROR)).
  assert (Hprops : length reply = Z.to_nat sizeof_PDU ∧
            mtype (PDU_of_bytes reply) = MsgType.ERROR ∧
            err_num (PDU_of_bytes reply) = errCode ∧
            dgram_sz (PDU_of_bytes reply) = 0).
  { split; [done|].
    unfold reply. rewrite <- (app_nil_r (PDU_bytes _)), PDU_of_bytes_PDU_bytes. simpl.
    split; [done|]. split; [|done]. by destruct Hcode as [-> | ->]. }
  exists reply.
  change (addr (outSockAddr c1)) with (src d).
  destruct (negb _); [by eexists|].
  unfold recvDgram_switch. rewrite !sendRaw_bound by done.
  change (addr (outSockAddr c1)) with (src d).
  repeat (match goal with |- context [if ?b then _ else _] => destruct b end; simpl);
    by eexists.
Qed.

End Facts.
End ConnFacts.

(** ** The dispatcher and the writer *)

Module ServerFacts.
Import Wire Conn Server IntFacts WireFacts ConnFacts ServerNotions.

Section Facts.
Context `{Kernel}.

Lemma arrived_range d : 0 <= arrived d <= MAX_DGRAM_SZ.
Proof.
  unfold arrived. rewrite length_take. unfold MAX_DGRAM_SZ, MAX_BUFF_SZ, sizeof_PDU. lia.
Qed.

(** [listen] on a bound endpoint that gets a datagram. *)
Lemma listen_datagram (s : FTPServer) (stack : PDU) (d : datagram) :
  isAddrInit (inSockAddr (dpc s)) = true →
  listen s stack (Some d) =
    let c :=
      set_buffer (landed d)
        (set_outSockAddr
           {| len := len (outSockAddr (dpc s)); isAddrInit := true; addr := src d |}
           (dpc s)) in
    if arrived d =? sizeof_PDU then listen_connect s c (peerKey d) stack
    else listen_frame s c (peerKey d) (arrived d).
Proof.
  intros Hi. unfold listen.
  rewrite recvRaw_datagram by (done || vm_compute; split; congruence).
  fold (arrived d). fold (landed d).
  pose proof (arrived_range d) as Hr.
  rewrite to_size_t_id by (unfold MAX_DGRAM_SZ, MAX_BUFF_SZ, sizeof_PDU in Hr; lia).
  reflexivity.
Qed.

(** The branch of a connect that no worker interrupts, the store done:
    [fw.back()] is the writer just made. *)
Lemma listen_connect_spelt (s : FTPServer) (c : Connection) (address : string)
    (stack : PDU) :
  listen_connect s c address stack =
    let c := set_seqNums (<[address := Int.to_uint32 (0 + 1)]> (seqNums c)) c in
    let pdu :=
      {| proto_ver := 1; mtype := MsgType.CNTACK;
         seqnum := Int.to_int32 (default 0 (seqNums c !! address));
         dgram_sz := dgram_sz stack; err_num := err_num stack |} in
    let '(_, sent) := sendRaw c (PDU_bytes pdu) sizeof_PDU in
    let p := next s in
    let fw' := fw s ++ [p] in
    mkListened
      {| dpc := c; connected := Int.to_int32 (connected s + 1);
         pool := Pool.submit Pool.outsider WriterTask (pool s);
         fw := fw';
         ftpWriters := <[address := default p (last fw')]> (ftpWriters s);
         heap := <[p := FTPFileWriter_new address]> (heap s);
         next := S p |}
      (map Net sent ++ [Submit])
      Returned.
Proof.
  unfold listen_connect, listen_submit, listen_store. cbv zeta.
  destruct (sendRaw _ _ _) as [n sent]. cbn [fw].
  rewrite last_snoc. reflexivity.
Qed.

(** The log of [acknowledge]: at most one datagram, sent first. *)
Lemma acknowledge_log (c : Connection) (seq : Z) (inPdu : PDU) (errCode : Z) :
  isAddrInit (outSockAddr c) = true →
  ∃ rest,
    Forall (λ e, is_net e = false) rest ∧
    fst (acknowledge c seq inPdu errCode) =
      match (if negb (errCode =? NO_ERROR) then Some MsgType.ERROR else ack_mtype inPdu) with
      | Some mt =>
          Net (Sendto (addr (outSockAddr c)) (PDU_bytes (outPdu_for seq errCode mt))) :: rest
      | None => rest
      end.
Proof.
  intros Hi. unfold acknowledge, ack_mtype. rewrite !sendRaw_bound by done.
  repeat (match goal with |- context [if ?b then _ else _] => destruct b end; simpl);
    eexists; (split; [|reflexivity]); repeat constructor.
Qed.

Lemma acknowledge_closing (c : Connection) (seq : Z) (inPdu : PDU) (errCode : Z) :
  snd (acknowledge c seq inPdu errCode) = true →
  errCode = NO_ERROR ∧ mtype inPdu = MsgType.CLOSE.
Proof.
  unfold acknowledge.
  destruct (Z.eqb_spec errCode NO_ERROR); simpl; [|by destruct (sendRaw _ _ _)].
  destruct (Z.land (mtype inPdu) MsgType.FRAGMENT =? MsgType.FRAGMENT);
    [by destruct (sendRaw _ _ _)|].
  destruct (mtype inPdu =? MsgType.SND); [by destruct (sendRaw _ _ _)|].
  destruct (Z.eqb_spec (mtype inPdu) MsgType.CLOSE); [|done].
  by destruct (sendRaw _ _ _).
Qed.

Lemma listen_push_log (s : FTPServer) (address : string) (rcvSz : Z) (log : list event) :
  ∃ rest, Forall (λ e, is_net e = false) rest ∧
          ls_log (listen_push s address rcvSz log) = log ++ rest.
Proof.
  unfold listen_push. destruct (writer_of s address) as [[p w]|].
  - destruct (pushToChannel _ _ _ _). simpl. eexists. split; [|reflexivity].
    repeat constructor.
  - exists []. split; [constructor|]. simpl. by rewrite app_nil_r.
Qed.

Lemma reply_decodes (seq errCode mt : Z) :
  - 2 ^ 31 <= mt < 2 ^ 31 →
  length (PDU_bytes (outPdu_for seq errCode mt)) = 20%nat ∧
  mtype (PDU_of_bytes (PDU_bytes (outPdu_for seq errCode mt))) = mt.
Proof.
  intros Hmt. split; [done|].
  rewrite <- (app_nil_r (PDU_bytes _)), PDU_of_bytes_PDU_bytes. simpl.
  by apply to_int32_id.
Qed.

Lemma listen_frame_log (s : FTPServer) (c : Connection) (address : string) (rcvSz : Z) :
  isAddrInit (outSockAddr c) = true →
  let inPdu := PDU_of_bytes (_buffer c) in
  let errCode := classify rcvSz inPdu MAX_DGRAM_SZ in
  let seq := advance (default 0 (seqNums c !! address)) errCode (dgram_sz inPdu) in
  ∃ rest,
    Forall (λ e, is_net e = false) rest ∧
    ls_log (listen_frame s c address rcvSz) =
      match (if negb (errCode =? NO_ERROR) then Some MsgType.ERROR else ack_mtype inPdu) with
      | Some mt =>
          Net (Sendto (addr (outSockAddr c)) (PDU_bytes (outPdu_for seq errCode mt))) :: rest
      | None => rest
      end.
Proof.
  intros Hi inPdu errCode seq. unfold listen_frame.
  fold inPdu. fold errCode. fold seq.
  set (c' := set_seqNums _ c).
  destruct (acknowledge_log c' seq inPdu errCode Hi) as (rest & Hrest & Hlog).
  destruct (acknowledge c' seq inPdu errCode) as [log closing]. simpl in Hlog.
  assert (Hout : ∀ tail, Forall (λ e, is_net e = false) tail →
            ∃ rest',
              Forall (λ e, is_net e = false) rest' ∧
              log ++ tail =
                match (if negb (errCode =? NO_ERROR) then Some MsgType.ERROR
                       else ack_mtype inPdu) with
                | Some mt =>
                    Net (Sendto (addr (outSockAddr c)) (PDU_bytes (outPdu_for seq errCode mt)))
                      :: rest'
                | None => rest'
                end).
  { intros tail Htail. exists (rest ++ tail). split; [by apply Forall_app|].
    rewrite Hlog. by destruct (if negb _ then _ else _). }
  destruct closing.
  - destruct (writer_of _ address) as [[p w]|].
    + match goal with |- context [listen_push ?s ?a ?n ?l] =>
        destruct (listen_push_log s a n l) as (tail & Htail & ->) end.
      rewrite <- app_assoc. apply Hout. apply Forall_app. split; [|done].
      repeat constructor.
    + simpl. rewrite <- (app_nil_r log). apply Hout. constructor.
  - match goal with |- context [listen_push ?s ?a ?n ?l] =>
      destruct (listen_push_log s a n l) as (tail & Htail & ->) end.
    by apply Hout.
Qed.

(** C1, amended. The dispatcher answers a datagram by at most one
    datagram to its sender, and that one is the first thing it does:
    whatever it does for the writer comes later in the log.  The answer
    is a [CNTACK] for a datagram of exactly the size of the header;
    otherwise an [ERROR] when a validation fails, else a
    [SENDFRAGMENTACK] for a fragment, a [SNDACK] for [SND], a
    [CLOSEACK] for [CLOSE], and nothing for any other [mtype].
    [recvDgram] answers a frame that passes the validations in the
    same way: one acknowledgement, or none for another [mtype]. *)
Theorem one_reply_first_or_none (s : FTPServer) (stack : PDU) (d : datagram)
    (c : Connection) (buff : list byte) :
  isAddrInit (inSockAddr (dpc s)) = true →
  isAddrInit (inSockAddr c) = true →
  (∃ rest,
     Forall (λ e, is_net e = false) rest ∧
     match reply_mtype (arrived d) (PDU_of_bytes (landed d)) with
     | Some mt =>
         ∃ reply, ls_log (listen s stack (Some d)) = Net (Sendto (src d) reply) :: rest ∧
                  length reply = Z.to_nat sizeof_PDU ∧
                  mtype (PDU_of_bytes reply) = mt
     | None => ls_log (listen s stack (Some d)) = rest
     end) ∧
  (let inPdu := PDU_of_bytes (write_at 0 (take (Z.to_nat MAX_DGRAM_SZ) (data d)) buff) in
   classify (arrived d) inPdu MAX_DGRAM_SZ = NO_ERROR →
   filter (λ e, is_sendto e = true) (rd_log (recvDgram c buff MAX_DGRAM_SZ (Some d))) =
     match ack_mtype inPdu with
     | Some mt =>
         [Sendto (src d)
            (PDU_bytes (outPdu_for (advance (seqNum c) NO_ERROR (dgram_sz inPdu))
                          NO_ERROR mt))]
     | None => []
     end).
Proof.
  intros Hs Hc. split.
  - rewrite listen_datagram by done. cbv zeta. unfold reply_mtype.
    destruct (arrived d =? sizeof_PDU).
    + rewrite listen_connect_spelt. cbv zeta. rewrite sendRaw_bound by done.
      cbv beta iota zeta. cbn [ls_log map app].
      eexists. split; [|eexists; split; [reflexivity|]].
      * repeat constructor.
      * split; [done|].
        rewrite <- (app_nil_r (PDU_bytes _)), PDU_of_bytes_PDU_bytes. done.
    + match goal with |- context [listen_frame ?s ?c ?a ?n] =>
        destruct (listen_frame_log s c a n) as (rest & Hrest & Hlog); [done|] end.
      simpl in Hlog. exists rest. split; [done|]. rewrite Hlog.
      change (_buffer _) with (landed d).
      destruct (negb (classify (arrived d) (PDU_of_bytes (landed d)) MAX_DGRAM_SZ =? NO_ERROR)).
      * eexists. split; [reflexivity|]. by apply reply_decodes.
      * unfold ack_mtype.
        repeat (match goal with |- context [if ?b then _ else _] => destruct b end);
          try done; eexists; (split; [reflexivity|]); by apply reply_decodes.
  - intros inPdu Hok. unfold recvDgram.
    change (MAX_DGRAM_SZ >? MAX_DGRAM_SZ) with false. cbv iota.
    rewrite recvRaw_datagram by (done || vm_compute; split; congruence).
    fold (arrived d). fold inPdu. rewrite Hok.
    change (negb (NO_ERROR =? NO_ERROR)) with false. cbv iota.
    set (c1 := set_seqNum _ _).
    assert (Hout : isAddrInit (outSockAddr c1) = true) by done.
    unfold recvDgram_switch, ack_mtype. rewrite !sendRaw_bound by done.
    repeat (match goal with |- context [if ?b then _ else _] => destruct b end; simpl);
      reflexivity.
Qed.

(** *** The sequence table *)

Lemma listen_push_dpc (s : FTPServer) (address : string) (rcvSz : Z) (log : list event) :
  dpc (ls_server (listen_push s address rcvSz log)) = dpc s.
Proof.
  unfold listen_push. destruct (writer_of s address) as [[p w]|]; [|done].
  by destruct (pushToChannel _ _ _ _).
Qed.

Lemma listen_frame_dpc (s : FTPServer) (c : Connection) (address : string) (rcvSz : Z) :
  let inPdu := PDU_of_bytes (_buffer c) in
  let errCode := classify rcvSz inPdu MAX_DGRAM_SZ in
  let seq := advance (default 0 (seqNums c !! address)) errCode (dgram_sz inPdu) in
  dpc (ls_server (listen_frame s c address rcvSz)) =
    set_seqNums (<[address := seq]> (seqNums c)) c.
Proof.
  intros inPdu errCode seq. unfold listen_frame. fold inPdu errCode seq.
  destruct (acknowledge _ seq inPdu errCode) as [log closing].
  destruct closing; [|by rewrite listen_push_dpc].
  destruct (writer_of _ address) as [[p w]|]; [|done].
  by rewrite listen_push_dpc.
Qed.

(** What one frame adds to the counter of its peer. *)
Lemma advance_step (seq errCode sz : Z) :
  advance seq errCode sz = Int.to_uint32 (seq + step_of errCode sz).
Proof.
  unfold advance, step_of.
  destruct (errCode =? NO_ERROR); [|done]. by destruct (sz =? 0).
Qed.

Lemma step_of_range (n z : Z) :
  0 <= z → 1 <= step_of (classify n (mkPDU 0 0 0 z 0) MAX_DGRAM_SZ) z <= MAX_DGRAM_SZ.
Proof.
  intros Hz. unfold step_of, classify. cbn [dgram_sz].
  change MAX_DGRAM_SZ with 532.
  destruct (Z.gtb_spec z 532).
  { change (BUFF_UNDERSIZED =? NO_ERROR) with false. cbv iota. lia. }
  destruct (Int.to_size_t n <? sizeof_PDU).
  { change (ERROR_BAD_DGRAM =? NO_ERROR) with false. cbv iota. lia. }
  change (NO_ERROR =? NO_ERROR) with true. cbv iota.
  destruct (Z.eqb_spec z 0); lia.
Qed.

Lemma classify_dgram_sz (n : Z) (p : PDU) (cap : Z) :
  classify n p cap = classify n (mkPDU 0 0 0 (dgram_sz p) 0) cap.
Proof. reflexivity. Qed.

Lemma listen_counter (s : FTPServer) (stack : PDU) (d : datagram) :
  isAddrInit (inSockAddr (dpc s)) = true → arrived d ≠ sizeof_PDU →
  seqNums (dpc (ls_server (listen s stack (Some d)))) =
    <[peerKey d := Int.to_uint32 (default 0 (seqNums (dpc s) !! peerKey d) + frame_step d)]>
      (seqNums (dpc s)) ∧
  isAddrInit (inSockAddr (dpc (ls_server (listen s stack (Some d))))) = true.
Proof.
  intros Hi Hsz. rewrite listen_datagram by done. cbv zeta.
  destruct (Z.eqb_spec (arrived d) sizeof_PDU); [done|].
  rewrite listen_frame_dpc. simpl. split; [|done].
  by rewrite advance_step.
Qed.

(** The number [listen] passes to [pushToChannel]. *)
Lemma push_size (rcvSz : Z) :
  -1 <= rcvSz <= MAX_DGRAM_SZ →
  Int.to_int32 (Int.to_size_t (Int.to_size_t rcvSz - sizeof_PDU)) = rcvSz - 20.
Proof.
  unfold MAX_DGRAM_SZ, MAX_BUFF_SZ, Int.to_size_t, Int.to_int32, sizeof_PDU. intros Hr.
  change (2 ^ 64) with 18446744073709551616. change (2 ^ 32) with 4294967296.
  change (2 ^ 31) with 2147483648 in *.
  Z.div_mod_to_equations. lia.
Qed.

(** A frame that is not an accepted CLOSE goes from the
    acknowledgement straight to the push. *)
Lemma listen_frame_pushes (s : FTPServer) (c : Connection) (address : string)
    (rcvSz : Z) :
  let inPdu := PDU_of_bytes (_buffer c) in
  classify rcvSz inPdu MAX_DGRAM_SZ ≠ NO_ERROR ∨ mtype inPdu ≠ MsgType.CLOSE →
  ∃ table log,
    listen_frame s c address rcvSz =
      listen_push (set_dpc (set_seqNums table c) s) address rcvSz log.
Proof.
  intros inPdu Hno. unfold listen_frame. fold inPdu.
  set (errCode := classify rcvSz inPdu MAX_DGRAM_SZ) in *.
  set (seq := advance _ errCode _).
  set (c' := set_seqNums _ c).
  destruct (acknowledge c' seq inPdu errCode) as [log closing] eqn:Hack.
  destruct closing.
  - pose proof (acknowledge_closing c' seq inPdu errCode) as Hcl.
    rewrite Hack in Hcl. destruct (Hcl eq_refl) as [He Hm]. by destruct Hno.
  - by eexists _, log.
Qed.

Lemma landed_alt (d : datagram) :
  landed d =
    take (Z.to_nat MAX_DGRAM_SZ) (data d)
      ++ repeat Byte.x00 (Z.to_nat MAX_DGRAM_SZ - Z.to_nat (arrived d)).
Proof.
  unfold landed, arrived, write_at. rewrite take_0, app_nil_l, Nat.add_0_l, Nat2Z.id.
  by rewrite drop_repeat.
Qed.

(** What the writer is handed for a datagram longer than a header:
    the bytes that follow the header. *)
Lemma pushed_value (d : datagram) :
  20 <= arrived d →
  take (Z.to_nat (arrived d - 20)) (drop (Z.to_nat sizeof_PDU) (landed d)) =
    drop (Z.to_nat sizeof_PDU) (take (Z.to_nat MAX_DGRAM_SZ) (data d)).
Proof.
  intros Harr. rewrite landed_alt. unfold arrived in *.
  change (Z.to_nat sizeof_PDU) with 20%nat.
  rewrite drop_app_le by lia. apply take_app_length'. rewrite length_drop. lia.
Qed.

(** [listen] on the frame of a known host, spelt out. *)
Lemma listen_payload_spelt (s : FTPServer) (stack : PDU) (d : datagram)
    (p : ptr) (w : FTPFileWriter) :
  isAddrInit (inSockAddr (dpc s)) = true →
  sizeof_PDU < arrived d →
  mtype (PDU_of_bytes (landed d)) ≠ MsgType.CLOSE →
  writer_of s (peerKey d) = Some (p, w) →
  Channel.open (stream w) = true →
  let value := drop (Z.to_nat sizeof_PDU) (take (Z.to_nat MAX_DGRAM_SZ) (data d)) in
  let c :=
    set_buffer (landed d)
      (set_outSockAddr
         {| len := len (outSockAddr (dpc s)); isAddrInit := true; addr := src d |}
         (dpc s)) in
  ∃ table log,
    listen s stack (Some d) =
      if Channel.size (stream w) <? Int.to_size_t (Channel.maxSize (stream w)) then
        mkListened
          (set_heap
             (<[p := set_stream
                       {| Channel.open := true;
                          Channel.buffer := Channel.buffer (stream w) ++ [value];
                          Channel.maxSize := Channel.maxSize (stream w);
                          Channel.sender := Channel.sender (stream w);
                          Channel.receiver :=
                            Channel.notify_one (Channel.receiver (stream w)) |}
                       w]> (heap s))
             (set_dpc (set_seqNums table c) s))
          log Returned
      else
        mkListened
          (set_heap
             (<[p := set_stream
                       {| Channel.open := true;
                          Channel.buffer := Channel.buffer (stream w);
                          Channel.maxSize := Channel.maxSize (stream w);
                          Channel.sender := Channel.sender (stream w) ++ [dispatcher];
                          Channel.receiver := Channel.receiver (stream w) |}
                       w]> (heap s))
             (set_dpc (set_seqNums table c) s))
          log (Blocked value).
Proof.
  intros Hi Hsz Hmt Hw Hopen value c.
  rewrite listen_datagram by done. cbv zeta.
  pose proof (arrived_range d) as Hr.
  destruct (Z.eqb_spec (arrived d) sizeof_PDU); [lia|].
  fold c.
  destruct (listen_frame_pushes s c (peerKey d) (arrived d)) as (table & log & ->).
  { right. done. }
  unfold listen_push.
  assert (Hw' : writer_of (set_dpc (set_seqNums table c) s) (peerKey d) = Some (p, w))
    by done.
  rewrite Hw'. rewrite push_size by lia.
  unfold pushToChannel.
  replace (arrived d - 20 <? 0) with false
    by (symmetry; apply Z.ltb_ge; unfold sizeof_PDU in *; lia).
  unfold c at 2. cbn [dpc set_dpc _buffer set_buffer set_seqNums heap]. cbv zeta.
  rewrite pushed_value by (unfold sizeof_PDU in *; lia). fold value.
  unfold Channel.send. rewrite Hopen. cbn [negb].
  exists table, (log ++ [PushToChannel p (arrived d - 20)]). unfold Channel.send_wait.
  destruct (_ <? _); cbv iota beta; rewrite Hopen;
    rewrite ?pushed_value by (unfold sizeof_PDU in *; lia); reflexivity.
Qed.

(** *** The counter along a schedule *)

Lemma play_over (pr : process) (mvs : list move) :
  (∀ m, pr ≠ Running m) → play pr mvs = (pr, []).
Proof.
  intros Hdead. induction mvs as [|mv mvs IH]; [done|].
  simpl. destruct pr as [m| | |]; [by destruct (Hdead m)|..]; simpl in *; by rewrite IH.
Qed.

(** A [recvfrom] that fails ends the process at the push. *)
Lemma listen_deaf (s : FTPServer) (stack : PDU) :
  ∃ what, ls_fate (listen s stack None) = Terminated what.
Proof.
  unfold listen.
  assert (Hraw : recvRaw (dpc s) (repeat Byte.x00 (Z.to_nat MAX_DGRAM_SZ)) MAX_DGRAM_SZ None
                 = (-1, dpc s, repeat Byte.x00 (Z.to_nat MAX_DGRAM_SZ))).
  { unfold recvRaw. by destruct (negb _). }
  rewrite Hraw. change (Int.to_size_t (-1) =? sizeof_PDU) with false. cbv iota.
  set (c1 := set_buffer _ (dpc s)).
  destruct (listen_frame_pushes s c1 (inet_ntoa (sin_addr (addr (outSockAddr c1)))) (-1))
    as (table & log & ->).
  { right. unfold c1. cbn [_buffer set_buffer]. rewrite PDU_of_zeros. done. }
  unfold listen_push. destruct (writer_of _ _) as [[p w]|]; [|by eexists].
  rewrite push_size by (unfold MAX_DGRAM_SZ, MAX_BUFF_SZ, sizeof_PDU; lia).
  unfold pushToChannel. change (-1 - 20 <? 0) with true. by eexists.
Qed.

(** The workers and the parked dispatcher leave the connection alone. *)
Lemma do_retry_dpc (m m' : machine) :
  do_retry m = Running m' → dpc (server m') = dpc (server m).
Proof.
  unfold do_retry. destruct (stalled m) as [[p v]|]; [|by intros [= <-]].
  destruct (heap (server m) !! p) as [w|]; [|done].
  destruct (Channel.send_wait _ _ _); intros [= <-]; done.
Qed.

Lemma do_take_dpc (m m' : machine) (i : nat) :
  do_take m i = Running m' → dpc (server m') = dpc (server m).
Proof.
  unfold do_take. destruct (hosting m !! i); [by intros [= <-]|].
  destruct (Pool.runPendingTask _ _) as [[[[]|] pool'] w']; [|by intros [= <-]].
  destruct (last (fw (server m))); [|done]. by intros [= <-].
Qed.

Lemma do_trip_dpc (m m' : machine) (i : nat) :
  do_trip m i = Running m' → dpc (server m') = dpc (server m).
Proof.
  unfold do_trip. destruct (hosting m !! i) as [[p asleep]|]; [|by intros [= <-]].
  destruct (heap (server m) !! p) as [w|]; [|done].
  destruct (if asleep then _ else _); intros [= <-]; done.
Qed.

Lemma do_takes_dpc (early : list nat) (pr : process) (m' : machine) :
  do_takes pr early = Running m' →
  ∃ m, pr = Running m ∧ dpc (server m') = dpc (server m).
Proof.
  revert pr. induction early as [|i early IH]; intros pr Hrun.
  - simpl in Hrun. subst pr. eauto.
  - unfold do_takes in Hrun. cbn [foldl] in Hrun. fold (do_takes) in Hrun.
    apply IH in Hrun as (m1 & Hstep & Hd).
    destruct pr as [m| | |]; try done.
    exists m. split; [done|]. rewrite Hd. by eapply do_take_dpc.
Qed.

(** What a move does to the sequence table. *)
Lemma listen_table (s : FTPServer) (stack : PDU) (d : datagram) :
  isAddrInit (inSockAddr (dpc s)) = true →
  let s' := ls_server (listen s stack (Some d)) in
  isAddrInit (inSockAddr (dpc s')) = true ∧
  if decide (arrived d = sizeof_PDU) then
    ∀ k, k ≠ peerKey d → seqNums (dpc s') !! k = seqNums (dpc s) !! k
  else
    seqNums (dpc s') =
      <[peerKey d :=
          Int.to_uint32 (default 0 (seqNums (dpc s) !! peerKey d) + frame_step d)]>
        (seqNums (dpc s)).
Proof.
  intros Hi s'. unfold s'. destruct (decide (arrived d = sizeof_PDU)) as [E|E].
  - rewrite listen_datagram by done. cbv zeta. rewrite E.
    change (sizeof_PDU =? sizeof_PDU) with true. cbv iota.
    rewrite listen_connect_spelt. cbv zeta. destruct (sendRaw _ _ _).
    cbn [ls_server dpc seqNums set_seqNums inSockAddr set_buffer set_outSockAddr].
    split; [done|]. intros k Hk. by apply lookup_insert_ne.
  - destruct (listen_counter s stack d Hi E) as [Hc Hi']. done.
Qed.

Lemma do_listen_table (m m' : machine) (stack : PDU) (rx : option datagram)
    (log : list event) :
  isAddrInit (inSockAddr (dpc (server m))) = true →
  do_listen m stack rx = (Running m', log) →
  isAddrInit (inSockAddr (dpc (server m'))) = true ∧
  match read (Running m) (Datagram stack rx) with
  | None => seqNums (dpc (server m')) = seqNums (dpc (server m))
  | Some d =>
      if decide (arrived d = sizeof_PDU) then
        ∀ k, k ≠ peerKey d →
          seqNums (dpc (server m')) !! k = seqNums (dpc (server m)) !! k
      else
        seqNums (dpc (server m')) =
          <[peerKey d :=
              Int.to_uint32
                (default 0 (seqNums (dpc (server m)) !! peerKey d) + frame_step d)]>
            (seqNums (dpc (server m)))
  end.
Proof.
  intros Hi. unfold do_listen, read. destruct (stalled m) eqn:Hst.
  { intros [= <- <-]. done. }
  destruct rx as [d|].
  - pose proof (listen_table (server m) stack d Hi) as Ht. cbv zeta in Ht.
    destruct (ls_fate (listen (server m) stack (Some d))); intros [= <- <-]; exact Ht.
  - destruct (listen_deaf (server m) stack) as [what ->]. done.
Qed.

Lemma advance_table (m m' : machine) (mv : move) (log : list event) :
  isAddrInit (inSockAddr (dpc (server m))) = true →
  advance_process (Running m) mv = (Running m', log) →
  isAddrInit (inSockAddr (dpc (server m'))) = true ∧
  match read (Running m) mv with
  | None => seqNums (dpc (server m')) = seqNums (dpc (server m))
  | Some d =>
      if decide (arrived d = sizeof_PDU) then
        ∀ k, k ≠ peerKey d →
          seqNums (dpc (server m')) !! k = seqNums (dpc (server m)) !! k
      else
        seqNums (dpc (server m')) =
          <[peerKey d :=
              Int.to_uint32
                (default 0 (seqNums (dpc (server m)) !! peerKey d) + frame_step d)]>
            (seqNums (dpc (server m)))
  end.
Proof.
  intros Hi. destruct mv as [stack rx| |i|i|stack rx early]; cbn [advance_process].
  - by apply do_listen_table.
  - intros [= Hr <-]. apply do_retry_dpc in Hr. cbn [read]. by rewrite Hr.
  - intros [= Hr <-]. apply do_take_dpc in Hr. cbn [read]. by rewrite Hr.
  - intros [= Hr <-]. apply do_trip_dpc in Hr. cbn [read]. by rewrite Hr.
  - change (read (Running m) (Hail stack rx early))
      with (read (Running m) (Datagram stack rx)).
    unfold do_hail. destruct (stalled m) eqn:Hst.
    { intros [= <- <-]. unfold read. by rewrite Hst. }
    destruct rx as [d|].
    + rewrite recvRaw_datagram by (done || vm_compute; split; congruence).
      fold (arrived d). fold (landed d).
      pose proof (arrived_range d) as Hr.
      rewrite to_size_t_id by (unfold MAX_DGRAM_SZ, MAX_BUFF_SZ, sizeof_PDU in Hr; lia).
      destruct (Z.eqb_spec (arrived d) sizeof_PDU) as [E|E];
        [|by apply do_listen_table].
      unfold read. rewrite Hst. destruct (decide (arrived d = sizeof_PDU)); [|done].
      unfold listen_submit. destruct (sendRaw _ _ _) as [n sent].
      destruct (do_takes _ early) as [m1| | |] eqn:Htk; try done.
      apply do_takes_dpc in Htk as (m0 & [= <-] & Hd). cbn [server dpc] in Hd.
      unfold listen_store. destruct (last (fw (server m1))); [|done].
      intros [= <- <-]. cbn [server dpc]. rewrite Hd.
      cbn [seqNums set_seqNums inSockAddr set_buffer set_outSockAddr].
      split; [done|]. intros k Hk. by apply lookup_insert_ne.
    + assert (Hraw : recvRaw (dpc (server m)) (repeat Byte.x00 (Z.to_nat MAX_DGRAM_SZ))
                       MAX_DGRAM_SZ None
                     = (-1, dpc (server m), repeat Byte.x00 (Z.to_nat MAX_DGRAM_SZ))).
      { unfold recvRaw. by destruct (negb _). }
      rewrite Hraw. change (Int.to_size_t (-1) =? sizeof_PDU) with false. cbv iota.
      by apply do_listen_table.
Qed.

Lemma play_running (pr : process) (mvs : list move) (m' : machine) (log : list event) :
  play pr mvs = (Running m', log) → ∃ m, pr = Running m.
Proof.
  destruct pr as [m| | |]; [eauto|..]; intros Hp;
    rewrite play_over in Hp by done; discriminate Hp.
Qed.

Lemma play_counter (k : string) (mvs : list move) :
  ∀ (m m' : machine) (log : list event),
    isAddrInit (inSockAddr (dpc (server m))) = true →
    0 <= default 0 (seqNums (dpc (server m)) !! k) < 2 ^ 32 →
    play (Running m) mvs = (Running m', log) →
    Forall (λ d, peerKey d = k → arrived d ≠ sizeof_PDU) (heard (Running m) mvs) →
    default 0 (seqNums (dpc (server m')) !! k) =
      Int.to_uint32
        (default 0 (seqNums (dpc (server m)) !! k)
         + foldr Z.add 0
             (map frame_step (filter (λ d, peerKey d = k) (heard (Running m) mvs)))).
Proof.
  induction mvs as [|mv mvs IH]; intros m m' log Hi Hr Hrun Hall.
  - simpl in *. injection Hrun as <- _. rewrite Z.add_0_r. symmetry.
    by apply to_uint32_id.
  - cbn [play] in Hrun. cbn [heard] in *.
    destruct (advance_process (Running m) mv) as [pr1 log1] eqn:Hstep.
    destruct (play pr1 mvs) as [pr2 log2] eqn:Hrest.
    injection Hrun as -> _.
    destruct (play_running _ _ _ _ Hrest) as [m1 ->].
    destruct (advance_table m m1 mv log1 Hi Hstep) as [Hi1 Ht].
    cbn [fst] in *. apply Forall_app in Hall as [Hnow Hlater].
    rewrite filter_app, map_app, foldr_app.
    assert (Hfold : ∀ (l : list Z) z, foldr Z.add z l = foldr Z.add 0 l + z).
    { induction l as [|x l IHl]; intros z; simpl; [lia|]. rewrite IHl. lia. }
    rewrite Hfold.
    assert (Hone : default 0 (seqNums (dpc (server m1)) !! k) =
              Int.to_uint32
                (default 0 (seqNums (dpc (server m)) !! k)
                 + foldr Z.add 0
                     (map frame_step
                        (filter (λ d, peerKey d = k)
                           (option_list (read (Running m) mv)))))).
    { destruct (read (Running m) mv) as [d|];
        [change (option_list (Some d)) with [d] in *
        |change (option_list (@None datagram)) with (@nil datagram) in *].
      - apply Forall_cons in Hnow as [Hd _].
        destruct (decide (peerKey d = k)) as [Hk|Hk].
        + rewrite filter_cons_True by done. cbn [filter map foldr].
          rewrite filter_nil. cbn [map foldr]. rewrite Z.add_0_r.
          destruct (decide (arrived d = sizeof_PDU)) as [E|E]; [by destruct (Hd Hk)|].
          rewrite Ht, <- Hk, lookup_insert_eq. done.
        + rewrite filter_cons_False by done. rewrite filter_nil. cbn [map foldr].
          rewrite Z.add_0_r, to_uint32_id by done.
          destruct (decide (arrived d = sizeof_PDU)) as [E|E].
          * by rewrite Ht by done.
          * rewrite Ht, lookup_insert_ne by done. done.
      - rewrite filter_nil. cbn [map foldr]. rewrite Z.add_0_r, to_uint32_id by done.
        by rewrite Ht. }
    rewrite (IH m1 m' log2 Hi1); [| |done..].
    + rewrite Hone, to_uint32_add_l. f_equal. lia.
    + rewrite Hone. apply to_uint32_range.
Qed.

(** C3, amended. For a datagram that is not of the size of the header,
    the dispatcher advances the counter of its peer, modulo 2^32, by
    [dgram_sz] when the frame passes both validations and carries
    payload, and by 1 when [dgram_sz] is 0 or a validation fails; the
    counters of other peers stay.  For [0 <= dgram_sz] the step is
    between 1 and 532, so the counter grows unless it wraps.  Along
    any schedule of the dispatcher and the workers that the process
    survives, the counter of a peer is its initial value plus the sum
    of the steps of the datagrams read from that peer, modulo 2^32,
    the datagram on which the dispatcher is parked included.
    [recvDgram] advances the counter of the endpoint in the same
    way. *)
Theorem counter_advances_by_frame_step (s : FTPServer) (stack : PDU) (d : datagram)
    (m m' : machine) (mvs : list move) (log : list event)
    (k : string) (c : Connection) (buff : list byte) :
  isAddrInit (inSockAddr (dpc s)) = true →
  isAddrInit (inSockAddr c) = true →
  (arrived d ≠ sizeof_PDU →
   let old := default 0 (seqNums (dpc s) !! peerKey d) in
   let table := seqNums (dpc (ls_server (listen s stack (Some d)))) in
   table !! peerKey d = Some (Int.to_uint32 (old + frame_step d)) ∧
   (∀ other, other ≠ peerKey d → table !! other = seqNums (dpc s) !! other) ∧
   (0 <= dgram_sz (PDU_of_bytes (landed d)) → 1 <= frame_step d <= MAX_DGRAM_SZ) ∧
   (0 <= old → 1 <= frame_step d → old + frame_step d < 2 ^ 32 →
    old < Int.to_uint32 (old + frame_step d))) ∧
  (isAddrInit (inSockAddr (dpc (server m))) = true →
   0 <= default 0 (seqNums (dpc (server m)) !! k) < 2 ^ 32 →
   play (Running m) mvs = (Running m', log) →
   Forall (λ d, peerKey d = k → arrived d ≠ sizeof_PDU) (heard (Running m) mvs) →
   default 0 (seqNums (dpc (server m')) !! k) =
     Int.to_uint32
       (default 0 (seqNums (dpc (server m)) !! k)
        + foldr Z.add 0
            (map frame_step (filter (λ d, peerKey d = k) (heard (Running m) mvs))))) ∧
  (let got := take (Z.to_nat MAX_DGRAM_SZ) (data d) in
   let inPdu := PDU_of_bytes (write_at 0 got buff) in
   seqNum (rd_conn (recvDgram c buff MAX_DGRAM_SZ (Some d))) =
     Int.to_uint32
       (seqNum c + step_of (classify (arrived d) inPdu MAX_DGRAM_SZ) (dgram_sz inPdu))).
Proof.
  intros Hs Hc. split; [|split].
  - intros Hsz old table.
    destruct (listen_counter s stack d Hs Hsz) as [Ht _]. fold old in Ht. fold table in Ht.
    rewrite Ht. split; [apply lookup_insert_eq|].
    split; [intros other Ho; by apply lookup_insert_ne|].
    split.
    + unfold frame_step. cbv zeta. rewrite classify_dgram_sz.
      generalize (dgram_sz (PDU_of_bytes (landed d))).
      generalize (arrived d). intros n z Hnn. by apply step_of_range.
    + intros H0 H1 H2. rewrite to_uint32_id; lia.
  - intros Hi Hr Hrun Hall. by apply (play_counter k mvs m m' log).
  - intros got inPdu.
    rewrite recvDgram_seqNum by (done || (change MAX_DGRAM_SZ with 532; lia)).
    apply advance_step.
Qed.

(** *** The peer key *)

Lemma acknowledge_closing_indep (c c' : Connection) (seq : Z) (inPdu : PDU) (errCode : Z) :
  snd (acknowledge c seq inPdu errCode) = snd (acknowledge c' seq inPdu errCode).
Proof.
  unfold acknowledge.
  destruct (negb (errCode =? NO_ERROR)).
  { by do 2 destruct (sendRaw _ _ _). }
  destruct (Z.land (mtype inPdu) MsgType.FRAGMENT =? MsgType.FRAGMENT).
  { by do 2 destruct (sendRaw _ _ _). }
  destruct (mtype inPdu =? MsgType.SND).
  { by do 2 destruct (sendRaw _ _ _). }
  destruct (mtype inPdu =? MsgType.CLOSE); [|done].
  by do 2 destruct (sendRaw _ _ _).
Qed.

Lemma listen_push_tables (s s' : FTPServer) (address : string) (rcvSz : Z)
    (log log' : list event) :
  tables s = tables s' →
  tables (ls_server (listen_push s address rcvSz log)) =
    tables (ls_server (listen_push s' address rcvSz log')) ∧
  ls_fate (listen_push s address rcvSz log) = ls_fate (listen_push s' address rcvSz log').
Proof.
  intros Ht.
  destruct s as [c1 n1 p1 f1 w1 h1 x1], s' as [c2 n2 p2 f2 w2 h2 x2].
  unfold tables in Ht. simpl in Ht.
  injection Ht as Hw Hh Hq Hf Hp Hn Hc Hb. subst.
  unfold listen_push, writer_of. simpl. rewrite Hb.
  destruct (w2 !! address) as [p|]; simpl; [|by unfold tables; simpl; rewrite Hq, Hb].
  destruct (h2 !! p) as [w|]; simpl; [|by unfold tables; simpl; rewrite Hq, Hb].
  destruct (pushToChannel _ _ _ _). simpl.
  by unfold tables; simpl; rewrite Hq, Hb.
Qed.

Lemma listen_frame_tables (s : FTPServer) (c c' : Connection) (address : string)
    (rcvSz : Z) :
  seqNums c = seqNums c' → _buffer c = _buffer c' →
  tables (ls_server (listen_frame s c address rcvSz)) =
    tables (ls_server (listen_frame s c' address rcvSz)) ∧
  ls_fate (listen_frame s c address rcvSz) = ls_fate (listen_frame s c' address rcvSz).
Proof.
  intros Hq Hb. unfold listen_frame. rewrite Hq, Hb.
  set (inPdu := PDU_of_bytes (_buffer c')).
  set (errCode := classify rcvSz inPdu MAX_DGRAM_SZ).
  set (seq := advance _ errCode _).
  pose proof (acknowledge_closing_indep
                (set_seqNums (<[address:=seq]> (seqNums c')) c)
                (set_seqNums (<[address:=seq]> (seqNums c')) c') seq inPdu errCode) as Hcl.
  destruct (acknowledge (set_seqNums _ c) seq inPdu errCode) as [log closing].
  destruct (acknowledge (set_seqNums _ c') seq inPdu errCode) as [log' closing'].
  simpl in Hcl. subst closing'.
  assert (Ht : tables (set_dpc (set_seqNums (<[address:=seq]> (seqNums c')) c) s)
               = tables (set_dpc (set_seqNums (<[address:=seq]> (seqNums c')) c') s)).
  { unfold tables. simpl. by rewrite Hb. }
  destruct closing; [|by apply listen_push_tables].
  unfold writer_of. cbn [ftpWriters heap set_dpc].
  destruct (ftpWriters s !! address) as [p|]; [|by split].
  destruct (heap s !! p) as [w|]; [|by split].
  apply listen_push_tables. unfold tables. simpl. by rewrite Hb.
Qed.

Lemma writer_of_entry (s : FTPServer) (address : string) (p : ptr) (w : FTPFileWriter) :
  writer_of s address = Some (p, w) →
  ftpWriters s !! address = Some p ∧ heap s !! p = Some w.
Proof.
  unfold writer_of. destruct (ftpWriters s !! address) as [q|]; [|done].
  destruct (heap s !! q) eqn:Hq; [|done]. by intros [= <- <-].
Qed.

(** A frame from a host whose writer has room for it. *)
Lemma listen_payload_lands (s : FTPServer) (stack : PDU) (d : datagram)
    (p : ptr) (w : FTPFileWriter) :
  isAddrInit (inSockAddr (dpc s)) = true →
  sizeof_PDU < arrived d →
  mtype (PDU_of_bytes (landed d)) ≠ MsgType.CLOSE →
  writer_of s (peerKey d) = Some (p, w) →
  Channel.open (stream w) = true →
  Channel.size (stream w) < Int.to_size_t (Channel.maxSize (stream w)) →
  let r := listen s stack (Some d) in
  ls_fate r = Returned ∧ ftpWriters (ls_server r) = ftpWriters s ∧
  ∃ w', heap (ls_server r) = <[p := w']> (heap s) ∧
        Channel.open (stream w') = true ∧
        Channel.maxSize (stream w') = Channel.maxSize (stream w) ∧
        Channel.buffer (stream w') = Channel.buffer (stream w) ++ [carried d].
Proof.
  intros Hi Hsz Hmt Hw Hopen Hroom r. unfold r.
  destruct (listen_payload_spelt s stack d p w Hi Hsz Hmt Hw Hopen) as (table & log & ->).
  replace (Channel.size (stream w) <? Int.to_size_t (Channel.maxSize (stream w)))
    with true by (symmetry; by apply Z.ltb_lt).
  cbn [ls_fate ls_server ftpWriters set_heap set_dpc heap].
  split; [done|]. split; [done|]. eexists. split; [reflexivity|]. done.
Qed.

(** C10. The dispatcher keys both of its maps by [inet_ntoa] of the
    address the datagram came from; the port has no part in it.  The
    same datagram from another port of the same host leaves the writer
    map, the writers with their channels, and the sequence table in the
    same state.  Two frames from two ports of a host that has a writer
    are handed to that one writer: both payloads are in its channel,
    in the order of arrival, no entry is added to the writer map, and
    the one counter of the host has advanced by the steps of both. *)
Theorem peer_key_ignores_port (s : FTPServer) (stack stack' : PDU) (d d' : datagram)
    (p : ptr) (w : FTPFileWriter) :
  isAddrInit (inSockAddr (dpc s)) = true →
  sin_addr (src d') = sin_addr (src d) →
  let r := listen s stack (Some d) in
  peerKey d' = peerKey d ∧
  (data d' = data d →
   let r' := listen s stack (Some d') in
   ftpWriters (ls_server r') = ftpWriters (ls_server r) ∧
   heap (ls_server r') = heap (ls_server r) ∧
   seqNums (dpc (ls_server r')) = seqNums (dpc (ls_server r)) ∧
   ls_fate r' = ls_fate r) ∧
  (sizeof_PDU < arrived d → sizeof_PDU < arrived d' →
   mtype (PDU_of_bytes (landed d)) ≠ MsgType.CLOSE →
   mtype (PDU_of_bytes (landed d')) ≠ MsgType.CLOSE →
   writer_of s (peerKey d) = Some (p, w) →
   Channel.open (stream w) = true →
   Channel.size (stream w) + 2 <= Int.to_size_t (Channel.maxSize (stream w)) →
   let r2 := listen (ls_server r) stack' (Some d') in
   ls_fate r = Returned ∧ ls_fate r2 = Returned ∧
   ftpWriters (ls_server r2) = ftpWriters s ∧
   (∃ w', heap (ls_server r2) = <[p := w']> (heap s) ∧
          Channel.buffer (stream w') =
            Channel.buffer (stream w) ++ [carried d; carried d']) ∧
   seqNums (dpc (ls_server r2)) =
     <[peerKey d :=
         Int.to_uint32
           (default 0 (seqNums (dpc s) !! peerKey d) + frame_step d + frame_step d')]>
       (seqNums (dpc s))).
Proof.
  intros Hi Ha r.
  assert (Hk : peerKey d' = peerKey d) by (unfold peerKey; by rewrite Ha).
  split; [done|]. split.
  - intros Hd r'.
    assert (Harr : arrived d' = arrived d) by (unfold arrived; by rewrite Hd).
    assert (Hland : landed d' = landed d) by (unfold landed; by rewrite Hd).
    unfold r, r'. rewrite !listen_datagram by done. cbv zeta.
    rewrite Harr, Hland, Hk.
    destruct (Z.eqb_spec (arrived d) sizeof_PDU) as [Hsz|Hsz].
    + rewrite !listen_connect_spelt. cbv zeta. rewrite !sendRaw_bound by done.
      cbv beta iota zeta. cbn [ls_server ls_fate ftpWriters heap dpc seqNums set_seqNums].
      done.
    + match goal with |- context [listen_frame s ?c _ _] =>
        match goal with |- context [listen_frame s ?c' _ _] =>
          lazymatch c' with
          | c => fail
          | _ => destruct (listen_frame_tables s c' c (peerKey d) (arrived d)) as [Ht Hf];
                   [done..|]
          end end end.
      unfold tables in Ht. injection Ht as Hw Hh Hq _ _ _ _ _. done.
  - intros Hsz Hsz' Hmt Hmt' Hw Hopen Hroom r2.
    assert (Hne : arrived d ≠ sizeof_PDU) by lia.
    assert (Hne' : arrived d' ≠ sizeof_PDU) by lia.
    destruct (listen_payload_lands s stack d p w Hi Hsz Hmt Hw Hopen ltac:(lia))
      as (Hf1 & Hm1 & w1 & Hh1 & Ho1 & Hx1 & Hb1).
    destruct (listen_counter s stack d Hi Hne) as [Hc1 Hi1].
    fold r in Hf1, Hm1, Hh1, Hc1, Hi1.
    apply writer_of_entry in Hw as [Hwk Hwp].
    assert (Hw1 : writer_of (ls_server r) (peerKey d') = Some (p, w1)).
    { unfold writer_of. by rewrite Hk, Hm1, Hwk, Hh1, lookup_insert_eq. }
    assert (Hroom1 : Channel.size (stream w1) < Int.to_size_t (Channel.maxSize (stream w1))).
    { unfold Channel.size in *. rewrite Hx1, Hb1, length_app. simpl. lia. }
    destruct (listen_payload_lands (ls_server r) stack' d' p w1 Hi1 Hsz' Hmt' Hw1 Ho1 Hroom1)
      as (Hf2 & Hm2 & w2 & Hh2 & _ & _ & Hb2).
    destruct (listen_counter (ls_server r) stack' d' Hi1 Hne') as [Hc2 _].
    fold r2 in Hf2, Hm2, Hh2, Hc2.
    split; [done|]. split; [done|]. split; [by rewrite Hm2|]. split.
    + exists w2. rewrite Hh2, Hh1, insert_insert_eq. split; [done|].
      by rewrite Hb2, Hb1, <- app_assoc.
    + rewrite Hc2, Hk, Hc1, lookup_insert_eq, insert_insert_eq. simpl.
      by rewrite to_uint32_add_l.
Qed.

(** *** The writer *)

Lemma receive_front (t : Channel.tid) (c : Channel.bufferedChannel (list byte))
    (buff : list byte) (rest : list (list byte)) :
  Channel.buffer c = buff :: rest →
  Channel.isClosed c = false ∧
  ∃ c' c'', Channel.receive t c = Channel.Returns buff c' ∧
            Channel.receive_wait t (Channel.leave_receiver t c) = Channel.Returns buff c''.
Proof.
  intros Hb.
  assert (Hsz : (Channel.size c =? 0) = false).
  { apply Z.eqb_neq. unfold Channel.size. rewrite Hb. simpl. lia. }
  assert (Hpos : (0 <? Channel.size c) = true).
  { apply Z.ltb_lt. unfold Channel.size. rewrite Hb. simpl. lia. }
  split; [unfold Channel.isClosed; by rewrite Hsz, andb_false_r|].
  unfold Channel.receive, Channel.receive_wait, Channel.leave_receiver, Channel.size in *.
  simpl. rewrite Hsz, Hpos, andb_false_r, Hb. simpl.
  eexists _, _. split; reflexivity.
Qed.

(** C6, amended. When a writer takes a message from its channel and
    the file named in it cannot be opened, the writer writes
    [ERROR:  Cannot open file <name>] to the error stream and calls
    [exit(-1)]: the process ends with it, and neither the dispatcher
    nor another writer does anything further. *)
Theorem open_failure_exits_process (m : machine) (i : nat) (p : ptr) (asleep : bool)
    (w : FTPFileWriter) (buff : list byte) (rest : list (list byte)) (mvs : list move) :
  hosting m !! i = Some (p, asleep) →
  heap (server m) !! p = Some w →
  Channel.buffer (stream w) = buff :: rest →
  refuses (disk m) (fileName buff) = true →
  advance_process (Running m) (Trip i) =
    (Exited (-1) ("ERROR:  Cannot open file " +:+ fileName buff), []) ∧
  play (Running m) (Trip i :: mvs) =
    (Exited (-1) ("ERROR:  Cannot open file " +:+ fileName buff), []).
Proof.
  intros Hh Hw Hb Hr.
  assert (Htrip : do_trip m i = Exited (-1) ("ERROR:  Cannot open file " +:+ fileName buff)).
  { unfold do_trip. rewrite Hh, Hw.
    destruct (receive_front (S i) (stream w) buff rest Hb)
      as (Hopen & c' & c'' & Hrecv & Hwait);
      unfold serverLoop_resume, serverLoop_trip; rewrite Hopen, Hrecv, Hwait;
      unfold serverLoop_body; rewrite Hr; by destruct asleep. }
  split; [simpl; by rewrite Htrip|].
  simpl. rewrite Htrip. by rewrite play_over.
Qed.

End Facts.
End ServerFacts.

(** ** The scenarios: the theorems at work on a small installation *)

Module Scenarios.
Import Wire Conn Server IntFacts WireFacts ConnFacts ServerNotions ServerFacts Sample.

(** Closed goals are settled by running the model. *)
Ltac run := vm_compute; reflexivity.
Ltac parts := repeat apply conj.

(** C1 as stated fails. The frame [connect] sends has a complete header;
    [recvDgram] answers it by nothing, and the dispatcher by a [CNTACK],
    which is none of [ACK], [SNDACK], [SENDFRAGMENTACK], [CLOSEACK],
    [ERROR].  A frame of type [ACK] with payload gets no answer from the
    dispatcher, which still hands the payload to the writer. *)
Lemma connect_frame_gets_no_listed_reply :
  rd_log (recvDgram (H := healthy) endpoint zeros MAX_DGRAM_SZ
            (Some (from peer connect_frame))) = [] ∧
  ls_log (listen (H := healthy) server0 junk (Some (from peer connect_frame)))
    = [Net (Sendto peer (ack MsgType.CNTACK 1)); Submit] ∧
  mtype (PDU_of_bytes (ack MsgType.CNTACK 1)) = MsgType.CNTACK ∧
  ¬ In MsgType.CNTACK
      [MsgType.ACK; MsgType.SNDACK; MsgType.SENDFRAGMENTACK; MsgType.CLOSEACK;
       MsgType.ERROR] ∧
  ls_log (listen (H := healthy) active junk (Some (from peer (frame MsgType.ACK 4 abcd))))
    = [Cerr "ERROR: Unexpected or bad mtype in header " 1; PushToChannel 1%nat 4].
Proof.
  split; [run|]. split; [run|]. split; [run|]. split; [|run].
  vm_compute. intros [E|[E|[E|[E|[E|[]]]]]]; discriminate E.
Qed.

(** The witness of C1: a [SND] frame with four bytes of payload. *)
Lemma one_reply_first_or_none_witness :
  (isAddrInit (inSockAddr (dpc active)) = true ∧ isAddrInit (inSockAddr endpoint) = true) ∧
  ∃ rest reply,
    ls_log (listen (H := healthy) active junk (Some (from peer (frame MsgType.SND 4 abcd))))
      = Net (Sendto peer reply) :: rest ∧
    mtype (PDU_of_bytes reply) = MsgType.SNDACK.
Proof.
  split; [split; reflexivity|].
  destruct (one_reply_first_or_none (H := healthy) active junk
              (from peer (frame MsgType.SND 4 abcd)) endpoint zeros eq_refl eq_refl)
    as [(rest & _ & Hlog) _].
  assert (Hmt : reply_mtype (arrived (from peer (frame MsgType.SND 4 abcd)))
                  (PDU_of_bytes (landed (from peer (frame MsgType.SND 4 abcd))))
                = Some MsgType.SNDACK) by (vm_compute; reflexivity).
  rewrite Hmt in Hlog. destruct Hlog as (reply & Hlog & _ & Hm).
  exists rest, reply. split; [exact Hlog|exact Hm].
Defined.

(** C2, evaluated. The frame the sender's [disconnect] puts on the wire
    is header-sized, and the dispatcher takes every header-sized datagram
    for a connect: with the peer's writer in the map it answers [CNTACK],
    leaves that writer's channel open and makes a second writer.  A
    [CLOSE] frame that does carry payload is answered by [CLOSEACK] and
    closes the channel, and then the payload is pushed onto the closed
    channel: [send] throws and nothing catches it. *)
Theorem close_frame_is_taken_for_connect :
  disconnect (H := healthy) client None
    = Sent ERROR_GENERAL client [Sendto station close_frame] ∧
  writer_of active "10.0.0.1" = Some (1%nat, FTPFileWriter_new "10.0.0.1") ∧
  (let r := listen (H := healthy) active junk (Some (from peer close_frame)) in
   ls_log r = [Net (Sendto peer (ack MsgType.CNTACK 1)); Submit] ∧
   ls_fate r = Returned ∧
   (λ w, Channel.open (stream w)) <$> heap (ls_server r) !! 1%nat = Some true ∧
   ftpWriters (ls_server r) !! "10.0.0.1" = Some 2%nat) ∧
  (let r := listen (H := healthy) active junk
              (Some (from peer (frame MsgType.CLOSE 4 abcd))) in
   ls_log r =
     [Net (Sendto peer (ack MsgType.CLOSEACK 5)); ChannelClose 1%nat;
      Cerr "ERROR: Unexpected or bad mtype in header " MsgType.CLOSE;
      PushToChannel 1%nat 4] ∧
   ls_fate r = Terminated "Receive on Closed Channel." ∧
   (λ w, Channel.buffer (stream w)) <$> heap (ls_server r) !! 1%nat = Some []).
Proof.
  cbv zeta. parts; run.
Qed.

(** C3 as stated fails. A frame whose [dgram_sz] is 600 fails the second
    validation and moves the counter of its peer from 1 to 2; and the
    header-sized frame of [disconnect], a zero-sized frame, sets a
    counter that stood at 5 back to 1. *)
Lemma rejected_frame_counts_one :
  let big := from peer (frame MsgType.SND 600 abcd) in
  let small := from peer (frame MsgType.SND 4 abcd) in
  seqNums (dpc active) !! "10.0.0.1" = Some 1 ∧
  dgram_sz (PDU_of_bytes (landed big)) = 600 ∧
  seqNums (dpc (ls_server (listen (H := healthy) active junk (Some big)))) !! "10.0.0.1"
    = Some 2 ∧
  2 ≠ 1 + 600 ∧
  (let s := ls_server (listen (H := healthy) active junk (Some small)) in
   seqNums (dpc s) !! "10.0.0.1" = Some 5 ∧
   dgram_sz (PDU_of_bytes (landed (from peer close_frame))) = 0 ∧
   seqNums (dpc (ls_server (listen (H := healthy) s junk (Some (from peer close_frame)))))
     !! "10.0.0.1" = Some 1).
Proof.
  cbv zeta. parts; try run. intros E; discriminate E.
Qed.

(** The witness of C3: twenty-five frames of 116 bytes from [peer], more
    than the channel of its writer holds, each followed by a trip of the
    writer, take the counter from 1 to 2901. *)
Lemma counter_advances_by_frame_step_witness :
  let d := from peer (frame MsgType.SND 116 message) in
  let mvs := rounds junk 0 (repeat d 25) in
  let m' := match (play (H := healthy) (Running hosted) mvs).1 with
            | Running m => m
            | _ => hosted
            end in
  (isAddrInit (inSockAddr (dpc active)) = true ∧
   isAddrInit (inSockAddr endpoint) = true ∧
   isAddrInit (inSockAddr (dpc (server hosted))) = true ∧
   0 <= default 0 (seqNums (dpc (server hosted)) !! "10.0.0.1") < 2 ^ 32 ∧
   (play (H := healthy) (Running hosted) mvs).1 = Running m' ∧
   heard (H := healthy) (Running hosted) mvs = repeat d 25 ∧
   arrived d ≠ sizeof_PDU) ∧
  default 0 (seqNums (dpc (server m')) !! "10.0.0.1") = 2901.
Proof.
  intros d mvs m'.
  assert (Hi : isAddrInit (inSockAddr (dpc (server hosted))) = true) by run.
  assert (Hr : 0 <= default 0 (seqNums (dpc (server hosted)) !! "10.0.0.1") < 2 ^ 32).
  { vm_compute. split; [intros E; discriminate E|reflexivity]. }
  assert (Hrun : (play (H := healthy) (Running hosted) mvs).1 = Running m') by run.
  assert (Hheard : heard (H := healthy) (Running hosted) mvs = repeat d 25) by run.
  assert (Hd : arrived d ≠ sizeof_PDU) by (vm_compute; intros E; discriminate E).
  split.
  { split; [reflexivity|]. split; [reflexivity|]. split; [exact Hi|].
    split; [exact Hr|]. split; [exact Hrun|]. split; [exact Hheard|exact Hd]. }
  destruct (counter_advances_by_frame_step (H := healthy) active junk d hosted m' mvs
              (play (H := healthy) (Running hosted) mvs).2 "10.0.0.1" endpoint zeros
              eq_refl eq_refl) as (_ & Hstream & _).
  rewrite (Hstream Hi Hr).
  - rewrite Hheard. run.
  - rewrite <- Hrun. by destruct (play _ _).
  - rewrite Hheard. apply List.Forall_forall. intros x Hx _.
    apply repeat_spec in Hx. by subst x.
Defined.

(** C6 as stated fails. Once the writer of [peer] finds that [x] cannot
    be opened the process has exited: it is not running, and a datagram
    from another host draws no answer. *)
Lemma open_failure_ends_the_dispatcher :
  let newcomer := Datagram junk (Some (from station connect_frame)) in
  fst (play (H := healthy) (Running (boot picky)) (prologue ++ [Trip 0]))
    = Exited (-1) "ERROR:  Cannot open file x" ∧
  snd (play (H := healthy) (Running (boot picky)) (prologue ++ [Trip 0; newcomer]))
    = snd (play (H := healthy) (Running (boot picky)) prologue) ∧
  alive (fst (play (H := healthy) (Running (boot picky)) (prologue ++ [newcomer])))
    = true ∧
  snd (play (H := healthy) (Running (boot picky)) (prologue ++ [newcomer]))
    = snd (play (H := healthy) (Running (boot picky)) prologue)
        ++ [Net (Sendto station (ack MsgType.CNTACK 1)); Submit].
Proof.
  cbv zeta. parts; run.
Qed.

(** The witness of C6: the machine after the prologue. *)
Lemma open_failure_exits_process_witness :
  (hosting loaded !! 0%nat = Some (1%nat, false) ∧
   (λ w, Channel.buffer (stream w)) <$> heap (server loaded) !! 1%nat = Some [message] ∧
   refuses (disk loaded) (fileName message) = true) ∧
  advance_process (H := healthy) (Running loaded) (Trip 0)
    = (Exited (-1) ("ERROR:  Cannot open file " +:+ fileName message), []).
Proof.
  split; [parts; run|].
  destruct (heap (server loaded) !! 1%nat) as [w|] eqn:Hw; [|vm_compute in Hw; discriminate Hw].
  assert (Hb : Channel.buffer (stream w) = [message]).
  { vm_compute in Hw. injection Hw as <-. reflexivity. }
  assert (Hh : hosting loaded !! 0%nat = Some (1%nat, false)) by run.
  assert (Hr : refuses (disk loaded) (fileName message) = true) by run.
  destruct (open_failure_exits_process (H := healthy) loaded 0 1%nat false w message [] []
              Hh Hw Hb Hr) as [Hstep _].
  exact Hstep.
Defined.

(** C7 as stated fails. Sixteen bytes arrive, fewer than the header, with
    10000 where [dgram_sz] is read: the error sent back is
    [BUFF_UNDERSIZED], not [ERROR_BAD_DGRAM]. *)
Lemma short_frame_is_classified_undersized :
  arrived (from peer stump) = 16 ∧ 16 < sizeof_PDU ∧
  rd_log (recvDgram (H := healthy) endpoint zeros MAX_DGRAM_SZ (Some (from peer stump)))
    = [Sendto peer
         (PDU_bytes {| proto_ver := 1; mtype := MsgType.ERROR; seqnum := 1;
                       dgram_sz := 0; err_num := BUFF_UNDERSIZED |})] ∧
  BUFF_UNDERSIZED ≠ ERROR_BAD_DGRAM.
Proof.
  parts; try run. intros E; discriminate E.
Qed.

(** The witness of C7: a datagram of four bytes into a zeroed buffer. *)
Lemma recvDgram_error_reply_witness :
  let d := from peer abcd in
  (isAddrInit (inSockAddr endpoint) = true ∧ 0 <= MAX_DGRAM_SZ <= MAX_DGRAM_SZ) ∧
  ∃ reply more,
    rd_log (recvDgram (H := healthy) endpoint zeros MAX_DGRAM_SZ (Some d))
      = Sendto peer reply :: more ∧
    mtype (PDU_of_bytes reply) = MsgType.ERROR ∧
    err_num (PDU_of_bytes reply) = ERROR_BAD_DGRAM.
Proof.
  intros d.
  assert (Hcap : 0 <= MAX_DGRAM_SZ <= MAX_DGRAM_SZ) by (change MAX_DGRAM_SZ with 532; lia).
  split; [split; [reflexivity|exact Hcap]|].
  destruct (recvDgram_error_reply (H := healthy) endpoint zeros MAX_DGRAM_SZ d eq_refl Hcap)
    as (reply & more & Hlog & _ & Hm & He & _).
  { vm_compute. intros E; discriminate E. }
  exists reply, more. split; [exact Hlog|]. split; [exact Hm|].
  rewrite He. run.
Defined.

(** The witness of C8: four bytes sent by a connected sender. *)
Lemma sendDgram_frame_witness :
  (isAddrInit (outSockAddr client) = true ∧ 0 <= 4 <= Z.of_nat (length abcd) ∧
   length (_buffer client) = Z.to_nat MAX_DGRAM_SZ) ∧
  ∃ c' frame,
    sendDgram (H := healthy) client abcd 4 None = Sent 4 c' [Sendto station frame] ∧
    mtype (PDU_of_bytes frame) = MsgType.SND ∧
    drop (Z.to_nat sizeof_PDU) frame = abcd.
Proof.
  assert (Hn : 0 <= 4 <= Z.of_nat (length abcd)) by (simpl; lia).
  split; [split; [reflexivity|split; [exact Hn|reflexivity]]|].
  destruct (sendDgram_frame (H := healthy) client abcd 4 None eq_refl Hn eq_refl)
    as (ret & c' & fr & Hsent & Hm & _ & Hlen & Hdrop & Hret).
  exists c', fr. rewrite Hsent. split; [|split; [exact Hm|exact Hdrop]].
  f_equal. apply Hret. simpl. rewrite Hlen. reflexivity.
Defined.

(** The witness of C10: two programs on the host 10.0.0.1 send a frame
    each, and both frames are in the channel of the one writer. *)
Lemma peer_key_ignores_port_witness :
  let d := from peer (frame MsgType.SND 4 abcd) in
  let d' := from neighbour (frame MsgType.SND 4 efgh) in
  let p := 1%nat in
  let w := FTPFileWriter_new "10.0.0.1" in
  (isAddrInit (inSockAddr (dpc active)) = true ∧ sin_addr (src d') = sin_addr (src d) ∧
   sizeof_PDU < arrived d ∧ sizeof_PDU < arrived d' ∧
   mtype (PDU_of_bytes (landed d)) ≠ MsgType.CLOSE ∧
   mtype (PDU_of_bytes (landed d')) ≠ MsgType.CLOSE ∧
   writer_of active (peerKey d) = Some (p, w) ∧
   Channel.open (stream w) = true ∧
   Channel.size (stream w) + 2 <= Int.to_size_t (Channel.maxSize (stream w))) ∧
  sin_port (src d') ≠ sin_port (src d) ∧
  ∃ w', heap (ls_server (listen (H := healthy)
                           (ls_server (listen (H := healthy) active junk (Some d)))
                           junk (Some d'))) = <[p := w']> (heap active) ∧
        Channel.buffer (stream w') = [abcd; efgh].
Proof.
  intros d d' p w.
  assert (H1 : sizeof_PDU < arrived d) by (vm_compute; reflexivity).
  assert (H2 : sizeof_PDU < arrived d') by (vm_compute; reflexivity).
  assert (H3 : mtype (PDU_of_bytes (landed d)) ≠ MsgType.CLOSE)
    by (vm_compute; intros E; discriminate E).
  assert (H4 : mtype (PDU_of_bytes (landed d')) ≠ MsgType.CLOSE)
    by (vm_compute; intros E; discriminate E).
  assert (H5 : writer_of active (peerKey d) = Some (p, w)) by run.
  assert (H6 : Channel.size (stream w) + 2 <= Int.to_size_t (Channel.maxSize (stream w)))
    by (vm_compute; intros E; discriminate E).
  split.
  { split; [reflexivity|]. split; [reflexivity|]. split; [exact H1|].
    split; [exact H2|]. split; [exact H3|]. split; [exact H4|]. split; [exact H5|].
    split; [reflexivity|exact H6]. }
  split; [vm_compute; intros E; discriminate E|].
  destruct (peer_key_ignores_port (H := healthy) active junk junk d d' p w
              eq_refl eq_refl) as (_ & _ & Hboth).
  destruct (Hboth H1 H2 H3 H4 H5 eq_refl H6) as (_ & _ & _ & (w' & Hheap & Hbuf) & _).
  exists w'. split; [exact Hheap|exact Hbuf].
Defined.

End Scenarios.

(** * Further properties *)

(** ** The executor *)

Module PoolMore.
Import Pool PoolNotions PoolFacts.

Section Facts.
Context {T : Type}.
Implicit Types (q : WorkStealQueue T) (p : ThreadPool T) (w : worker).

Lemma victim_onto (m n j : nat) :
  (j < n)%nat → ∃ i, (i < n)%nat ∧ victim (Z.of_nat m) n i = j.
Proof.
  intros Hj.
  exists (Z.to_nat ((Z.of_nat j - Z.of_nat m - 1) mod Z.of_nat n)).
  pose proof (Z.mod_pos_bound (Z.of_nat j - Z.of_nat m - 1) (Z.of_nat n) ltac:(lia)) as Hb.
  split; [lia|]. unfold victim. rewrite Z2Nat.id by lia.
  rewrite <- Z.add_assoc, (Z.add_comm _ 1), Z.add_assoc.
  rewrite Zplus_mod_idemp_r.
  replace (Z.of_nat m + 1 + (Z.of_nat j - Z.of_nat m - 1)) with (Z.of_nat j) by lia.
  rewrite Z.mod_small by lia. lia.
Qed.

Lemma victims_cover (m n : nat) (qs : list (WorkStealQueue T)) :
  length qs = n →
  Forall (λ v, qs !! v = Some []) (victims (Z.of_nat m) n 0 n) →
  Forall (λ q, q = []) qs.
Proof.
  intros Hlen Hall. apply Forall_lookup. intros j q Hq.
  assert (Hj : (j < n)%nat) by (rewrite <- Hlen; by eapply lookup_lt_Some).
  destruct (victim_onto m n j Hj) as (i & Hi & Hv).
  rewrite Forall_forall in Hall.
  assert (Hin : victim (Z.of_nat m) n i ∈ victims (Z.of_nat m) n 0 n).
  { unfold victims. apply list_elem_of_fmap. exists i. split; [done|].
    apply elem_of_seq. lia. }
  specialize (Hall _ Hin). simpl in Hall. rewrite Hv in Hall.
  assert (E : Some q = Some []) by (rewrite <- Hq; exact Hall). by injection E.
Qed.

Lemma isEmpty_iff p :
  isEmpty p = true ↔ Forall (λ q, q = []) (queues p) ∧ workQueue p = [].
Proof.
  unfold isEmpty. rewrite andb_true_iff, forallb_forall, Forall_forall.
  split.
  - intros [Hq Hw]. split.
    + intros q Hin. apply list_elem_of_In in Hin. specialize (Hq q Hin). by destruct q.
    + by destruct (workQueue p).
  - intros [Hq Hw]. split.
    + intros q Hin. apply list_elem_of_In in Hin. by rewrite (Hq q Hin).
    + by rewrite Hw.
Qed.

Lemma load_insert (qs : list (WorkStealQueue T)) (i : nat) (q q' : WorkStealQueue T) :
  qs !! i = Some q →
  (tasks_in (<[i := q']> qs) + length q = tasks_in qs + length q')%nat.
Proof.
  unfold tasks_in. revert i. induction qs as [|q0 qs IH]; intros [|i] Hq; simpl in *;
    try done.
  - injection Hq as ->. lia.
  - specialize (IH i Hq). lia.
Qed.

(** X1. A worker with nothing to run has seen the whole pool empty, and a
    worker that finds a task takes exactly one task out of the pool. *)
Theorem runPendingTask_finds_work (m : nat) p :
  (m < length (queues p))%nat → Z.of_nat (length (queues p)) < 2 ^ 31 →
  match runPendingTask (workerThread_init (Z.of_nat m)) p with
  | (None, p', _) => isEmpty p = true ∧ p' = p
  | (Some task, p', _) => isEmpty p = false ∧ (load p' + 1 = load p)%nat
  end.
Proof.
  intros Hm Hn. set (w := workerThread_init (Z.of_nat m)).
  assert (Hnot : ∀ i q t, queues p !! i = Some (q ++ [t]) → isEmpty p = false).
  { intros i q t Hq. apply not_true_is_false. rewrite isEmpty_iff. intros [Hall _].
    rewrite Forall_lookup in Hall. specialize (Hall _ _ Hq). by destruct q. }
  unfold runPendingTask.
  destruct (popLocal w p) as [[task|] p1] eqn:Hl.
  { unfold popLocal in Hl. simpl in Hl. rewrite Nat2Z.id in Hl.
    destruct (queues p !! m) as [q|] eqn:Hq; [|done].
    destruct q as [|t q]; simpl in Hl; [done|]. injection Hl as <- <-.
    split.
    - apply not_true_is_false. rewrite isEmpty_iff. intros [Hall _].
      rewrite Forall_lookup in Hall. by specialize (Hall _ _ Hq).
    - unfold load. simpl. pose proof (load_insert _ _ _ q Hq) as E. simpl in E. lia. }
  apply popLocal_None in Hl as ->.
  destruct (popPoolQueue p) as [[task|] p2] eqn:Hg.
  { unfold popPoolQueue in Hg. destruct (workQueue p) as [|t wq] eqn:Hwq; simpl in Hg;
      [done|]. injection Hg as <- <-. split.
    - apply not_true_is_false. rewrite isEmpty_iff. intros [_ E]. congruence.
    - unfold load. simpl. rewrite Hwq. simpl. lia. }
  apply popPoolQueue_None in Hg as [-> Hwq].
  unfold popOtherThreads.
  assert (Hloop := popOtherThreads_loop_spec w (queues p) (length (queues p)) 0).
  cbv zeta in Hloop. change (Z.of_nat 0) with 0 in Hloop.
  assert (Hw : myIndex w = Z.of_nat m) by done.
  specialize (Hloop ltac:(lia) ltac:(lia) ltac:(lia)). rewrite Hw in Hloop.
  destruct (popOtherThreads_loop w (length (queues p)) 0 (queues p))
    as [[[task|] qs'] tried].
  - destruct Hloop as (j & q' & Hj & -> & Hall & Hlook & ->). simpl in Hlook.
    split; [by eapply Hnot|].
    unfold load. simpl.
    pose proof (load_insert _ _ _ q' Hlook) as E. rewrite length_app in E. simpl in E. lia.
  - destruct Hloop as (-> & -> & Hall). split; [|by destruct p].
    apply isEmpty_iff. split; [|done]. by eapply victims_cover.
Qed.

(** X2. The owner of a deque takes its newest task, a thief the oldest. *)
Theorem owner_newest_thief_oldest (first : T) (others : list T) :
  let q := foldl (λ q task, ws_push task q) [] (first :: others) in
  trySteal q = (Some first, foldl (λ q task, ws_push task q) [] others) ∧
  ws_tryPop q =
    (Some (List.last others first),
     foldl (λ q task, ws_push task q) [] (removelast (first :: others))).
Proof.
  assert (Hrev : ∀ (l : list T) q0, foldl (λ q task, ws_push task q) q0 l = rev l ++ q0).
  { induction l as [|x l IH]; intros q0; simpl; [done|].
    rewrite IH. unfold ws_push. by rewrite <- app_assoc. }
  intros q. unfold q. rewrite !Hrev, !app_nil_r. split.
  - simpl. apply trySteal_Some. done.
  - destruct (exists_last (l := first :: others)) as (front & newest & E); [done|].
    rewrite E, removelast_last, rev_app_distr. simpl.
    replace (List.last others first) with newest; [done|].
    destruct front as [|f front]; simpl in E; injection E as -> ->; [done|].
    by rewrite last_last.
Qed.

(** X3. Tasks submitted by a thread outside the pool queue up behind what
    the global queue holds, in the order of submission, and leave the
    deques alone; a worker's own submission is on top of its deque,
    the next thing it pops. *)
Theorem submit_order (p : ThreadPool T) (tasks : list T) (task : T) (m : nat) :
  let p' := foldl (λ p t, submit outsider t p) p tasks in
  workQueue p' = workQueue p ++ tasks ∧ queues p' = queues p ∧
  ((m < length (queues p))%nat →
   popLocal (workerThread_init (Z.of_nat m))
     (submit (workerThread_init (Z.of_nat m)) task p) = (Some task, p)).
Proof.
  intros p'.
  assert (H : ∀ (l : list T) p0,
    workQueue (foldl (λ p t, submit outsider t p) p0 l) = workQueue p0 ++ l ∧
    queues (foldl (λ p t, submit outsider t p) p0 l) = queues p0).
  { induction l as [|t l IH]; intros p0; simpl.
    - by rewrite app_nil_r.
    - destruct (IH (submit outsider t p0)) as [-> ->]. simpl. unfold tq_push.
      by rewrite <- app_assoc. }
  split; [apply H|]. split; [apply H|]. clear H p'.
  intros Hm. unfold popLocal, submit. simpl. rewrite Nat2Z.id.
    destruct (lookup_lt_is_Some_2 (queues p) m Hm) as [q Hq].
    rewrite list_lookup_alter_eq, Hq. simpl.
    destruct p as [tc dn wq qs]. simpl in *. f_equal. f_equal.
    apply list_eq. intros i. destruct (decide (i = m)) as [->|Hne].
    + rewrite list_lookup_insert_eq by (by rewrite length_alter). done.
    + rewrite list_lookup_insert_ne, list_lookup_alter_ne by done. done.
Qed.

End Facts.

Lemma runPendingTask_finds_work_witness :
  let p := {| threadCount := 2; done := false; workQueue := [5%nat]; queues := [[]; []] |} in
  ((1 < length (queues p))%nat ∧ Z.of_nat (length (queues p)) < 2 ^ 31) ∧
  isEmpty p = false.
Proof.
  intros p.
  assert (H1 : (1 < length (queues p))%nat) by (simpl; lia).
  assert (H2 : Z.of_nat (length (queues p)) < 2 ^ 31) by (simpl; lia).
  split; [done|].
  pose proof (runPendingTask_finds_work 1 p H1 H2) as H.
  change (runPendingTask (workerThread_init (Z.of_nat 1)) p)
    with (Some 5%nat, {| threadCount := 2; done := false; workQueue := @nil nat;
                         queues := [[]; []] |}, @nil nat) in H.
  by destruct H.
Defined.

Lemma submit_order_witness :
  let p := ThreadPool_new (T := nat) 2 in
  (1 < length (queues p))%nat ∧
  popLocal (workerThread_init 1) (submit (workerThread_init 1) 7%nat p) = (Some 7%nat, p).
Proof.
  intros p. assert (H1 : (1 < length (queues p))%nat) by (simpl; lia).
  split; [done|].
  destruct (submit_order p [] 7%nat 1) as (_ & _ & H). by apply H.
Defined.

End PoolMore.

(** ** The channel and the writer's loop *)

Module ChannelMore.
Import Channel ChannelNotions ChannelFacts.

Section Facts.
Context {X : Type}.
Implicit Types (s : system X) (a : action X) (c : bufferedChannel X).

(** X4. A receiver that finds an open channel empty parks without taking
    anything; the next value sent is the one it returns with when it
    runs again. *)
Theorem parked_receiver_takes_next_value s (t u : tid) (v : X) :
  open (chan s) = true → buffer (chan s) = [] →
  0 < Int.to_size_t (maxSize (chan s)) →
  waiting s !! t = None → waiting s !! u = None → t ≠ u →
  let s1 := step s (Receive t) in
  let s2 := step s1 (Send u v) in
  let s3 := step s2 (Resume t) in
  (waiting s1 !! t = Some ParkedReceive ∧ received s1 = received s ∧
   t ∈ receiver (chan s1)) ∧
  (buffer (chan s2) = [v] ∧ sent s2 = sent s ++ [v] ∧ waiting s2 !! u = None) ∧
  (received s3 = received s ++ [v] ∧ buffer (chan s3) = [] ∧
   waiting s3 !! t = None ∧ t ∉ receiver (chan s3)).
Proof.
  intros Ho Hb Hmax Ht Hu Hne s1 s2 s3.
  assert (E1 : s1 =
    {| chan := {| open := true; buffer := []; maxSize := maxSize (chan s);
                  sender := sender (chan s); receiver := receiver (chan s) ++ [t] |};
       waiting := <[t := ParkedReceive]> (waiting s);
       sent := sent s; received := received s |}).
  { unfold s1, step. rewrite Ht, receive_cases.
    destruct (receive_wait_cases t (chan s))
      as [(d & r & Hd & _)|[(_ & Ho' & _)|(_ & _ & ->)]]; [congruence..|].
    simpl. by rewrite Ho, Hb. }
  assert (E2 : s2 =
    {| chan := {| open := true; buffer := [v]; maxSize := maxSize (chan s);
                  sender := sender (chan s);
                  receiver := notify_one (receiver (chan s) ++ [t]) |};
       waiting := delete u (<[t := ParkedReceive]> (waiting s));
       sent := sent s ++ [v]; received := received s |}).
  { unfold s2, step. rewrite E1. simpl.
    rewrite lookup_insert_ne, Hu by done. unfold send. simpl.
    destruct (send_wait_cases u v
      {| open := true; buffer := []; maxSize := maxSize (chan s);
         sender := sender (chan s); receiver := receiver (chan s) ++ [t] |})
      as [(_ & ->)|(Hfull & _)]; [done|].
    unfold size in Hfull. simpl in Hfull. lia. }
  assert (E3 : s3 =
    {| chan := {| open := true; buffer := []; maxSize := maxSize (chan s);
                  sender := notify_one (sender (chan s));
                  receiver := unpark t (notify_one (receiver (chan s) ++ [t])) |};
       waiting := delete t (delete u (<[t := ParkedReceive]> (waiting s)));
       sent := sent s ++ [v]; received := received s ++ [v] |}).
  { unfold s3, step. rewrite E2. simpl.
    rewrite lookup_delete_ne, lookup_insert_eq by done. done. }
  rewrite E1, E2, E3. simpl. split; [|split].
  - rewrite lookup_insert_eq. split; [done|]. split; [done|].
    apply elem_of_app. right. apply list_elem_of_singleton. done.
  - rewrite lookup_delete_eq. done.
  - rewrite lookup_delete_eq. split; [done|]. split; [done|]. split; [done|].
    unfold unpark. rewrite list_elem_of_filter. tauto.
Qed.

(** X5. A sender that finds the channel full parks without adding its
    value; it gets through once a receive has made room, and its
    value is then the newest in the buffer. *)
Theorem parked_sender_follows_a_receive s (t u : tid) (v oldest : X) (rest : list X) :
  open (chan s) = true → buffer (chan s) = oldest :: rest →
  size (chan s) = Int.to_size_t (maxSize (chan s)) →
  waiting s !! t = None → waiting s !! u = None → t ≠ u →
  let s1 := step s (Send u v) in
  let s2 := step s1 (Receive t) in
  let s3 := step s2 (Resume u) in
  (waiting s1 !! u = Some (ParkedSend v) ∧ buffer (chan s1) = oldest :: rest ∧
   sent s1 = sent s) ∧
  (received s2 = received s ++ [oldest] ∧ buffer (chan s2) = rest) ∧
  (buffer (chan s3) = rest ++ [v] ∧ sent s3 = sent s ++ [v] ∧
   received s3 = received s ++ [oldest] ∧ waiting s3 !! u = None).
Proof.
  intros Ho Hb Hmax Ht Hu Hne s1 s2 s3.
  assert (E1 : s1 =
    {| chan := {| open := true; buffer := oldest :: rest; maxSize := maxSize (chan s);
                  sender := sender (chan s) ++ [u]; receiver := receiver (chan s) |};
       waiting := <[u := ParkedSend v]> (waiting s);
       sent := sent s; received := received s |}).
  { unfold s1, step. rewrite Hu. unfold send. rewrite Ho. simpl.
    destruct (send_wait_cases u v (chan s)) as [(Hroom & _)|(_ & ->)]; [lia|].
    simpl. by rewrite Ho, Hb. }
  assert (E2 : s2 =
    {| chan := {| open := true; buffer := rest; maxSize := maxSize (chan s);
                  sender := notify_one (sender (chan s) ++ [u]);
                  receiver := receiver (chan s) |};
       waiting := delete t (<[u := ParkedSend v]> (waiting s));
       sent := sent s; received := received s ++ [oldest] |}).
  { unfold s2, step. rewrite E1. simpl.
    rewrite lookup_insert_ne, Ht by done. done. }
  assert (E3 : s3 =
    {| chan := {| open := true; buffer := rest ++ [v]; maxSize := maxSize (chan s);
                  sender := unpark u (notify_one (sender (chan s) ++ [u]));
                  receiver := notify_one (receiver (chan s)) |};
       waiting := delete u (delete t (<[u := ParkedSend v]> (waiting s)));
       sent := sent s ++ [v]; received := received s ++ [oldest] |}).
  { unfold s3, step. rewrite E2. simpl.
    rewrite lookup_delete_ne, lookup_insert_eq by done.
    match goal with |- after_send _ _ _ (send_wait u v ?c) = _ =>
      destruct (send_wait_cases u v c) as [(_ & ->)|(Hfull & _)]; [done|]
    end.
    unfold size in Hfull, Hmax. simpl in Hfull. rewrite Hb in Hmax. simpl in Hmax. lia. }
  rewrite E1, E2, E3. simpl. split; [|split].
  - by rewrite lookup_insert_eq.
  - done.
  - by rewrite lookup_delete_eq.
Qed.

End Facts.

Lemma parked_receiver_takes_next_value_witness :
  let s := fresh (X := nat) 20 in
  received (step (step (step s (Receive 1%nat)) (Send 2%nat 7%nat)) (Resume 1%nat)) = [7%nat].
Proof.
  intros s.
  assert (H1 : open (chan s) = true) by reflexivity.
  assert (H2 : buffer (chan s) = []) by reflexivity.
  assert (H3 : 0 < Int.to_size_t (maxSize (chan s))) by (vm_compute; reflexivity).
  assert (H4 : waiting s !! 1%nat = None) by reflexivity.
  assert (H5 : waiting s !! 2%nat = None) by reflexivity.
  assert (H6 : 1%nat ≠ 2%nat) by lia.
  destruct (parked_receiver_takes_next_value s 1%nat 2%nat 7%nat H1 H2 H3 H4 H5 H6)
    as (_ & _ & H & _).
  exact H.
Defined.

Lemma parked_sender_follows_a_receive_witness :
  let s := {| chan := {| open := true; buffer := [4%nat; 5%nat]; maxSize := 2;
                         sender := []; receiver := [] |};
              waiting := ∅; sent := [4%nat; 5%nat]; received := [] |} in
  buffer (chan (step (step (step s (Send 2%nat 6%nat)) (Receive 1%nat)) (Resume 2%nat)))
    = [5%nat; 6%nat].
Proof.
  intros s.
  assert (H1 : open (chan s) = true) by reflexivity.
  assert (H2 : buffer (chan s) = [4%nat; 5%nat]) by reflexivity.
  assert (H3 : size (chan s) = Int.to_size_t (maxSize (chan s))) by (vm_compute; reflexivity).
  assert (H4 : waiting s !! 1%nat = None) by reflexivity.
  assert (H5 : waiting s !! 2%nat = None) by reflexivity.
  assert (H6 : 1%nat ≠ 2%nat) by lia.
  destruct (parked_sender_follows_a_receive s 1%nat 2%nat 6%nat 4%nat [5%nat]
              H1 H2 H3 H4 H5 H6) as (_ & _ & H & _).
  exact H.
Defined.

End ChannelMore.

Module WriterFacts.
Import Wire Conn Server ServerNotions.

Lemma written_refuses fs msgs : refuses (written fs msgs) = refuses fs.
Proof.
  revert fs. induction msgs as [|m msgs IH]; intros fs; simpl; [done|].
  unfold written in *. simpl. by rewrite IH.
Qed.

Lemma serverLoop_S fuel t w fs :
  serverLoop (S fuel) t w fs =
    match serverLoop_trip t w fs with
    | Again w' fs' => serverLoop fuel t w' fs'
    | other => Some (other, fs)
    end.
Proof. reflexivity. Qed.

Lemma serverLoop_trip_front t w fs buff buf :
  Channel.buffer (stream w) = buff :: buf →
  refuses fs (fileName buff) = false → status_in_reach buff = true →
  serverLoop_trip t w fs =
    Again (set_stream
             {| Channel.open := Channel.open (stream w); Channel.buffer := buf;
                Channel.maxSize := Channel.maxSize (stream w);
                Channel.sender := Channel.notify_one (Channel.sender (stream w));
                Channel.receiver := Channel.receiver (stream w) |} w)
          (write_file (fileName buff) (status buff =? Status.NEW)
             (drop (Z.to_nat sizeof_FTP_PDU) buff) fs).
Proof.
  intros Hb Href Hlong. unfold serverLoop_trip, Channel.isClosed, Channel.size. rewrite Hb.
  replace (Z.of_nat (length (buff :: buf)) =? 0) with false
    by (symmetry; apply Z.eqb_neq; simpl; lia).
  rewrite andb_false_r. rewrite ChannelFacts.receive_cases.
  destruct (ChannelFacts.receive_wait_cases t (stream w))
    as [(d & r & Hd & ->)|[(Hd & _)|(Hd & _)]]; [|congruence..].
  rewrite Hb in Hd. injection Hd as <- <-. unfold serverLoop_body.
  by rewrite Href, Hlong.
Qed.

(** [serverLoop] over a channel that nobody else touches. *)
Lemma serverLoop_drains (t : Channel.tid) (w : FTPFileWriter) (fs : filesystem) :
  Forall (λ buff, refuses fs (fileName buff) = false ∧ status_in_reach buff = true)
    (Channel.buffer (stream w)) →
  ∃ w', Channel.buffer (stream w') = [] ∧ address w' = address w ∧
    serverLoop (S (length (Channel.buffer (stream w)))) t w fs =
      Some (if Channel.open (stream w) then Parked w' else Left w',
            written fs (Channel.buffer (stream w))) ∧
    (if Channel.open (stream w)
     then closed w' = closed w ∧ t ∈ Channel.receiver (stream w')
     else closed w' = true).
Proof.
  destruct w as [cl [o buf mx snd rcv] addr].
  cbn [stream Channel.buffer Channel.open address closed]. revert fs snd.
  induction buf as [|buff buf IH]; intros fs snd Hok.
  - destruct o.
    + eexists. split; [|split; [|split; [reflexivity|]]]; simpl; [done..|].
      split; [done|]. apply elem_of_app. right. by apply list_elem_of_singleton.
    + eexists. split; [|split; [|split; [reflexivity|]]]; done.
  - apply Forall_cons in Hok as [[Hbuff Hlong] Hok].
    assert (Hok' : Forall (λ b, refuses
              (write_file (fileName buff) (status buff =? Status.NEW)
                 (drop (Z.to_nat sizeof_FTP_PDU) buff) fs) (fileName b) = false ∧
              status_in_reach b = true) buf)
      by done.
    destruct (IH _ (Channel.notify_one snd) Hok') as (w' & Hb & Ha & Hrun & Hend).
    exists w'. split; [done|]. split; [done|]. split; [|done].
    change (written fs (buff :: buf)) with
      (written (write_file (fileName buff) (status buff =? Status.NEW)
                  (drop (Z.to_nat sizeof_FTP_PDU) buff) fs) buf).
    rewrite <- Hrun. clear Hrun IH.
    change (length (buff :: buf)) with (S (length buf)).
    rewrite serverLoop_S. erewrite serverLoop_trip_front; [reflexivity|reflexivity|done..].
Qed.

(** X6. A writer left alone with its channel handles every buffered message,
    oldest first, whether the channel is closed or not; it leaves the
    loop when the channel is closed and parks in receive when it is
    open.  The messages are such that their files can be opened and
    that they hold the [status] field (107 bytes or more). *)
Theorem serverLoop_drains_channel (t : Channel.tid) (w : FTPFileWriter) (fs : filesystem) :
  Forall (λ buff, refuses fs (fileName buff) = false ∧ status_in_reach buff = true)
    (Channel.buffer (stream w)) →
  ∃ w', Channel.buffer (stream w') = [] ∧ address w' = address w ∧
    serverLoop (S (length (Channel.buffer (stream w)))) t w fs =
      Some (if Channel.open (stream w) then Parked w' else Left w',
            written fs (Channel.buffer (stream w))) ∧
    (if Channel.open (stream w)
     then closed w' = closed w ∧ t ∈ Channel.receiver (stream w')
     else closed w' = true).
Proof. apply serverLoop_drains. Qed.

Lemma written_other fs msgs other :
  Forall (λ buff, fileName buff ≠ other) msgs →
  files (written fs msgs) !! other = files fs !! other.
Proof.
  revert fs. induction msgs as [|m msgs IH]; intros fs Hall; [done|].
  apply Forall_cons in Hall as [Hm Hall]. unfold written in *. cbn [foldl].
  rewrite IH by done. unfold write_file. cbn [files]. by rewrite lookup_insert_ne.
Qed.

Lemma written_appends fs msgs name before :
  files fs !! name = Some before →
  Forall (λ buff, fileName buff = name ∧ status buff ≠ Status.NEW) msgs →
  files (written fs msgs) !! name =
    Some (before ++ concat (map (drop (Z.to_nat sizeof_FTP_PDU)) msgs)).
Proof.
  revert fs before. induction msgs as [|m msgs IH]; intros fs before Hb Hall.
  - simpl. by rewrite app_nil_r.
  - apply Forall_cons in Hall as [[Hn Hs] Hall]. unfold written in *. cbn [foldl].
    erewrite IH; [|  |done].
    2:{ unfold write_file. cbn [files]. rewrite Hn, lookup_insert_eq, Hb.
        apply Z.eqb_neq in Hs. rewrite Hs. reflexivity. }
    cbn [map concat]. by rewrite <- app_assoc.
Qed.

(** X7. The chunks of one file, each of them long enough to hold the
    [status] field, the first marked NEW and the others not, end up in
    the named file in the order they were queued, whatever the file held
    before; the other files stay as they are. *)
Theorem serverLoop_writes_chunks_in_order (t : Channel.tid) (w : FTPFileWriter)
    (fs : filesystem) (name : string) (first : list byte) (others : list (list byte)) :
  Channel.buffer (stream w) = first :: others →
  refuses fs name = false →
  fileName first = name → status first = Status.NEW →
  Forall (λ buff, fileName buff = name ∧ status buff ≠ Status.NEW) others →
  Forall (λ buff, status_in_reach buff = true) (first :: others) →
  ∃ end_ fs', serverLoop (S (S (length others))) t w fs = Some (end_, fs') ∧
    files fs' !! name =
      Some (concat (map (drop (Z.to_nat sizeof_FTP_PDU)) (first :: others))) ∧
    ∀ other, other ≠ name → files fs' !! other = files fs !! other.
Proof.
  intros Hbuf Href Hname Hnew Hothers Hlong.
  destruct (serverLoop_drains t w fs) as (w' & _ & _ & Hrun & _).
  { rewrite Hbuf. apply Forall_cons in Hlong as [Hfirst Hlong].
    apply Forall_cons. split; [by rewrite Hname|].
    rewrite Forall_forall in *. intros b Hb. destruct (Hothers b Hb) as [-> _]. auto. }
  rewrite Hbuf in Hrun. change (length (first :: others)) with (S (length others)) in Hrun.
  eexists _, _. split; [exact Hrun|]. split.
  - unfold written. cbn [foldl]. fold (written (write_file (fileName first)
      (status first =? Status.NEW) (drop (Z.to_nat sizeof_FTP_PDU) first) fs) others).
    erewrite written_appends; [| |exact Hothers].
    2:{ unfold write_file. cbn [files]. rewrite Hname, lookup_insert_eq, Hnew.
        reflexivity. }
    done.
  - intros other Hne. apply written_other. apply Forall_cons. split; [congruence|].
    eapply Forall_impl; [exact Hothers|]. intros b [-> _]. done.
Qed.

End WriterFacts.

(** ** The header on the wire *)

Module WireMore.
Import Wire IntFacts WireFacts.

Lemma le_split_to_int32 (z : Z) : le_split 4 (Int.to_int32 z) = le_split 4 z.
Proof.
  rewrite (le_split_mod (Int.to_int32 z)), (le_split_mod z). f_equal.
  unfold Int.to_int32. change (2 ^ (Z.of_nat 4 * 8)) with (2 ^ 32).
  rewrite Zminus_mod_idemp_l. f_equal. lia.
Qed.

Lemma le_split_int_at (off : nat) (b : list byte) :
  (off + 4 <= length b)%nat → le_split 4 (int_at off b) = take 4 (drop off b).
Proof.
  intros H. unfold int_at. rewrite le_split_to_int32. apply split_le_combine'.
  rewrite length_take, length_drop. lia.
Qed.

(** X8. A header written to the wire and read back is the same header,
    whatever follows it; a buffer read as a header and written back
    gives its first twenty bytes. *)
Theorem PDU_round_trip (p : PDU) (b rest : list byte) :
  (- 2 ^ 31 <= proto_ver p < 2 ^ 31 ∧ - 2 ^ 31 <= mtype p < 2 ^ 31 ∧
   - 2 ^ 31 <= seqnum p < 2 ^ 31 ∧ - 2 ^ 31 <= dgram_sz p < 2 ^ 31 ∧
   - 2 ^ 31 <= err_num p < 2 ^ 31 →
   PDU_of_bytes (PDU_bytes p ++ rest) = p) ∧
  ((20 <= length b)%nat → PDU_bytes (PDU_of_bytes b) = take 20 b).
Proof.
  split.
  - intros (H0 & H1 & H2 & H3 & H4). rewrite PDU_of_bytes_PDU_bytes.
    rewrite !to_int32_id by done. by destruct p.
  - intros Hb. unfold PDU_bytes, PDU_of_bytes. cbn [proto_ver mtype seqnum dgram_sz err_num].
    rewrite !le_split_int_at by lia.
    destruct (ConnFacts.header_cut b Hb)
      as (a0 & a1 & a2 & a3 & a4 & body & -> & L0 & L1 & L2 & L3 & L4 & _).
    apply ConnFacts.four in L0 as (? & ? & ? & ? & ->).
    apply ConnFacts.four in L1 as (? & ? & ? & ? & ->).
    apply ConnFacts.four in L2 as (? & ? & ? & ? & ->).
    apply ConnFacts.four in L3 as (? & ? & ? & ? & ->).
    apply ConnFacts.four in L4 as (? & ? & ? & ? & ->).
    reflexivity.
Qed.

Lemma PDU_round_trip_witness :
  let p := {| proto_ver := 1; mtype := MsgType.SND; seqnum := 7; dgram_sz := 4;
              err_num := -4 |} in
  PDU_of_bytes (PDU_bytes p ++ [Byte.x61]) = p ∧
  PDU_bytes (PDU_of_bytes (repeat Byte.x01 24)) = take 20 (repeat Byte.x01 24).
Proof.
  intros p. destruct (PDU_round_trip p (repeat Byte.x01 24) [Byte.x61]) as [H1 H2].
  split.
  - apply H1. vm_compute. repeat split; congruence.
  - apply H2. vm_compute. lia.
Defined.

End WireMore.

(** ** Sending and receiving a message *)

Module ConnMore.
Import Wire Conn IntFacts WireFacts ConnFacts ConnNotions WireMore.

(** The header bytes of a buffer decide what it reads as. *)
Lemma PDU_of_bytes_app (hdr rest : list byte) :
  (20 <= length hdr)%nat → PDU_of_bytes (hdr ++ rest) = PDU_of_bytes hdr.
Proof.
  intros L. unfold PDU_of_bytes, int_at.
  assert (E : ∀ k, (k + 4 <= 20)%nat →
            take 4 (drop k (hdr ++ rest)) = take 4 (drop k hdr)).
  { intros k Hk. rewrite drop_app_le by lia. rewrite take_app_le; [done|].
    rewrite length_drop. lia. }
  by rewrite !E by lia.
Qed.

Lemma PDU_of_bytes_fields (a0 a4 : list byte) (mt sq sz : Z) (rest : list byte) :
  length a0 = 4%nat → length a4 = 4%nat →
  let p := PDU_of_bytes (a0 ++ le_split 4 mt ++ le_split 4 sq ++ le_split 4 sz ++ a4 ++ rest) in
  mtype p = Int.to_int32 mt ∧ seqnum p = Int.to_int32 sq ∧ dgram_sz p = Int.to_int32 sz.
Proof.
  intros L0 L4. cbv zeta. unfold PDU_of_bytes. cbn [mtype seqnum dgram_sz]. split; [|split].
  - apply (int_at_split a0). done.
  - rewrite (app_assoc a0). apply int_at_split. rewrite length_app, length_le_split. lia.
  - rewrite (app_assoc a0), (app_assoc (a0 ++ _)). apply int_at_split.
    rewrite !length_app, !length_le_split. lia.
Qed.

Section Facts.
Context `{Kernel}.

(** Where [recvRaw] leaves the endpoint. *)
Lemma recvRaw_conn (c : Connection) (buff : list byte) (buffSz : Z)
    (rx : option datagram) :
  let c' := snd (fst (recvRaw c buff buffSz rx)) in
  udpSock c' = udpSock c ∧ seqNum c' = seqNum c ∧ connected c' = connected c ∧
  inSockAddr c' = inSockAddr c ∧ seqNums c' = seqNums c ∧ _buffer c' = _buffer c ∧
  (isAddrInit (outSockAddr c) = true → isAddrInit (outSockAddr c') = true) ∧
  (match rx with Some d => src d = addr (outSockAddr c) | None => True end →
   addr (outSockAddr c') = addr (outSockAddr c)).
Proof.
  unfold recvRaw. destruct (negb (isAddrInit (inSockAddr c))); [done|].
  destruct rx as [d|]; [|done]. simpl. repeat split; try done. 
Qed.

(** [sendDgram] on an endpoint that is set up, spelt out. *)
Lemma sendDgram_spelt (c : Connection) (sbuff : list byte) (n : Z)
    (rx : option datagram) (a0 a1 a2 a3 a4 body : list byte) :
  isAddrInit (outSockAddr c) = true →
  0 <= n <= Z.of_nat (length sbuff) →
  _buffer c = a0 ++ a1 ++ a2 ++ a3 ++ a4 ++ body →
  length a0 = 4%nat → length a1 = 4%nat → length a2 = 4%nat → length a3 = 4%nat →
  length a4 = 4%nat → length body = 512%nat →
  let sz := Z.min n MAX_BUFF_SZ in
  let mt := if n <=? MAX_BUFF_SZ then MsgType.SND else MsgType.SENDFRAGMENT in
  let hdr := a0 ++ le_split 4 mt ++ le_split 4 (seqNum c) ++ le_split 4 sz ++ a4 in
  let frame := hdr ++ take (Z.to_nat sz) sbuff in
  let c1 :=
    set_seqNum (Int.to_uint32 (seqNum c + (if sz =? 0 then 1 else sz)))
      (set_buffer (frame ++ drop (Z.to_nat sz) body) c) in
  sendDgram c sbuff n rx =
    Sent (Int.to_int32 (Int.to_size_t
            (Int.to_size_t (sendto (udpSock c) (addr (outSockAddr c)) frame) - sizeof_PDU)))
      (snd (fst (recvRaw c1 (repeat Byte.x00 20) sizeof_PDU rx)))
      [Sendto (addr (outSockAddr c)) frame].
Proof.
  intros Hinit Hn Hb L0 L1 L2 L3 L4 Lb sz mt hdr frame c1.
  assert (Hsz : 0 <= sz <= 512) by (unfold sz, MAX_BUFF_SZ; lia).
  assert (Hszn : sz <= Z.of_nat (length sbuff)) by (unfold sz; lia).
  assert (Hsz' : (if n >? MAX_BUFF_SZ then MAX_BUFF_SZ else n) = sz).
  { unfold sz. destruct (Z.gtb_spec n MAX_BUFF_SZ); lia. }
  assert (Hmt' : (if n >? MAX_BUFF_SZ then MsgType.SENDFRAGMENT else MsgType.SND) = mt).
  { unfold mt. destruct (Z.gtb_spec n MAX_BUFF_SZ), (Z.leb_spec n MAX_BUFF_SZ);
      try done; lia. }
  set (payload := take (Z.to_nat sz) sbuff).
  assert (Lp : length payload = Z.to_nat sz).
  { unfold payload. rewrite length_take. lia. }
  assert (Lh : length hdr = 20%nat).
  { unfold hdr. rewrite !length_app, !length_le_split. lia. }
  unfold sendDgram. rewrite Hinit, Hsz', Hmt'. simpl negb. cbv iota.
  replace ((sz <? 0) || (Z.of_nat (length sbuff) <? sz)) with false.
  2: { symmetry. apply orb_false_iff. split; apply Z.ltb_ge; lia. }
  rewrite Hb, header_stores by done.
  replace (a0 ++ le_split 4 mt ++ le_split 4 (seqNum c) ++ le_split 4 sz ++ a4 ++ body)
    with (hdr ++ body) by (unfold hdr; by rewrite <- !app_assoc).
  fold payload.
  assert (Hw : write_at 20 payload (hdr ++ body)
               = hdr ++ payload ++ drop (length payload) body).
  { pose proof (write_at_app_l hdr 0 payload body) as E.
    rewrite Lh in E. simpl in E. rewrite E. done. }
  rewrite Hw.
  replace (Int.to_int32 (Int.to_size_t (Int.to_size_t sz + sizeof_PDU))) with (sz + 20).
  2: { rewrite (to_size_t_id sz) by lia. unfold sizeof_PDU.
       rewrite to_size_t_id by lia. rewrite to_int32_id; lia. }
  unfold sendRaw. simpl outSockAddr. simpl udpSock. rewrite Hinit. simpl negb. cbv iota.
  assert (Hframe : take (Z.to_nat (sz + 20)) (hdr ++ payload ++ drop (length payload) body)
                   = frame).
  { unfold frame. fold payload. rewrite app_assoc. apply take_app_length'.
    rewrite length_app. lia. }
  rewrite Hframe.
  assert (Hc1 : (if sz =? 0
                 then set_seqNum (Int.to_uint32 (seqNum c + 1))
                        (set_buffer (hdr ++ payload ++ drop (length payload) body) c)
                 else set_seqNum (Int.to_uint32 (seqNum c + sz))
                        (set_buffer (hdr ++ payload ++ drop (length payload) body) c))
                = c1).
  { unfold c1, frame. fold payload. rewrite Lp, <- app_assoc.
    by destruct (sz =? 0). }
  cbn [seqNum set_buffer]. 
  match goal with |- context [recvRaw ?x _ _ _] => replace x with c1 end.
  destruct (recvRaw c1 _ _ rx) as [[? c'] ?] eqn:Hr. reflexivity.
Qed.

End Facts.

#[local] Existing Instance healthy.

Lemma buffer_cut (c : Connection) :
  length (_buffer c) = Z.to_nat MAX_DGRAM_SZ →
  ∃ a0 a1 a2 a3 a4 body,
    _buffer c = a0 ++ a1 ++ a2 ++ a3 ++ a4 ++ body ∧
    length a0 = 4%nat ∧ length a1 = 4%nat ∧ length a2 = 4%nat ∧
    length a3 = 4%nat ∧ length a4 = 4%nat ∧ length body = 512%nat.
Proof.
  intros Hlen.
  destruct (header_cut (_buffer c))
    as (a0 & a1 & a2 & a3 & a4 & body & Hb & L0 & L1 & L2 & L3 & L4 & Lb).
  { rewrite Hlen. vm_compute. lia. }
  rewrite Hlen in Lb. change (Z.to_nat MAX_DGRAM_SZ - 20)%nat with 512%nat in Lb.
  by exists a0, a1, a2, a3, a4, body.
Qed.

(** [sendDgram] with a kernel that takes every datagram, on an
    endpoint that can send. *)
Lemma sendDgram_healthy (peer : sockaddr_in) (c : Connection) (sbuff : list byte) (n : Z)
    (rx : option datagram) :
  ready peer c → 0 < n <= Z.of_nat (length sbuff) →
  match rx with Some d => src d = peer | None => True end →
  let sz := Z.min n MAX_BUFF_SZ in
  ∃ c' frame,
    sendDgram c sbuff n rx = Sent sz c' [Sendto peer frame] ∧
    ready peer c' ∧
    payload frame = take (Z.to_nat sz) sbuff ∧
    length frame = Z.to_nat (20 + sz) ∧
    mtype (PDU_of_bytes frame) =
      (if n <=? MAX_BUFF_SZ then MsgType.SND else MsgType.SENDFRAGMENT) ∧
    seqNum c' = Int.to_uint32 (seqNum c + sz) ∧
    connected c' = connected c ∧ inSockAddr c' = inSockAddr c ∧ udpSock c' = udpSock c.
Proof.
  intros (Hinit & Hpeer & Hseq & Hlen) Hn Hrx sz.
  destruct (buffer_cut c Hlen)
    as (a0 & a1 & a2 & a3 & a4 & body & Hb & L0 & L1 & L2 & L3 & L4 & Lb).
  assert (Hsz : 0 < sz <= 512) by (unfold sz, MAX_BUFF_SZ; lia).
  set (mt := if n <=? MAX_BUFF_SZ then MsgType.SND else MsgType.SENDFRAGMENT).
  set (pl := take (Z.to_nat sz) sbuff).
  assert (Lp : length pl = Z.to_nat sz).
  { unfold pl. rewrite length_take. unfold sz. lia. }
  set (frame := (a0 ++ le_split 4 mt ++ le_split 4 (seqNum c) ++ le_split 4 sz ++ a4) ++ pl).
  pose proof (sendDgram_spelt c sbuff n rx a0 a1 a2 a3 a4 body Hinit ltac:(lia) Hb
                L0 L1 L2 L3 L4 Lb) as Hsend.
  cbv zeta in Hsend. fold sz mt pl frame in Hsend.
  replace (sz =? 0) with false in Hsend by (symmetry; apply Z.eqb_neq; lia).
  set (c1 := set_seqNum _ _) in Hsend.
  pose proof (recvRaw_conn c1 (repeat Byte.x00 20) sizeof_PDU rx) as Hc'.
  cbv zeta in Hc'. set (c' := snd (fst (recvRaw c1 _ _ rx))) in *.
  destruct Hc' as (Hu & Hs & Hcn & Hin & _ & Hbuf & Hinit' & Haddr).
  assert (Lf : length frame = Z.to_nat (20 + sz)).
  { unfold frame. rewrite !length_app, !length_le_split, Lp. lia. }
  assert (Hret : Int.to_int32 (Int.to_size_t
            (Int.to_size_t (sendto (udpSock c) (addr (outSockAddr c)) frame) - sizeof_PDU))
            = sz).
  { simpl sendto. rewrite Lf, Z2Nat.id by lia. unfold sizeof_PDU.
    rewrite (to_size_t_id (20 + sz)) by lia. replace (20 + sz - 20) with sz by lia.
    rewrite to_size_t_id by lia. apply to_int32_id. lia. }
  rewrite Hret, Hpeer in Hsend.
  exists c', frame. split; [exact Hsend|].
  destruct (PDU_of_bytes_fields a0 a4 mt (seqNum c) sz pl L0 L4) as (Hmt & _ & _).
  split.
  { unfold ready. split; [by apply Hinit'|]. split.
    - change (addr (outSockAddr c1)) with (addr (outSockAddr c)) in Haddr.
      rewrite Haddr; [done|]. destruct rx; [|done]. by rewrite Hrx, Hpeer.
    - split; [rewrite Hs; apply to_uint32_range|].
      rewrite Hbuf. unfold c1. cbn [_buffer set_seqNum set_buffer].
      rewrite !length_app, Lf, length_drop, Lb. change (Z.to_nat MAX_DGRAM_SZ) with 532%nat.
      lia. }
  split.
  { unfold payload, frame. change (Z.to_nat sizeof_PDU) with 20%nat.
    rewrite drop_app_length'; [done|]. rewrite !length_app, !length_le_split. lia. }
  split; [done|]. split.
  { unfold frame. rewrite <- !app_assoc. rewrite Hmt. unfold mt.
    by destruct (n <=? MAX_BUFF_SZ). }
  split; [by rewrite Hs|]. by rewrite Hcn, Hin, Hu.
Qed.

Lemma framing_nil seq frames : framing seq [] frames → frames = [].
Proof. destruct frames; [done|]. simpl. intros [? _]. done. Qed.

(** The loop of [send] with a kernel that takes every datagram. *)
Lemma send_run (peer : sockaddr_in) (rxs : list (option datagram)) :
  ∀ (c : Connection) (sbuff : list byte) (n total : Z) (log : list event)
    (a0 a1 a2 a3 a4 body : list byte),
    isAddrInit (outSockAddr c) = true → addr (outSockAddr c) = peer →
    0 <= seqNum c < 2 ^ 32 →
    _buffer c = a0 ++ a1 ++ a2 ++ a3 ++ a4 ++ body →
    length a0 = 4%nat → length a1 = 4%nat → length a2 = 4%nat → length a3 = 4%nat →
    length a4 = 4%nat → length body = 512%nat →
    0 <= n <= Z.of_nat (length sbuff) → 0 <= total → total + n < 2 ^ 31 →
    n <= 512 * Z.of_nat (length rxs) → all_from peer rxs →
    ∃ c' frames,
      send c sbuff n total log rxs =
        Ended (total + n) c' [] (log ++ map (Sendto peer) frames) ∧
      framing (seqNum c) (take (Z.to_nat n) sbuff) frames ∧
      seqNum c' = Int.to_uint32 (seqNum c + n) ∧
      Z.of_nat (length frames) = (n + 511) / 512 ∧
      connected c' = connected c ∧ inSockAddr c' = inSockAddr c ∧
      udpSock c' = udpSock c.
Proof.
  induction rxs as [|rx rxs IH];
    intros c sbuff n total log a0 a1 a2 a3 a4 body Hinit Hpeer Hseq Hb L0 L1 L2 L3 L4 Lb
      Hn Htot Hsum Hfuel Hfrom.
  - assert (n = 0) as -> by (simpl in Hfuel; lia).
    exists c, []. simpl. rewrite app_nil_r, !Z.add_0_r, take_0.
    rewrite to_uint32_id by done. done.
  - destruct (Z.eq_dec n 0) as [->|Hn0].
    { exists c, []. simpl. rewrite app_nil_r, !Z.add_0_r, take_0.
      rewrite to_uint32_id by done. done. }
    set (sz := Z.min n MAX_BUFF_SZ).
    assert (Hsz : 0 < sz <= 512) by (unfold sz, MAX_BUFF_SZ; lia).
    set (mt := if n <=? MAX_BUFF_SZ then MsgType.SND else MsgType.SENDFRAGMENT).
    set (payload := take (Z.to_nat sz) sbuff).
    assert (Lp : length payload = Z.to_nat sz).
    { unfold payload. rewrite length_take. unfold sz. lia. }
    set (frame := (a0 ++ le_split 4 mt ++ le_split 4 (seqNum c) ++ le_split 4 sz ++ a4)
                    ++ payload).
    pose proof (sendDgram_spelt c sbuff n rx a0 a1 a2 a3 a4 body Hinit Hn Hb
                  L0 L1 L2 L3 L4 Lb) as Hsend.
    cbv zeta in Hsend. fold sz mt payload frame in Hsend.
    replace (sz =? 0) with false in Hsend by (symmetry; apply Z.eqb_neq; lia).
    set (c1 := set_seqNum _ _) in Hsend.
    pose proof (recvRaw_conn c1 (repeat Byte.x00 20) sizeof_PDU rx) as Hc'.
    cbv zeta in Hc'. set (c' := snd (fst (recvRaw c1 _ _ rx))) in *.
    destruct Hc' as (Hu & Hs & Hcn & Hin & _ & Hbuf & Hinit' & Haddr).
    apply Forall_cons in Hfrom as [Hrx Hfrom].
    assert (Lf : length frame = Z.to_nat (20 + sz)).
    { unfold frame. rewrite !length_app, !length_le_split, Lp. lia. }
    assert (Hret : Int.to_int32 (Int.to_size_t
              (Int.to_size_t (sendto (udpSock c) (addr (outSockAddr c)) frame) - sizeof_PDU))
              = sz).
    { simpl sendto. rewrite Lf, Z2Nat.id by lia. unfold sizeof_PDU.
      rewrite (to_size_t_id (20 + sz)) by lia. replace (20 + sz - 20) with sz by lia.
      rewrite to_size_t_id by lia. apply to_int32_id. lia. }
    rewrite Hret in Hsend.
    destruct (IH c' (drop (Z.to_nat sz) sbuff) (n - sz) (total + sz)
                (log ++ [Sendto peer frame]) a0 (le_split 4 mt) (le_split 4 (seqNum c))
                (le_split 4 sz) a4 (payload ++ drop (Z.to_nat sz) body))
      as (c2 & frames & Hrun & Hframes & Hseq2 & Hcount & Hcn2 & Hin2 & Hu2).
    { by apply Hinit'. }
    { rewrite Haddr; [done|]. destruct rx; [|done]. by rewrite Hrx. }
    { rewrite Hs. apply to_uint32_range. }
    { rewrite Hbuf. unfold c1, frame. cbn [_buffer set_seqNum set_buffer].
      by rewrite <- !app_assoc. }
    { done. } { apply length_le_split. } { apply length_le_split. }
    { apply length_le_split. } { done. }
    { rewrite length_app, length_drop, Lp. lia. }
    { rewrite length_drop. unfold sz, MAX_BUFF_SZ. lia. }
    { lia. } { lia. }
    { unfold sz, MAX_BUFF_SZ. simpl length in Hfuel. lia. }
    { done. }
    exists c2, (frame :: frames).
    split; [|split; [|split; [|split; [|split; [|split]]]]].
    + cbn [send]. replace (n >? 0) with true by (symmetry; apply Z.gtb_lt; lia).
      rewrite Hsend, Hpeer.
      replace (sz <=? 0) with false by (symmetry; apply Z.leb_gt; lia).
      rewrite (to_int32_id (n - sz)) by (unfold sz, MAX_BUFF_SZ; lia).
      rewrite (to_int32_id (total + sz)) by (unfold sz, MAX_BUFF_SZ; lia).
      rewrite Hrun. replace (total + sz + (n - sz)) with (total + n) by lia.
      by rewrite <- app_assoc.
    + assert (Lbs : Z.of_nat (length (take (Z.to_nat n) sbuff)) = n).
      { rewrite length_take. lia. }
      cbn [framing]. rewrite Lbs. fold sz. fold mt.
      destruct (PDU_of_bytes_fields a0 a4 mt (seqNum c) sz payload L0 L4)
        as (Hmt & Hsq & Hdz).
      unfold frame. rewrite <- !app_assoc.
      split. { intros E. rewrite E in Lbs. simpl in Lbs. lia. }
      split. { rewrite Hmt. unfold mt. by destruct (n <=? MAX_BUFF_SZ). }
      split; [exact Hsq|].
      split. { rewrite Hdz. apply to_int32_id. lia. }
      split.
      { unfold ConnNotions.payload. change (Z.to_nat sizeof_PDU) with 20%nat.
        rewrite !app_assoc. rewrite drop_app_length'.
        2:{ rewrite !length_app, !length_le_split. lia. }
        unfold payload. rewrite take_take. f_equal. unfold sz. lia. }
      rewrite Hs in Hframes. unfold c1 in Hframes. cbn [seqNum set_seqNum] in Hframes.
      replace (drop (Z.to_nat sz) (take (Z.to_nat n) sbuff))
        with (take (Z.to_nat (n - sz)) (drop (Z.to_nat sz) sbuff)); [done|].
      rewrite take_drop_commute. f_equal. f_equal. unfold sz. lia.
    + rewrite Hseq2, Hs. unfold c1. cbn [seqNum set_seqNum].
      rewrite to_uint32_add_l. f_equal. lia.
    + cbn [length]. rewrite Nat2Z.inj_succ, Hcount.
      replace (n + 511) with ((n - sz + 511) + 1 * 512 - (512 - sz)) by lia.
      destruct (Z.leb_spec n 512).
      * replace sz with n by (unfold sz, MAX_BUFF_SZ; lia).
        replace (n - n + 511) with 511 by lia.
        replace (511 + 1 * 512 - (512 - n)) with (n + 511) by lia.
        change (511 / 512) with 0.
        assert (1 <= (n + 511) / 512 < 2); [|lia].
        split; [apply Z.div_le_lower_bound; lia|apply Z.div_lt_upper_bound; lia].
      * replace sz with 512 by (unfold sz, MAX_BUFF_SZ; lia).
        replace (n - 512 + 511 + 1 * 512 - (512 - 512)) with (n - 512 + 511 + 1 * 512) by lia.
        rewrite Z.div_add by lia. lia.
    + rewrite Hcn2, Hcn. done.
    + rewrite Hin2, Hin. done.
    + rewrite Hu2, Hu. done.
Qed.

(** [recvDgram], called as [recv] calls it, on a data frame that passes
    the validations. *)
Lemma recvDgram_data (r : Connection) (a : sockaddr_in) (frame : list byte) :
  isAddrInit (inSockAddr r) = true →
  (20 <= length frame <= 532)%nat →
  dgram_sz (PDU_of_bytes frame) <= 532 →
  mtype (PDU_of_bytes frame) = MsgType.SND ∨
    mtype (PDU_of_bytes frame) = MsgType.SENDFRAGMENT →
  let r1 :=
    set_seqNum (advance (seqNum r) NO_ERROR (dgram_sz (PDU_of_bytes frame)))
      (set_outSockAddr {| len := len (outSockAddr r); isAddrInit := true; addr := a |} r) in
  recvDgram r (repeat Byte.x00 (Z.to_nat MAX_DGRAM_SZ)) MAX_DGRAM_SZ
      (Some {| src := a; data := frame |}) =
    mkReceived (Z.of_nat (length frame)) r1 (frame ++ repeat Byte.x00 (532 - length frame))
      [Sendto a (PDU_bytes (outPdu_for (seqNum r1) NO_ERROR
                              (Z.lor (mtype (PDU_of_bytes frame)) MsgType.ACK)))].
Proof.
  intros Hin Hlen Hsz Hmt r1. unfold recvDgram.
  change (MAX_DGRAM_SZ >? MAX_DGRAM_SZ) with false. cbv iota.
  rewrite recvRaw_datagram by (done || vm_compute; split; congruence).
  change (Z.to_nat MAX_DGRAM_SZ) with 532%nat.
  rewrite (take_ge frame) by lia.
  assert (Hbuf : write_at 0 frame (repeat Byte.x00 532)
                 = frame ++ repeat Byte.x00 (532 - length frame)).
  { unfold write_at. rewrite take_0, app_nil_l, Nat.add_0_l. by rewrite drop_repeat. }
  rewrite Hbuf, PDU_of_bytes_app by lia.
  rewrite classify_cases by lia.
  replace (dgram_sz (PDU_of_bytes frame) >? MAX_DGRAM_SZ) with false
    by (symmetry; rewrite Z.gtb_ltb; apply Z.ltb_ge; unfold MAX_DGRAM_SZ, MAX_BUFF_SZ, sizeof_PDU; lia).
  replace (Z.of_nat (length frame) <? sizeof_PDU) with false
    by (symmetry; apply Z.ltb_ge; unfold sizeof_PDU; lia).
  change (negb (NO_ERROR =? NO_ERROR)) with false. cbv iota. fold r1.
  destruct Hmt as [Hmt|Hmt]; rewrite Hmt.
  - change (Z.land MsgType.SND MsgType.FRAGMENT =? MsgType.FRAGMENT) with false. cbv iota.
    unfold recvDgram_switch. rewrite Hmt.
    change (MsgType.SND =? MsgType.SND) with true. cbv iota.
    rewrite sendRaw_bound by done. reflexivity.
  - change (Z.land MsgType.SENDFRAGMENT MsgType.FRAGMENT =? MsgType.FRAGMENT) with true.
    cbv iota. rewrite sendRaw_bound by done. reflexivity.
Qed.

Lemma take_repeat {A : Type} (x : A) (n m : nat) :
  take n (repeat x m) = repeat x (n `min` m).
Proof.
  revert n. induction m as [|m IH]; intros [|n]; simpl; try done. by rewrite IH.
Qed.

Lemma take_plus {A : Type} (l : list A) (n m : nat) :
  (n <= length l)%nat → take (n + m) l = take n l ++ take m (drop n l).
Proof.
  intros Hn. rewrite <- (take_drop n l) at 1.
  rewrite take_app_add'; [done|]. rewrite length_take. lia.
Qed.

Lemma write_at_nil (off : nat) (out : list byte) : write_at off [] out = out.
Proof. unfold write_at. simpl. rewrite Nat.add_0_r. apply take_drop. Qed.

Lemma write_at_app (off : nat) (A B out : list byte) :
  (off <= length out)%nat →
  write_at (off + length A) B (write_at off A out) = write_at off (A ++ B) out.
Proof.
  intros Hoff. unfold write_at.
  set (P := take off out ++ A). set (D := drop (off + length A) out).
  assert (L : length P = (off + length A)%nat).
  { unfold P. rewrite length_app, length_take. lia. }
  replace (take off out ++ A ++ D) with (P ++ D) by (unfold P; by rewrite <- app_assoc).
  rewrite <- L, take_app_length, drop_app_add. unfold D. rewrite drop_drop.
  unfold P. rewrite <- !app_assoc. do 3 f_equal.
  rewrite length_app. f_equal. lia.
Qed.

Lemma recv_copied_small (total len buffSz : Z) :
  0 <= total <= buffSz → buffSz < 2 ^ 31 → 20 <= len <= 532 →
  recv_copied total len buffSz = Z.min (len - 20) (buffSz - total).
Proof.
  intros Ht Hb Hl. unfold recv_copied, sizeof_PDU.
  rewrite (to_size_t_id total), (to_size_t_id len), (to_size_t_id (len - 20)),
    (to_size_t_id (total + (len - 20))), (to_size_t_id buffSz) by lia.
  destruct (Z.gtb_spec (total + (len - 20)) buffSz); rewrite to_int32_id; lia.
Qed.

(** The loop of [recv] over the frames of one message. *)
Lemma recv_run (a : sockaddr_in) (frames : list (list byte)) :
  ∀ (r : Connection) (out : list byte) (buffSz total : Z) (log : list event)
    (seq : Z) (bs : list byte),
    isAddrInit (inSockAddr r) = true → 0 <= seqNum r < 2 ^ 32 →
    framing seq bs frames → bs ≠ [] →
    0 <= total <= buffSz → buffSz <= Z.of_nat (length out) → buffSz < 2 ^ 31 →
    ∃ r' acks,
      recv r out buffSz total log (map (λ f, Some {| src := a; data := f |}) frames) =
        Ended (Z.min (total + Z.of_nat (length bs)) buffSz) r'
          (write_at (Z.to_nat total) (take (Z.to_nat (buffSz - total)) bs) out)
          (log ++ map (Sendto a) acks) ∧
      seqNum r' = Int.to_uint32 (seqNum r + Z.of_nat (length bs)) ∧
      map (λ k, mtype (PDU_of_bytes k)) acks =
        map (λ f, Z.lor (mtype (PDU_of_bytes f)) MsgType.ACK) frames ∧
      inSockAddr r' = inSockAddr r ∧ connected r' = connected r ∧
      udpSock r' = udpSock r.
Proof.
  induction frames as [|frame rest IH];
    intros r out buffSz total log seq bs Hin Hseq Hfr Hbs Htot Hout Hmax.
  { simpl in Hfr. done. }
  cbn [framing] in Hfr. destruct Hfr as (_ & Hmt & _ & Hdz & Hpay & Hrest).
  set (len := Z.of_nat (length bs)) in *.
  assert (Hlen : 0 < len).
  { unfold len. destruct bs; [done|]. simpl. lia. }
  set (sz := Z.min len MAX_BUFF_SZ) in *.
  assert (Hsz : 0 < sz <= 512) by (unfold sz, MAX_BUFF_SZ; lia).
  assert (Lpay : length (payload frame) = Z.to_nat sz).
  { rewrite Hpay, length_take. unfold sz, len. lia. }
  assert (Lf : length frame = Z.to_nat (20 + sz)).
  { unfold payload in Lpay. rewrite length_drop in Lpay.
    change (Z.to_nat sizeof_PDU) with 20%nat in Lpay. lia. }
  assert (Hkind : mtype (PDU_of_bytes frame) = MsgType.SND ∨
                  mtype (PDU_of_bytes frame) = MsgType.SENDFRAGMENT).
  { rewrite Hmt. destruct (len <=? MAX_BUFF_SZ); auto. }
  pose proof (recvDgram_data r a frame Hin ltac:(lia) ltac:(lia) Hkind) as Hr.
  cbv zeta in Hr. rewrite Hdz in Hr.
  assert (Hadv : advance (seqNum r) NO_ERROR sz = Int.to_uint32 (seqNum r + sz)).
  { unfold advance. change (NO_ERROR =? NO_ERROR) with true. cbv iota.
    replace (sz =? 0) with false by (symmetry; apply Z.eqb_neq; lia). done. }
  rewrite Hadv in Hr.
  set (r1 := set_seqNum _ _) in Hr.
  set (copied := Z.min sz (buffSz - total)).
  assert (Hcopied : recv_copied total (Z.of_nat (length frame)) buffSz = copied).
  { rewrite recv_copied_small by lia. unfold copied. f_equal. lia. }
  assert (Htake : take (Z.to_nat copied)
                    (drop (Z.to_nat sizeof_PDU) (frame ++ repeat Byte.x00 (532 - length frame)))
                  = take (Z.to_nat copied) bs).
  { change (Z.to_nat sizeof_PDU) with 20%nat. rewrite drop_app_le by lia.
    fold (payload frame). change (drop 20 frame) with (payload frame).
    rewrite take_app_le by (rewrite Lpay; unfold copied; lia).
    rewrite Hpay, take_take. f_equal. unfold copied. lia. }
  assert (Hmt' : mtype (PDU_of_bytes (frame ++ repeat Byte.x00 (532 - length frame)))
                 = mtype (PDU_of_bytes frame)).
  { rewrite PDU_of_bytes_app by lia. done. }
  assert (Hack : mtype (PDU_of_bytes (PDU_bytes (outPdu_for (seqNum r1) NO_ERROR
                    (Z.lor (mtype (PDU_of_bytes frame)) MsgType.ACK))))
                 = Z.lor (mtype (PDU_of_bytes frame)) MsgType.ACK).
  { rewrite <- (app_nil_r (PDU_bytes _)), PDU_of_bytes_PDU_bytes. cbn [mtype outPdu_for].
    destruct Hkind as [-> | ->]; done. }
  cbn [map recv]. rewrite Hr. cbn [rd_ret rd_conn rd_buff rd_log].
  replace (Z.of_nat (length frame) =? CONNECTION_CLOSED) with false
    by (symmetry; apply Z.eqb_neq; unfold CONNECTION_CLOSED; lia).
  rewrite Hcopied, Htake, Hmt'.
  replace ((copied <? 0) || (MAX_BUFF_SZ <? copied)
           || (Z.of_nat (length out) <? total + copied)) with false.
  2:{ symmetry. rewrite !orb_false_iff. unfold MAX_BUFF_SZ.
      repeat split; apply Z.ltb_ge; unfold copied; lia. }
  rewrite (to_int32_id (total + copied)) by (unfold copied; lia).
  destruct (Z.leb_spec len MAX_BUFF_SZ) as [Hshort|Hlong].
  - rewrite Hmt.
    change (Z.land MsgType.SND MsgType.FRAGMENT =? MsgType.FRAGMENT) with false.
    cbv iota.
    assert (rest = []) as ->.
    { apply (framing_nil (Int.to_uint32 (seq + sz))).
      replace (drop (Z.to_nat sz) bs) with (@nil byte) in Hrest; [done|].
      symmetry. apply drop_ge. unfold sz, len in *. lia. }
    eexists _, [_]. split; [|split; [|split]].
    + cbn [map]. f_equal.
      * unfold copied, sz, len in *. lia.
      * f_equal. unfold copied, sz. fold len.
        destruct (Z.le_gt_cases len (buffSz - total)).
        -- rewrite !take_ge; [done|unfold len in *; lia..].
        -- f_equal. lia.
    + cbn [seqNum set_buffer]. unfold r1. cbn [seqNum set_seqNum]. f_equal.
      unfold sz. lia.
    + cbn [map]. rewrite Hmt in Hack. rewrite Hack. done.
    + done.
  - rewrite Hmt.
    change (Z.land MsgType.SENDFRAGMENT MsgType.FRAGMENT =? MsgType.FRAGMENT) with true.
    cbv iota.
    assert (Hsz512 : sz = 512) by (unfold sz, MAX_BUFF_SZ in *; lia).
    set (bs' := drop (Z.to_nat sz) bs) in *.
    assert (Lbs' : Z.of_nat (length bs') = len - 512).
    { unfold bs'. rewrite length_drop. unfold len, MAX_BUFF_SZ in *. lia. }
    assert (Hbs' : bs' ≠ []).
    { intros E. rewrite E in Lbs'. simpl in Lbs'. unfold MAX_BUFF_SZ in *. lia. }
    set (r2 := set_buffer _ r1).
    set (out1 := write_at (Z.to_nat total) (take (Z.to_nat copied) bs) out).
    destruct (IH r2 out1 buffSz (total + copied)
                (log ++ [Sendto a (PDU_bytes (outPdu_for (seqNum r1) NO_ERROR
                    (Z.lor MsgType.SENDFRAGMENT MsgType.ACK)))])
                (Int.to_uint32 (seq + sz)) bs')
      as (r' & acks & Hrun & Hseq' & Hacks & Hin' & Hcn' & Hu').
    { done. }
    { unfold r2, r1. cbn [seqNum set_buffer set_seqNum]. apply to_uint32_range. }
    { done. } { done. }
    { unfold copied. lia. }
    { unfold out1. rewrite write_at_length; [done|].
      rewrite length_take. unfold copied, len in *. lia. }
    { done. }
    exists r', (PDU_bytes (outPdu_for (seqNum r1) NO_ERROR
                 (Z.lor MsgType.SENDFRAGMENT MsgType.ACK)) :: acks).
    split; [|split; [|split]].
    + rewrite Hrun. f_equal.
      * rewrite Lbs'. unfold copied. unfold MAX_BUFF_SZ in *. lia.
      * unfold out1.
        destruct (Z.le_gt_cases sz (buffSz - total)) as [Hfit|Hcut].
        -- assert (copied = sz) as -> by (unfold copied; lia).
           replace (Z.to_nat (total + sz))
             with (Z.to_nat total + length (take (Z.to_nat sz) bs))%nat
             by (rewrite length_take; unfold len in *; lia).
           rewrite write_at_app by lia. f_equal.
           replace (Z.to_nat (buffSz - total))
             with (Z.to_nat sz + Z.to_nat (buffSz - (total + sz)))%nat by lia.
           unfold bs'. rewrite take_plus by (unfold len in *; lia). done.
        -- assert (copied = buffSz - total) as -> by (unfold copied; lia).
           replace (buffSz - (total + (buffSz - total))) with 0 by lia.
           change (Z.to_nat 0) with 0%nat. rewrite take_0. apply write_at_nil.
      * by rewrite <- app_assoc.
    + rewrite Hseq'. unfold r2, r1. cbn [seqNum set_buffer set_seqNum].
      rewrite to_uint32_add_l, Lbs'. f_equal. lia.
    + cbn [map]. rewrite Hacks. rewrite Hmt in Hack. by f_equal.
    + rewrite Hin', Hcn', Hu'. done.
Qed.

Lemma framing_concat (frames : list (list byte)) :
  ∀ seq bs, framing seq bs frames → concat (map payload frames) = bs.
Proof.
  induction frames as [|frame rest IH]; intros seq bs Hfr.
  - simpl in *. done.
  - cbn [framing] in Hfr. destruct Hfr as (_ & _ & _ & _ & Hpay & Hrest).
    cbn [map concat]. rewrite Hpay, (IH _ _ Hrest). apply take_drop.
Qed.

Lemma wire_frames (a : sockaddr_in) (frames : list (list byte)) :
  wire (map (Sendto a) frames) = frames.
Proof. induction frames as [|f fs IH]; simpl; [done|]. by f_equal. Qed.

(** X9. [send] of [n] bytes, with a kernel that takes every datagram and
    as many answers as there are frames to send: it returns [n]; the
    frames go to the peer, each with up to 512 of the bytes, in order,
    a SENDFRAGMENT while more is left and a SND at the end; the counter
    of the endpoint advances by [n]. *)
Theorem send_splits_into_frames (c : Connection) (sbuff : list byte) (n : Z)
    (rxs : list (option datagram)) :
  isAddrInit (outSockAddr c) = true → 0 <= seqNum c < 2 ^ 32 →
  length (_buffer c) = Z.to_nat MAX_DGRAM_SZ →
  0 <= n <= Z.of_nat (length sbuff) → n < 2 ^ 31 →
  n <= 512 * Z.of_nat (length rxs) → all_from (addr (outSockAddr c)) rxs →
  ∃ c' frames,
    send c sbuff n 0 [] rxs = Ended n c' [] (map (Sendto (addr (outSockAddr c))) frames) ∧
    framing (seqNum c) (take (Z.to_nat n) sbuff) frames ∧
    concat (map payload frames) = take (Z.to_nat n) sbuff ∧
    Z.of_nat (length frames) = (n + 511) / 512 ∧
    seqNum c' = Int.to_uint32 (seqNum c + n).
Proof.
  intros Hinit Hseq Hlen Hn Hmax Hfuel Hfrom.
  destruct (buffer_cut c Hlen) as (a0 & a1 & a2 & a3 & a4 & body & Hb & L0 & L1 & L2 & L3 & L4 & Lb).
  destruct (send_run (addr (outSockAddr c)) rxs c sbuff n 0 [] a0 a1 a2 a3 a4 body)
    as (c' & frames & Hrun & Hfr & Hs & Hcount & _); try done; try lia.
  exists c', frames. rewrite Z.add_0_l in Hrun. simpl in Hrun.
  repeat split; try done. by eapply framing_concat.
Qed.

(** X10. [recv] into a buffer of [buffSz] bytes, fed the frames of one
    message of [bs] bytes: it acknowledges every frame with the
    acknowledgement of its type, puts the bytes in order at the start
    of the caller's buffer, at most [buffSz] of them, leaves the rest
    of the buffer alone, and returns the number of bytes it has put
    there; the counter of the endpoint advances by the length of
    [bs]. *)
Theorem recv_reassembles (r : Connection) (a : sockaddr_in) (frames : list (list byte))
    (seq : Z) (bs out : list byte) (buffSz : Z) :
  isAddrInit (inSockAddr r) = true → 0 <= seqNum r < 2 ^ 32 →
  framing seq bs frames → bs ≠ [] →
  0 <= buffSz <= Z.of_nat (length out) → buffSz < 2 ^ 31 →
  let m := Z.min (Z.of_nat (length bs)) buffSz in
  ∃ r' acks,
    recv r out buffSz 0 [] (map (λ f, Some {| src := a; data := f |}) frames) =
      Ended m r' (take (Z.to_nat m) bs ++ drop (Z.to_nat m) out) (map (Sendto a) acks) ∧
    map (λ k, mtype (PDU_of_bytes k)) acks =
      map (λ f, Z.lor (mtype (PDU_of_bytes f)) MsgType.ACK) frames ∧
    seqNum r' = Int.to_uint32 (seqNum r + Z.of_nat (length bs)).
Proof.
  intros Hin Hseq Hfr Hbs Hsz Hmax m.
  destruct (recv_run a frames r out buffSz 0 [] seq bs)
    as (r' & acks & Hrun & Hs & Hacks & _); try done; try lia.
  exists r', acks. split; [|done].
  rewrite Hrun. rewrite Z.add_0_l, Z.sub_0_r. fold m. simpl app. f_equal.
  unfold write_at. change (Z.to_nat 0) with 0%nat. rewrite take_0, app_nil_l, Nat.add_0_l.
  assert (E : take (Z.to_nat buffSz) bs = take (Z.to_nat m) bs).
  { unfold m. destruct (Z.le_gt_cases (Z.of_nat (length bs)) buffSz).
    - rewrite !take_ge; [done|lia..].
    - f_equal. lia. }
  rewrite E. f_equal. f_equal. rewrite length_take. unfold m. lia.
Qed.

(** X11. What [send] puts on the wire, [recv] at the other end turns back
    into the bytes sent, and the counters of the two endpoints advance
    by the same amount. *)
Theorem send_recv_round_trip (c r : Connection) (sbuff out : list byte) (n buffSz : Z)
    (rxs : list (option datagram)) (a : sockaddr_in) :
  isAddrInit (outSockAddr c) = true → 0 <= seqNum c < 2 ^ 32 →
  length (_buffer c) = Z.to_nat MAX_DGRAM_SZ →
  0 < n <= Z.of_nat (length sbuff) →
  n <= 512 * Z.of_nat (length rxs) → all_from (addr (outSockAddr c)) rxs →
  isAddrInit (inSockAddr r) = true → 0 <= seqNum r < 2 ^ 32 →
  n <= buffSz <= Z.of_nat (length out) → buffSz < 2 ^ 31 →
  ∃ c' sent r' acks,
    send c sbuff n 0 [] rxs = Ended n c' [] sent ∧
    recv r out buffSz 0 [] (map (λ f, Some {| src := a; data := f |}) (wire sent)) =
      Ended n r' (take (Z.to_nat n) sbuff ++ drop (Z.to_nat n) out) acks ∧
    length (wire acks) = length (wire sent) ∧
    seqNum c' = Int.to_uint32 (seqNum c + n) ∧
    seqNum r' = Int.to_uint32 (seqNum r + n).
Proof.
  intros Hinit Hseq Hlen Hn Hfuel Hfrom Hin Hseqr Hsz Hmax.
  destruct (buffer_cut c Hlen) as (a0 & a1 & a2 & a3 & a4 & body & Hb & L0 & L1 & L2 & L3 & L4 & Lb).
  destruct (send_run (addr (outSockAddr c)) rxs c sbuff n 0 [] a0 a1 a2 a3 a4 body)
    as (c' & frames & Hrun & Hfr & Hs & Hcount & _); try done; try lia.
  rewrite Z.add_0_l in Hrun. simpl in Hrun.
  assert (Lbs : Z.of_nat (length (take (Z.to_nat n) sbuff)) = n).
  { rewrite length_take. lia. }
  assert (Hbs : take (Z.to_nat n) sbuff ≠ []).
  { intros E. rewrite E in Lbs. simpl in Lbs. lia. }
  destruct (recv_run a frames r out buffSz 0 [] (seqNum c) (take (Z.to_nat n) sbuff))
    as (r' & acks & Hrecv & Hsr & Hacks & _); try done; try lia.
  exists c', (map (Sendto (addr (outSockAddr c))) frames), r', (map (Sendto a) acks).
  split; [done|]. rewrite !wire_frames. split; [|split; [|split]].
  - rewrite Hrecv. rewrite Lbs, Z.add_0_l, Z.sub_0_r, Z.min_l by lia. simpl app. f_equal.
    unfold write_at. change (Z.to_nat 0) with 0%nat.
    rewrite take_0, app_nil_l, Nat.add_0_l. rewrite take_take.
    replace (Z.to_nat buffSz `min` Z.to_nat n)%nat with (Z.to_nat n) by lia.
    f_equal. f_equal. rewrite length_take. lia.
  - apply (f_equal length) in Hacks. by rewrite !length_map in Hacks.
  - done.
  - by rewrite Hsr, Lbs.
Qed.

End ConnMore.

(** ** Failures and the two handshakes of the endpoint *)

Module ConnEdges.
Import Wire Conn IntFacts WireFacts ConnFacts ConnNotions WireMore ConnMore.

Section Facts.
Context `{Kernel}.

(** X12. A [recvfrom] that fails is not noticed by [recvDgram]: the [-1] is
    compared as a [size_t], so the caller's buffer is taken for a
    frame as it stands; the counter advances as for a frame that
    passes, no ERROR goes out, and the value returned is negative. *)
Theorem recvDgram_failed_recvfrom (c : Connection) (buff : list byte) (buffSz : Z) :
  buffSz <= MAX_DGRAM_SZ →
  dgram_sz (PDU_of_bytes buff) <= buffSz →
  let r := recvDgram c buff buffSz None in
  seqNum (rd_conn r) = advance (seqNum c) NO_ERROR (dgram_sz (PDU_of_bytes buff)) ∧
  rd_buff r = buff ∧
  Forall (λ k, mtype (PDU_of_bytes k) ≠ MsgType.ERROR) (wire (rd_log r)) ∧
  (rd_ret r = -1 ∨ rd_ret r = ERROR_PROTOCOL ∨ rd_ret r = CONNECTION_CLOSED).
Proof.
  intros Hsz Hdz r. unfold r, recvDgram.
  replace (buffSz >? MAX_DGRAM_SZ) with false
    by (symmetry; rewrite Z.gtb_ltb; apply Z.ltb_ge; lia).
  assert (Hraw : recvRaw c buff buffSz None = (-1, c, buff)).
  { unfold recvRaw. by destruct (negb _). }
  rewrite Hraw. unfold classify.
  change (Int.to_size_t (-1) <? sizeof_PDU) with false. cbv iota zeta.
  replace (dgram_sz (PDU_of_bytes buff) >? buffSz) with false
    by (symmetry; rewrite Z.gtb_ltb; apply Z.ltb_ge; lia).
  change (negb (NO_ERROR =? NO_ERROR)) with false. cbv iota.
  set (c1 := set_seqNum _ c).
  assert (Hack : ∀ mt, mt ≠ MsgType.ERROR → - 2 ^ 31 <= mt < 2 ^ 31 →
            mtype (PDU_of_bytes (take (Z.to_nat sizeof_PDU)
                     (PDU_bytes (outPdu_for (seqNum c1) NO_ERROR mt)))) ≠ MsgType.ERROR).
  { intros mt Hmt Hr. change (Z.to_nat sizeof_PDU) with 20%nat.
    rewrite take_ge by (rewrite length_PDU_bytes; lia).
    rewrite <- (app_nil_r (PDU_bytes _)), PDU_of_bytes_PDU_bytes. cbn [mtype outPdu_for].
    by rewrite to_int32_id. }
  assert (Hsw : ∀ mt, mt ≠ MsgType.ERROR → - 2 ^ 31 <= mt < 2 ^ 31 →
            Forall (λ k, mtype (PDU_of_bytes k) ≠ MsgType.ERROR)
              (wire (snd (sendRaw c1 (PDU_bytes (outPdu_for (seqNum c1) NO_ERROR mt))
                            sizeof_PDU)))).
  { intros mt Hmt Hr. unfold sendRaw. destruct (negb _); simpl; [done|].
    apply Forall_cons. split; [by apply Hack|done]. }
  destruct (Z.land (mtype (PDU_of_bytes buff)) MsgType.FRAGMENT =? MsgType.FRAGMENT).
  { pose proof (Hsw MsgType.SENDFRAGMENTACK ltac:(done) ltac:(done)) as Hw.
    destruct (sendRaw c1 _ sizeof_PDU) as [actSndSz sent]. simpl in Hw.
    destruct (negb _); simpl; repeat apply conj; auto. }
  unfold recvDgram_switch.
  destruct (mtype (PDU_of_bytes buff) =? MsgType.SND).
  { pose proof (Hsw MsgType.SNDACK ltac:(done) ltac:(done)) as Hw.
    destruct (sendRaw c1 _ sizeof_PDU) as [actSndSz sent]. simpl in Hw.
    destruct (negb _); simpl; repeat apply conj; auto. }
  destruct (mtype (PDU_of_bytes buff) =? MsgType.CLOSE).
  { pose proof (Hsw MsgType.CLOSEACK ltac:(done) ltac:(done)) as Hw.
    destruct (sendRaw c1 _ sizeof_PDU) as [actSndSz sent]. simpl in Hw.
    destruct (negb _); simpl; repeat apply conj; auto.
    unfold wire. rewrite flat_map_app. simpl. by rewrite app_nil_r. }
  simpl. repeat apply conj; auto.
Qed.

(** X13. When [sendto] does not take more than a header's worth of the
    first frame, [send] gives up with [-1] after that one attempt,
    but the counter of the endpoint has moved as if the frame had
    gone out. *)
Theorem send_gives_up_after_counting (c : Connection) (sbuff : list byte) (n : Z)
    (rx : option datagram) (rest : list (option datagram)) :
  (∀ sock dest bytes, -1 <= sendto sock dest bytes <= sizeof_PDU) →
  isAddrInit (outSockAddr c) = true →
  length (_buffer c) = Z.to_nat MAX_DGRAM_SZ →
  0 < n <= Z.of_nat (length sbuff) →
  ∃ c' frame,
    send c sbuff n 0 [] (rx :: rest) =
      Ended (-1) c' [] [Sendto (addr (outSockAddr c)) frame] ∧
    payload frame = take (Z.to_nat (Z.min n MAX_BUFF_SZ)) sbuff ∧
    seqNum c' = Int.to_uint32 (seqNum c + Z.min n MAX_BUFF_SZ).
Proof.
  intros Hk Hinit Hlen Hn.
  destruct (buffer_cut c Hlen)
    as (a0 & a1 & a2 & a3 & a4 & body & Hb & L0 & L1 & L2 & L3 & L4 & Lb).
  pose proof (sendDgram_spelt c sbuff n rx a0 a1 a2 a3 a4 body Hinit ltac:(lia) Hb
                L0 L1 L2 L3 L4 Lb) as Hsend.
  cbv zeta in Hsend.
  set (sz := Z.min n MAX_BUFF_SZ) in *.
  assert (Hsz : 0 < sz <= 512) by (unfold sz, MAX_BUFF_SZ; lia).
  replace (sz =? 0) with false in Hsend by (symmetry; apply Z.eqb_neq; lia).
  set (hdr := a0 ++ _) in Hsend.
  set (frame := hdr ++ take (Z.to_nat sz) sbuff) in Hsend.
  set (c1 := set_seqNum _ _) in Hsend.
  pose proof (recvRaw_conn c1 (repeat Byte.x00 20) sizeof_PDU rx) as Hc'.
  cbv zeta in Hc'. set (c' := snd (fst (recvRaw c1 _ _ rx))) in *.
  destruct Hc' as (_ & Hs & _).
  set (v := sendto (udpSock c) (addr (outSockAddr c)) frame) in *.
  assert (Hv : -1 <= v <= 20) by apply Hk.
  assert (Hret : Int.to_int32 (Int.to_size_t (Int.to_size_t v - sizeof_PDU)) = v - 20).
  { unfold Int.to_size_t, Int.to_int32, sizeof_PDU.
    change (2 ^ 64) with 18446744073709551616. change (2 ^ 32) with 4294967296.
    change (2 ^ 31) with 2147483648 in *.
    Z.div_mod_to_equations. lia. }
  rewrite Hret in Hsend.
  exists c', frame. split; [|split].
  - cbn [send]. replace (n >? 0) with true by (symmetry; apply Z.gtb_lt; lia).
    rewrite Hsend. replace (v - 20 <=? 0) with true by (symmetry; apply Z.leb_le; lia).
    done.
  - unfold payload, frame. change (Z.to_nat sizeof_PDU) with 20%nat.
    rewrite drop_app_length'; [done|].
    unfold hdr. rewrite !length_app, !length_le_split. lia.
  - rewrite Hs. done.
Qed.

End Facts.

#[local] Existing Instance healthy.

(** X14. When the [recvfrom] of the first frame fails, [recv] does not
    report it: for a buffer of up to 512 bytes it fills the caller's
    buffer with zeros and returns [buffSz], as if that many bytes had
    arrived; for a larger one it copies from past the end of its own
    buffer. *)
Theorem recv_reports_full_buffer_after_failure (r : Connection) (out : list byte)
    (buffSz : Z) (rest : list (option datagram)) :
  0 <= buffSz <= Z.of_nat (length out) → buffSz < 2 ^ 31 →
  recv r out buffSz 0 [] (None :: rest) =
    if buffSz <=? MAX_BUFF_SZ then
      Ended buffSz
        (set_buffer (repeat Byte.x00 (Z.to_nat MAX_DGRAM_SZ))
           (set_seqNum (Int.to_uint32 (seqNum r + 1)) r))
        (repeat Byte.x00 (Z.to_nat buffSz) ++ drop (Z.to_nat buffSz) out) []
    else Wild.
Proof.
  intros Hsz Hmax. cbn [recv].
  assert (Hr : recvDgram r (repeat Byte.x00 (Z.to_nat MAX_DGRAM_SZ)) MAX_DGRAM_SZ None =
            mkReceived ERROR_PROTOCOL (set_seqNum (Int.to_uint32 (seqNum r + 1)) r)
              (repeat Byte.x00 (Z.to_nat MAX_DGRAM_SZ)) []).
  { unfold recvDgram. change (MAX_DGRAM_SZ >? MAX_DGRAM_SZ) with false. cbv iota.
    assert (Hraw : ∀ b, recvRaw r b MAX_DGRAM_SZ None = (-1, r, b)).
    { intros b. unfold recvRaw. by destruct (negb _). }
    rewrite Hraw, PDU_of_zeros. reflexivity. }
  rewrite Hr. cbn [rd_ret rd_conn rd_buff rd_log].
  change (ERROR_PROTOCOL =? CONNECTION_CLOSED) with false. cbv iota.
  assert (Hcopied : recv_copied 0 ERROR_PROTOCOL buffSz = buffSz).
  { unfold recv_copied.
    change (Int.to_size_t (Int.to_size_t 0 +
              Int.to_size_t (Int.to_size_t ERROR_PROTOCOL - sizeof_PDU)))
      with (2 ^ 64 - 22).
    rewrite (to_size_t_id buffSz) by lia.
    replace (2 ^ 64 - 22 >? buffSz) with true by (symmetry; apply Z.gtb_lt; lia).
    rewrite Z.sub_0_r. apply to_int32_id. lia. }
  rewrite Hcopied, PDU_of_zeros.
  replace (buffSz <? 0) with false by (symmetry; apply Z.ltb_ge; lia).
  replace (Z.of_nat (length out) <? 0 + buffSz) with false
    by (symmetry; apply Z.ltb_ge; lia).
  rewrite orb_false_l, orb_false_r.
  destruct (Z.leb_spec buffSz MAX_BUFF_SZ) as [Hle|Hgt].
  - replace (MAX_BUFF_SZ <? buffSz) with false by (symmetry; apply Z.ltb_ge; lia).
    cbn [mtype]. change (Z.land 0 MsgType.FRAGMENT =? MsgType.FRAGMENT) with false.
    cbv iota. rewrite Z.add_0_l, to_int32_id by lia. f_equal.
    unfold write_at. change (Z.to_nat 0) with 0%nat.
    rewrite take_0, app_nil_l, Nat.add_0_l.
    change (Z.to_nat MAX_DGRAM_SZ) with 532%nat. change (Z.to_nat sizeof_PDU) with 20%nat.
    rewrite drop_repeat. change (532 - 20)%nat with 512%nat.
    assert (E : take (Z.to_nat buffSz) (repeat Byte.x00 512)
                = repeat Byte.x00 (Z.to_nat buffSz)).
    { rewrite take_repeat. f_equal. unfold MAX_BUFF_SZ in Hle. lia. }
    rewrite E, repeat_length. done.
  - replace (MAX_BUFF_SZ <? buffSz) with true by (symmetry; apply Z.ltb_lt; lia). done.
Qed.

(** X15. A frame that fails a validation gets the ERROR reply and is then
    handled by its type all the same: a SND is acknowledged as well
    and the call returns the number of bytes received; a CLOSE is
    acknowledged as well and closes the socket; any other frame
    returns [ERROR_PROTOCOL]. *)
Theorem recvDgram_rejected_frame_goes_on (c : Connection) (buff : list byte) (buffSz : Z)
    (d : datagram) :
  isAddrInit (inSockAddr c) = true → 0 <= buffSz <= MAX_DGRAM_SZ →
  let got := take (Z.to_nat buffSz) (data d) in
  let inPdu := PDU_of_bytes (write_at 0 got buff) in
  let errCode := classify (Z.of_nat (length got)) inPdu buffSz in
  let seq := advance (seqNum c) errCode (dgram_sz inPdu) in
  let reply mt := Sendto (src d) (PDU_bytes (outPdu_for seq errCode mt)) in
  let r := recvDgram c buff buffSz (Some d) in
  errCode ≠ NO_ERROR →
  (rd_log r, rd_ret r) =
    if mtype inPdu =? MsgType.SND
    then ([reply MsgType.ERROR; reply MsgType.SNDACK], Z.of_nat (length got))
    else if mtype inPdu =? MsgType.CLOSE
    then ([reply MsgType.ERROR; reply MsgType.CLOSEACK; SockClose], CONNECTION_CLOSED)
    else ([reply MsgType.ERROR], ERROR_PROTOCOL).
Proof.
  intros Hin Hsz got inPdu errCode seq reply r Herr. unfold r, recvDgram.
  replace (buffSz >? MAX_DGRAM_SZ) with false
    by (symmetry; rewrite Z.gtb_ltb; apply Z.ltb_ge; lia).
  rewrite recvRaw_datagram
    by (done || unfold MAX_DGRAM_SZ, MAX_BUFF_SZ, sizeof_PDU in *; lia).
  fold got. fold inPdu. fold errCode.
  replace (negb (errCode =? NO_ERROR)) with true
    by (symmetry; apply negb_true_iff, Z.eqb_neq; done).
  set (c1 := set_seqNum _ _).
  assert (Hout : isAddrInit (outSockAddr c1) = true) by done.
  rewrite sendRaw_bound by done.
  change (sendto (udpSock c1) (addr (outSockAddr c1))
            (PDU_bytes (outPdu_for (seqNum c1) errCode MsgType.ERROR))) with 20.
  change (negb (Int.to_size_t 20 =? sizeof_PDU)) with false. cbv iota.
  unfold recvDgram_switch.
  destruct (mtype inPdu =? MsgType.SND).
  { rewrite sendRaw_bound by done. reflexivity. }
  destruct (mtype inPdu =? MsgType.CLOSE).
  { rewrite sendRaw_bound by done. reflexivity. }
  reflexivity.
Qed.

(** X16. The handshake of two endpoints: the CONNECT that [connect] sends
    makes [listen] answer with a CNTACK that makes [connect] succeed;
    both ends are then connected, their counters agree, and the
    listener has learnt the address the CONNECT came from. *)
Theorem connect_listen_handshake (c l : Connection) (a : sockaddr_in) :
  isAddrInit (outSockAddr c) = true → isAddrInit (inSockAddr c) = true →
  isAddrInit (inSockAddr l) = true → 0 <= seqNum c < 2 ^ 31 - 1 →
  let frame :=
    PDU_bytes {| proto_ver := 0; mtype := MsgType.CONNECT; seqnum := seqNum c;
                 dgram_sz := 0; err_num := 0 |} in
  let reply :=
    PDU_bytes {| proto_ver := 0; mtype := MsgType.CNTACK; seqnum := seqNum c + 1;
                 dgram_sz := 0; err_num := 0 |} in
  ∃ c' l',
    listen l (Some {| src := a; data := frame |}) = Sent 1 l' [Sendto a reply] ∧
    connect c (Some {| src := addr (outSockAddr c); data := reply |}) =
      Sent 1 c' [Sendto (addr (outSockAddr c)) frame] ∧
    connected c' = true ∧ connected l' = true ∧
    seqNum c' = seqNum c + 1 ∧ seqNum l' = seqNum c + 1 ∧
    addr (outSockAddr l') = a ∧ isAddrInit (outSockAddr l') = true.
Proof.
  intros Hout Hin Hlin Hseq frame reply.
  assert (Hframe : PDU_of_bytes frame =
            {| proto_ver := 0; mtype := MsgType.CONNECT; seqnum := seqNum c;
               dgram_sz := 0; err_num := 0 |}).
  { unfold frame. rewrite <- (app_nil_r (PDU_bytes _)), PDU_of_bytes_PDU_bytes.
    cbn [proto_ver mtype seqnum dgram_sz err_num].
    rewrite (to_int32_id (seqNum c)) by lia. reflexivity. }
  assert (Hreply : PDU_of_bytes reply =
            {| proto_ver := 0; mtype := MsgType.CNTACK; seqnum := seqNum c + 1;
               dgram_sz := 0; err_num := 0 |}).
  { unfold reply. rewrite <- (app_nil_r (PDU_bytes _)), PDU_of_bytes_PDU_bytes.
    cbn [proto_ver mtype seqnum dgram_sz err_num].
    rewrite (to_int32_id (seqNum c + 1)) by lia. reflexivity. }
  assert (Hw : ∀ p old : PDU,
            write_at 0 (take (Z.to_nat sizeof_PDU) (PDU_bytes p)) (PDU_bytes old)
            = PDU_bytes p).
  { intros p old. change (Z.to_nat sizeof_PDU) with 20%nat.
    rewrite take_ge by (rewrite length_PDU_bytes; lia).
    rewrite <- (app_nil_r (PDU_bytes old)), write_at_0 by done. apply app_nil_r. }
  eexists _, _. split; [|split].
  - unfold listen. rewrite Hlin. cbn [negb].
    rewrite recvRaw_datagram by (done || vm_compute; split; congruence).
    cbn [data src]. change (Z.to_nat sizeof_PDU) with 20%nat.
    rewrite (take_ge frame) by (unfold frame; rewrite length_PDU_bytes; lia).
    change (Z.of_nat (length frame)) with 20.
    change (negb (Int.to_size_t 20 =? sizeof_PDU)) with false. cbv iota.
    assert (E : write_at 0 frame (repeat Byte.x00 20) = frame).
    { rewrite <- (app_nil_r (repeat Byte.x00 20)), write_at_0 by done. apply app_nil_r. }
    rewrite E, Hframe. cbn [proto_ver seqnum dgram_sz err_num].
    rewrite (to_int32_id (seqNum c + 1)), (to_uint32_id (seqNum c + 1)) by lia.
    rewrite sendRaw_bound by done.
    cbn [seqNum set_seqNum]. rewrite (to_int32_id (seqNum c + 1)) by lia.
    reflexivity.
  - unfold connect. rewrite Hout. cbn [negb].
    rewrite sendRaw_bound by done.
    rewrite (to_int32_id (seqNum c)) by lia. fold frame.
    change (sendto (udpSock c) (addr (outSockAddr c)) frame) with 20.
    change (negb (Int.to_size_t 20 =? sizeof_PDU)) with false. cbv iota.
    rewrite recvRaw_datagram by (done || vm_compute; split; congruence).
    cbn [data src]. unfold frame, reply. rewrite Hw. fold reply.
    change (Z.to_nat sizeof_PDU) with 20%nat.
    rewrite (take_ge reply) by (unfold reply; rewrite length_PDU_bytes; lia).
    change (Z.of_nat (length reply)) with 20.
    change (negb (Int.to_size_t 20 =? sizeof_PDU)) with false. cbv iota.
    rewrite Hreply. cbn [mtype].
    change (negb (MsgType.CNTACK =? MsgType.CNTACK)) with false. cbv iota.
    reflexivity.
  - cbn [connected set_connected seqNum set_seqNum set_outSockAddr outSockAddr addr
         isAddrInit].
    rewrite to_uint32_id by lia. done.
Qed.

(** X17. Closing between two endpoints: the CLOSE that [disconnect] sends
    makes [recvDgram] answer with a CLOSEACK and close its socket, and
    that CLOSEACK makes [disconnect] close its socket too; both calls
    return [CONNECTION_CLOSED].  The receiver counts the CLOSE, the
    sender does not. *)
Theorem disconnect_recvDgram_close (c r : Connection) (a : sockaddr_in)
    (buff : list byte) (buffSz : Z) :
  isAddrInit (outSockAddr c) = true → isAddrInit (inSockAddr c) = true →
  isAddrInit (inSockAddr r) = true →
  0 <= seqNum c < 2 ^ 31 → 0 <= seqNum r < 2 ^ 31 - 1 →
  sizeof_PDU <= buffSz <= MAX_DGRAM_SZ →
  let frame :=
    PDU_bytes {| proto_ver := 1; mtype := MsgType.CLOSE; seqnum := seqNum c;
                 dgram_sz := 0; err_num := 0 |} in
  let reply :=
    PDU_bytes {| proto_ver := 1; mtype := MsgType.CLOSEACK; seqnum := seqNum r + 1;
                 dgram_sz := 0; err_num := 0 |} in
  let got := recvDgram r buff buffSz (Some {| src := a; data := frame |}) in
  (rd_ret got = CONNECTION_CLOSED ∧ rd_log got = [Sendto a reply; SockClose] ∧
   seqNum (rd_conn got) = seqNum r + 1) ∧
  ∃ c',
    disconnect c (Some {| src := addr (outSockAddr c); data := reply |}) =
      Sent CONNECTION_CLOSED c' [Sendto (addr (outSockAddr c)) frame; SockClose] ∧
    seqNum c' = seqNum c.
Proof.
  intros Hout Hin Hrin Hseq Hseqr Hsz frame reply got.
  assert (Hframe : ∀ rest, PDU_of_bytes (frame ++ rest) =
            {| proto_ver := 1; mtype := MsgType.CLOSE; seqnum := seqNum c;
               dgram_sz := 0; err_num := 0 |}).
  { intros rest. unfold frame. rewrite PDU_of_bytes_PDU_bytes.
    cbn [proto_ver mtype seqnum dgram_sz err_num].
    rewrite (to_int32_id (seqNum c)) by lia. reflexivity. }
  assert (Hreply : PDU_of_bytes reply =
            {| proto_ver := 1; mtype := MsgType.CLOSEACK; seqnum := seqNum r + 1;
               dgram_sz := 0; err_num := 0 |}).
  { unfold reply. rewrite <- (app_nil_r (PDU_bytes _)), PDU_of_bytes_PDU_bytes.
    cbn [proto_ver mtype seqnum dgram_sz err_num].
    rewrite (to_int32_id (seqNum r + 1)) by lia. reflexivity. }
  split.
  - unfold got, recvDgram.
    replace (buffSz >? MAX_DGRAM_SZ) with false
      by (symmetry; rewrite Z.gtb_ltb; apply Z.ltb_ge; lia).
    rewrite recvRaw_datagram
      by (done || unfold MAX_DGRAM_SZ, MAX_BUFF_SZ, sizeof_PDU in *; lia).
    cbn [data src].
    rewrite (take_ge frame)
      by (unfold frame; rewrite length_PDU_bytes; unfold sizeof_PDU in Hsz; lia).
    change (Z.of_nat (length frame)) with 20.
    assert (E : write_at 0 frame buff = frame ++ drop 20 buff) by done.
    rewrite E, Hframe. cbn [dgram_sz mtype].
    rewrite classify_cases by lia. cbn [dgram_sz].
    replace (0 >? buffSz) with false
      by (symmetry; rewrite Z.gtb_ltb; apply Z.ltb_ge; unfold sizeof_PDU in Hsz; lia).
    change (20 <? sizeof_PDU) with false. cbv iota.
    change (negb (NO_ERROR =? NO_ERROR)) with false. cbv iota.
    change (Z.land MsgType.CLOSE MsgType.FRAGMENT =? MsgType.FRAGMENT) with false.
    cbv iota. unfold recvDgram_switch. cbn [mtype].
    change (MsgType.CLOSE =? MsgType.SND) with false.
    change (MsgType.CLOSE =? MsgType.CLOSE) with true. cbv iota.
    rewrite sendRaw_bound by done.
    cbn [seqNum set_seqNum]. unfold advance.
    change (NO_ERROR =? NO_ERROR) with true. change (0 =? 0) with true. cbv iota.
    cbn [seqNum set_seqNum set_outSockAddr udpSock outSockAddr addr].
    rewrite (to_uint32_id (seqNum r + 1)) by lia.
    match goal with |- context [sendto ?x ?y ?z] => change (sendto x y z) with 20 end.
    change (negb (Int.to_size_t 20 =? sizeof_PDU)) with false. cbv iota.
    cbn [rd_ret rd_log rd_conn seqNum]. unfold outPdu_for.
    rewrite (to_int32_id (seqNum r + 1)) by lia.
    done.
  - eexists. split.
    + unfold disconnect. rewrite sendRaw_bound by done.
      rewrite (to_int32_id (seqNum c)) by lia. fold frame.
      change (sendto (udpSock c) (addr (outSockAddr c)) frame) with 20.
      change (negb (Int.to_size_t 20 =? sizeof_PDU)) with false. cbv iota.
      rewrite recvRaw_datagram by (done || vm_compute; split; congruence).
      cbn [data src]. change (Z.to_nat sizeof_PDU) with 20%nat.
      rewrite (take_ge reply) by (unfold reply; rewrite length_PDU_bytes; lia).
      change (Z.of_nat (length reply)) with 20.
      change (negb (Int.to_size_t 20 =? sizeof_PDU)) with false. cbv iota.
      assert (E : write_at 0 reply frame = reply).
      { rewrite <- (app_nil_r frame), write_at_0 by done. apply app_nil_r. }
      rewrite E, Hreply. cbn [mtype].
      change (negb (MsgType.CLOSEACK =? MsgType.CLOSEACK)) with false. cbv iota.
      reflexivity.
    + done.
Qed.

End ConnEdges.

(** ** The dispatcher, datagram by datagram *)

Module DispatcherFacts.
Import Wire Conn Server IntFacts WireFacts ConnFacts ServerNotions ServerFacts.
Import ConnMore.

Section Facts.
Context `{Kernel}.

(** X18. A datagram shorter than a header, or a [recvfrom] that fails,
    ends the process: the dispatcher calls the writer with a negative
    length, or through the null pointer of a host it does not know. *)
Theorem listen_short_datagram_terminates (s : FTPServer) (stack : PDU)
    (rx : option datagram) :
  (∀ d, rx = Some d → arrived d < sizeof_PDU) →
  ∃ what, ls_fate (listen s stack rx) = Terminated what.
Proof.
  intros Hshort. unfold listen.
  assert (Hraw : ∃ rcvSz c buffer,
            recvRaw (dpc s) (repeat Byte.x00 (Z.to_nat MAX_DGRAM_SZ)) MAX_DGRAM_SZ rx
              = (rcvSz, c, buffer) ∧ -1 <= rcvSz < 20 ∧
            (rcvSz = -1 ∧ buffer = repeat Byte.x00 (Z.to_nat MAX_DGRAM_SZ) ∨
             0 <= rcvSz)).
  { unfold recvRaw. destruct (negb _).
    { eexists _, _, _. split; [reflexivity|]. split; [lia|]. by left. }
    destruct rx as [d|].
    - eexists _, _, _. split; [reflexivity|].
      change (Int.to_size_t MAX_DGRAM_SZ) with MAX_DGRAM_SZ.
      specialize (Hshort d eq_refl). unfold arrived, sizeof_PDU in Hshort. lia.
    - eexists _, _, _. split; [reflexivity|]. split; [lia|]. by left. }
  destruct Hraw as (rcvSz & c & buffer & -> & Hr & Hcase).
  replace (Int.to_size_t rcvSz =? sizeof_PDU) with false.
  2:{ symmetry. apply Z.eqb_neq. unfold Int.to_size_t, sizeof_PDU.
      change (2 ^ 64) with 18446744073709551616. Z.div_mod_to_equations. lia. }
  set (c1 := set_buffer buffer c).
  destruct (listen_frame_pushes s c1
              (inet_ntoa (sin_addr (addr (outSockAddr c1)))) rcvSz)
    as (table & log & ->).
  { cbv zeta. destruct Hcase as [[-> ->]|Hpos].
    - right. unfold c1. cbn [_buffer set_buffer]. rewrite PDU_of_zeros. done.
    - left. unfold classify. rewrite to_size_t_id by lia.
      replace (rcvSz <? sizeof_PDU) with true
        by (symmetry; apply Z.ltb_lt; unfold sizeof_PDU; lia).
      by destruct (_ >? _). }
  unfold listen_push. destruct (writer_of _ _) as [[p w]|]; [|by eexists].
  rewrite push_size by (unfold MAX_DGRAM_SZ, MAX_BUFF_SZ, sizeof_PDU; lia).
  unfold pushToChannel.
  replace (rcvSz - 20 <? 0) with true by (symmetry; apply Z.ltb_lt; lia).
  by eexists.
Qed.

(** X19. A frame from a host that has no writer ends the process, after
    the acknowledgement: the call of its writer goes through a null
    pointer. *)
Theorem listen_unknown_peer_terminates (s : FTPServer) (stack : PDU) (d : datagram) :
  isAddrInit (inSockAddr (dpc s)) = true →
  arrived d ≠ sizeof_PDU →
  writer_of s (peerKey d) = None →
  ls_fate (listen s stack (Some d)) = Terminated "null pointer" ∧
  heap (ls_server (listen s stack (Some d))) = heap s.
Proof.
  intros Hi Hsz Hw. rewrite listen_datagram by done. cbv zeta.
  destruct (Z.eqb_spec (arrived d) sizeof_PDU); [done|].
  unfold listen_frame.
  destruct (acknowledge _ _ _ _) as [log closing].
  assert (Hw' : ∀ c', writer_of (set_dpc c' s) (peerKey d) = None) by done.
  destruct closing.
  - by rewrite Hw'.
  - unfold listen_push. by rewrite Hw'.
Qed.

(** X20. The frame of a host that has a writer, longer than a header and
    not a CLOSE: whatever its type and whether it passes the
    validations or not, the bytes after the header are handed to the
    writer of that host.  With room in the channel they become its
    newest message and the call returns; with the channel full the
    dispatcher is parked in the send, the channel as it was.  The
    other writers and the writer map stay as they were. *)
Theorem listen_hands_payload_to_writer (s : FTPServer) (stack : PDU) (d : datagram)
    (p : ptr) (w : FTPFileWriter) :
  isAddrInit (inSockAddr (dpc s)) = true →
  sizeof_PDU < arrived d →
  mtype (PDU_of_bytes (landed d)) ≠ MsgType.CLOSE →
  writer_of s (peerKey d) = Some (p, w) →
  Channel.open (stream w) = true →
  let r := listen s stack (Some d) in
  let value := drop (Z.to_nat sizeof_PDU) (take (Z.to_nat MAX_DGRAM_SZ) (data d)) in
  let full := Int.to_size_t (Channel.maxSize (stream w)) <=? Channel.size (stream w) in
  ∃ w',
    heap (ls_server r) = <[p := w']> (heap s) ∧
    ftpWriters (ls_server r) = ftpWriters s ∧
    closed w' = closed w ∧ address w' = address w ∧
    Channel.open (stream w') = true ∧
    Channel.buffer (stream w') =
      (if full then Channel.buffer (stream w)
       else Channel.buffer (stream w) ++ [value]) ∧
    ls_fate r = (if full then Blocked value else Returned).
Proof.
  intros Hi Hsz Hmt Hw Hopen r value full. unfold r.
  rewrite listen_datagram by done. cbv zeta.
  pose proof (arrived_range d) as Hr.
  destruct (Z.eqb_spec (arrived d) sizeof_PDU); [lia|].
  set (c := set_buffer (landed d) _).
  destruct (listen_frame_pushes s c (peerKey d) (arrived d)) as (table & log & ->).
  { right. done. }
  unfold listen_push.
  assert (Hw' : writer_of (set_dpc (set_seqNums table c) s) (peerKey d) = Some (p, w))
    by done.
  rewrite Hw'. rewrite push_size by lia.
  unfold pushToChannel.
  replace (arrived d - 20 <? 0) with false
    by (symmetry; apply Z.ltb_ge; unfold sizeof_PDU in *; lia).
  unfold c. cbn [dpc set_dpc _buffer set_buffer set_seqNums].
  rewrite pushed_value by (unfold sizeof_PDU in *; lia). fold value.
  unfold Channel.send. rewrite Hopen. cbn [negb].
  unfold full.
  destruct (ChannelFacts.send_wait_cases dispatcher value (stream w))
    as [(Hroom & ->)|(Hfull & ->)].
  - replace (_ <=? _) with false by (symmetry; apply Z.leb_gt; lia).
    eexists. cbn [ls_server ls_fate heap set_heap ftpWriters set_dpc].
    split; [reflexivity|]. by rewrite Hopen.
  - replace (_ <=? _) with true by (symmetry; apply Z.leb_le; lia).
    eexists. cbn [ls_server ls_fate heap set_heap ftpWriters set_dpc].
    split; [reflexivity|]. by rewrite Hopen.
Qed.

(** *** Writers no entry leads to *)





End Facts.

#[local] Existing Instance healthy.

(** The workers that take a task leave the writers on the heap alone. *)
Lemma do_takes_heap (early : list nat) (pr : process) (m' : machine) :
  do_takes pr early = Running m' →
  ∃ m, pr = Running m ∧ heap (server m') = heap (server m).
Proof.
  revert pr. induction early as [|i early IH]; intros pr Hrun.
  - simpl in Hrun. subst pr. eauto.
  - unfold do_takes in Hrun. cbn [foldl] in Hrun. fold (do_takes) in Hrun.
    apply IH in Hrun as (m1 & Hstep & Hd).
    destruct pr as [m| | |]; try done.
    exists m. split; [done|]. rewrite Hd. clear Hd IH.
    unfold do_take in Hstep. destruct (hosting m !! i); [by injection Hstep as <-|].
    destruct (Pool.runPendingTask _ _) as [[[[]|] pool'] w']; [|by injection Hstep as <-].
    destruct (last (fw (server m))); [|done]. by injection Hstep as <-.
Qed.

(** X22. The handshake of a client with the dispatcher: the CONNECT that
    [connect] sends makes the dispatcher answer with a CNTACK that makes
    [connect] succeed.  The dispatcher does not read the [seqnum] of the
    CONNECT: it sets the counter of the host to 1, whatever it was, while
    the client adds 1 to its own.  The answer, the counter and the new
    writer with its empty open channel are there whichever workers look
    for a task between the submission of the writer's task and the
    store into the writer map.  When none does, the call is the plain
    [listen]: the entry of the host leads to the new writer, which is
    the last of [fw], and its task is the last of the global queue. *)
Theorem connect_dispatcher_handshake (c : Connection) (m : machine) (stack : PDU)
    (a : sockaddr_in) (early : list nat) :
  isAddrInit (outSockAddr c) = true → isAddrInit (inSockAddr c) = true →
  stalled m = None →
  isAddrInit (inSockAddr (dpc (server m))) = true → 0 <= seqNum c < 2 ^ 31 - 1 →
  let key := inet_ntoa (sin_addr a) in
  let frame :=
    PDU_bytes {| proto_ver := 0; mtype := MsgType.CONNECT; seqnum := seqNum c;
                 dgram_sz := 0; err_num := 0 |} in
  let reply :=
    PDU_bytes {| proto_ver := 1; mtype := MsgType.CNTACK; seqnum := 1;
                 dgram_sz := dgram_sz stack; err_num := err_num stack |} in
  let d := {| src := a; data := frame |} in
  let out := advance_process (Running m) (Hail stack (Some d) early) in
  let r := listen (server m) stack (Some d) in
  out.2 = [Net (Sendto a reply); Submit] ∧
  (∀ m', out.1 = Running m' →
     seqNums (dpc (server m')) !! key = Some 1 ∧
     heap (server m') !! next (server m) = Some (FTPFileWriter_new key)) ∧
  (early = [] →
   out = advance_process (Running m) (Datagram stack (Some d)) ∧
   out = (Running {| server := ls_server r; disk := disk m; hosting := hosting m;
                     stalled := None |}, ls_log r) ∧
   writer_of (ls_server r) key = Some (next (server m), FTPFileWriter_new key) ∧
   Pool.workQueue (pool (ls_server r)) =
     Pool.workQueue (pool (server m)) ++ [WriterTask] ∧
   fw (ls_server r) = fw (server m) ++ [next (server m)]) ∧
  ∃ c',
    connect c (Some {| src := addr (outSockAddr c); data := reply |}) =
      Sent 1 c' [Sendto (addr (outSockAddr c)) frame] ∧
    Conn.connected c' = true ∧ seqNum c' = seqNum c + 1.
Proof.
  intros Hout Hin Hst Hsin Hseq key frame reply d out r.
  assert (Hreply : mtype (PDU_of_bytes reply) = MsgType.CNTACK).
  { unfold reply. rewrite <- (app_nil_r (PDU_bytes _)), PDU_of_bytes_PDU_bytes. done. }
  set (c1 := set_buffer (landed d)
               (set_outSockAddr
                  {| len := len (outSockAddr (dpc (server m))); isAddrInit := true;
                     addr := src d |} (dpc (server m)))).
  set (s1 := {| dpc := set_seqNums (<[key := Int.to_uint32 (0 + 1)]> (seqNums c1)) c1;
                connected := Int.to_int32 (connected (server m) + 1);
                pool := Pool.submit Pool.outsider WriterTask (pool (server m));
                fw := fw (server m) ++ [next (server m)];
                ftpWriters := ftpWriters (server m);
                heap := <[next (server m) := FTPFileWriter_new key]> (heap (server m));
                next := S (next (server m)) |}).
  assert (Hsub : listen_submit (server m) c1 key stack = (s1, [Net (Sendto a reply); Submit])).
  { unfold listen_submit. rewrite sendRaw_bound by done. cbv beta iota zeta.
    cbn [seqNums set_seqNums]. rewrite lookup_insert_eq. reflexivity. }
  assert (Hhail : out =
            match do_takes (Running {| server := s1; disk := disk m; hosting := hosting m;
                                       stalled := None |}) early with
            | Running m1 =>
                match listen_store (server m1) key with
                | Some s2 =>
                    (Running {| server := s2; disk := disk m1; hosting := hosting m1;
                                stalled := stalled m1 |}, [Net (Sendto a reply); Submit])
                | None => (Derailed "back() of an empty vector",
                           [Net (Sendto a reply); Submit])
                end
            | other => (other, [Net (Sendto a reply); Submit])
            end).
  { unfold out. cbn [advance_process]. unfold do_hail. rewrite Hst.
    rewrite recvRaw_datagram by (done || vm_compute; split; congruence).
    fold (arrived d). fold (landed d).
    change (Int.to_size_t (arrived d) =? sizeof_PDU) with true. cbv iota.
    fold c1. change (inet_ntoa (sin_addr (addr (outSockAddr c1)))) with key.
    by rewrite Hsub. }
  assert (Hlisten : r = mkListened
            {| dpc := dpc s1; connected := connected s1; pool := pool s1; fw := fw s1;
               ftpWriters := <[key := next (server m)]> (ftpWriters (server m));
               heap := heap s1; next := next s1 |}
            [Net (Sendto a reply); Submit] Returned).
  { unfold r. rewrite listen_datagram by done. cbv zeta.
    change (arrived d =? sizeof_PDU) with true. cbv iota. fold c1.
    change (peerKey d) with key. unfold listen_connect. rewrite Hsub.
    unfold listen_store, s1. cbn [fw]. rewrite last_snoc. reflexivity. }
  split; [|split; [|split]].
  - rewrite Hhail. destruct (do_takes _ early) as [m1| | |]; try done.
    by destruct (listen_store _ _).
  - intros m' Hm'. rewrite Hhail in Hm'.
    destruct (do_takes _ early) as [m1| | |] eqn:Htk; try done.
    destruct (do_takes_dpc _ _ _ Htk) as (m0 & [= <-] & Hd).
    destruct (do_takes_heap _ _ _ Htk) as (m0 & [= <-] & Hh).
    unfold listen_store in Hm'. destruct (last (fw (server m1))); [|done].
    injection Hm' as <-. cbn [server dpc heap]. rewrite Hd, Hh.
    cbn [server dpc heap s1 seqNums set_seqNums].
    by rewrite !lookup_insert_eq.
  - intros ->. rewrite Hhail. unfold do_takes. cbn [foldl server].
    assert (Hstore : listen_store s1 key = Some (ls_server r)).
    { rewrite Hlisten. unfold listen_store, s1. cbn [fw]. by rewrite last_snoc. }
    rewrite Hstore. cbn [disk hosting stalled].
    cbn [advance_process]. unfold do_listen. rewrite Hst. fold r.
    replace (ls_fate r) with Returned by (by rewrite Hlisten).
    replace (ls_log r) with [Net (Sendto a reply); Submit] by (by rewrite Hlisten).
    split; [reflexivity|]. split; [reflexivity|].
    rewrite Hlisten. cbn [ls_server pool fw s1].
    split; [|done].
    unfold writer_of. cbn [ftpWriters heap s1]. by rewrite !lookup_insert_eq.
  - eexists. split; [|split].
    + unfold connect. rewrite Hout. cbn [negb].
      rewrite sendRaw_bound by done.
      rewrite (to_int32_id (seqNum c)) by lia. fold frame.
      change (sendto (udpSock c) (addr (outSockAddr c)) frame) with 20.
      change (negb (Int.to_size_t 20 =? sizeof_PDU)) with false. cbv iota.
      rewrite recvRaw_datagram by (done || vm_compute; split; congruence).
      cbn [data src]. change (Z.to_nat sizeof_PDU) with 20%nat.
      rewrite (take_ge reply) by (unfold reply; rewrite length_PDU_bytes; lia).
      change (Z.of_nat (length reply)) with 20.
      change (negb (Int.to_size_t 20 =? sizeof_PDU)) with false. cbv iota.
      assert (E : write_at 0 reply frame = reply).
      { rewrite <- (app_nil_r frame), write_at_0 by done. apply app_nil_r. }
      rewrite E, Hreply.
      change (negb (MsgType.CNTACK =? MsgType.CNTACK)) with false. cbv iota.
      reflexivity.
    + done.
    + cbn [seqNum set_connected set_seqNum set_outSockAddr]. apply to_uint32_id. lia.
Qed.

End DispatcherFacts.

(** ** The dispatcher and the workers together *)

Module ProcessFacts.
Import Wire Conn Server IntFacts WireFacts ConnFacts ServerNotions ServerFacts.
Import ConnMore DispatcherFacts.

(** One trip of a writer whose channel holds a message it can write,
    awake or woken from its wait. *)
Lemma trip_front (asleep : bool) (t : Channel.tid) (w : FTPFileWriter) (fs : filesystem)
    (buff : list byte) (rest : list (list byte)) :
  Channel.buffer (stream w) = buff :: rest →
  refuses fs (fileName buff) = false → status_in_reach buff = true →
  ∃ w',
    (if asleep then serverLoop_resume t w fs else serverLoop_trip t w fs) =
      Again w' (write_file (fileName buff) (status buff =? Status.NEW)
                  (drop (Z.to_nat sizeof_FTP_PDU) buff) fs) ∧
    Channel.buffer (stream w') = rest ∧
    Channel.open (stream w') = Channel.open (stream w) ∧
    Channel.maxSize (stream w') = Channel.maxSize (stream w) ∧
    closed w' = closed w ∧ address w' = address w.
Proof.
  intros Hb Href Hlong. destruct asleep.
  - unfold serverLoop_resume.
    destruct (ChannelFacts.receive_wait_cases t (Channel.leave_receiver t (stream w)))
      as [(d & r & Hd & ->)|[(Hd & _)|(Hd & _)]];
      cbn [Channel.buffer Channel.leave_receiver] in Hd; [|congruence..].
    rewrite Hb in Hd. injection Hd as <- <-.
    unfold serverLoop_body. rewrite Href, Hlong. by eexists.
  - rewrite (WriterFacts.serverLoop_trip_front t w fs buff rest Hb Href Hlong). by eexists.
Qed.

(** One trip of a writer whose channel holds a message too short for
    its [status], the file not refused. *)
Lemma trip_short (asleep : bool) (t : Channel.tid) (w : FTPFileWriter) (fs : filesystem)
    (buff : list byte) (rest : list (list byte)) :
  Channel.buffer (stream w) = buff :: rest →
  refuses fs (fileName buff) = false → status_in_reach buff = false →
  (if asleep then serverLoop_resume t w fs else serverLoop_trip t w fs) = Overreads.
Proof.
  intros Hb Href Hshort.
  destruct (receive_front t (stream w) buff rest Hb) as (Hopen & c' & c'' & Hrecv & Hwait).
  unfold serverLoop_resume, serverLoop_trip. rewrite Hopen, Hrecv, Hwait.
  unfold serverLoop_body. rewrite Href, Hshort. by destruct asleep.
Qed.

Section Facts.
Context `{Kernel}.

(** One round: the frame of the host being served, then a trip of
    its writer. *)
Lemma round_step (key : string) (p : ptr) (i : nat) (m : machine) (stack : PDU)
    (d : datagram) :
  serving key p i m →
  peerKey d = key → sizeof_PDU < arrived d →
  mtype (PDU_of_bytes (landed d)) ≠ MsgType.CLOSE →
  refuses (disk m) (fileName (carried d)) = false →
  status_in_reach (carried d) = true →
  ∃ m' log,
    play (Running m) [Datagram stack (Some d); Trip i] = (Running m', log) ∧
    disk m' =
      write_file (fileName (carried d)) (status (carried d) =? Status.NEW)
        (drop (Z.to_nat sizeof_FTP_PDU) (carried d)) (disk m) ∧
    serving key p i m'.
Proof.
  intros (Hst & Hi & Hk & [asleep Hh] & w & Hw & Ho & Hb & Hmax) Hkey Hsz Hmt Href Hlong.
  assert (Hwo : writer_of (server m) (peerKey d) = Some (p, w)).
  { unfold writer_of. by rewrite Hkey, Hk, Hw. }
  destruct (listen_payload_spelt (server m) stack d p w Hi Hsz Hmt Hwo Ho)
    as (table & log & Hl).
  replace (Channel.size (stream w) <? Int.to_size_t (Channel.maxSize (stream w)))
    with true in Hl.
  2:{ symmetry. apply Z.ltb_lt. unfold Channel.size. rewrite Hb. simpl. lia. }
  rewrite Hb in Hl. cbn [app] in Hl. fold (carried d) in Hl.
  set (w1 := set_stream _ w) in Hl.
  destruct (trip_front asleep (S i) w1 (disk m) (carried d) []) as (w2 & Htrip & Hb2 & Ho2 & Hm2 & _);
    [done..|].
  assert (H1 : advance_process (Running m) (Datagram stack (Some d)) =
            (Running {| server := ls_server (listen (server m) stack (Some d));
                        disk := disk m; hosting := hosting m; stalled := None |}, log)).
  { cbn [advance_process]. unfold do_listen. rewrite Hst, Hl. reflexivity. }
  rewrite Hl in H1. cbn [ls_server] in H1.
  set (m1 := {| server := _; disk := disk m |}) in H1.
  assert (H2 : ∃ m2, advance_process (Running m1) (Trip i) = (Running m2, []) ∧
            disk m2 = write_file (fileName (carried d)) (status (carried d) =? Status.NEW)
                        (drop (Z.to_nat sizeof_FTP_PDU) (carried d)) (disk m) ∧
            serving key p i m2).
  { cbn [advance_process]. unfold do_trip.
    unfold m1 at 1 2. cbn [hosting server heap set_heap].
    rewrite Hh, lookup_insert_eq. cbn [disk m1]. unfold m1 at 1. cbn [disk].
    rewrite Htrip. eexists. split; [reflexivity|]. split; [done|].
    unfold serving, m1. cbn [stalled server dpc set_heap set_dpc hosting heap ftpWriters].
    split; [done|]. split; [done|]. split; [done|].
    split; [exists false; apply lookup_insert_eq|].
    exists w2. rewrite lookup_insert_eq.
    split; [done|]. split; [by rewrite Ho2|]. split; [done|]. by rewrite Hm2. }
  destruct H2 as (m2 & H2 & Hd2 & Hs2).
  exists m2, log. split; [|done].
  cbn [play]. rewrite H1, H2. by rewrite !app_nil_r.
Qed.

(** A schedule of rounds for the host being served. *)
Lemma rounds_run (key : string) (p : ptr) (i : nat) (stack : PDU)
    (ds : list datagram) (m : machine) :
  serving key p i m →
  Forall (λ d, peerKey d = key ∧ sizeof_PDU < arrived d ∧
               mtype (PDU_of_bytes (landed d)) ≠ MsgType.CLOSE ∧
               refuses (disk m) (fileName (carried d)) = false ∧
               status_in_reach (carried d) = true) ds →
  ∃ m' log,
    play (Running m) (rounds stack i ds) = (Running m', log) ∧
    disk m' = written (disk m) (map carried ds) ∧
    serving key p i m'.
Proof.
  revert m. induction ds as [|d ds IH]; intros m Hserv Hall.
  - exists m, []. done.
  - apply Forall_cons in Hall as [(Hkey & Hsz & Hmt & Href & Hlong) Hall].
    destruct (round_step key p i m stack d Hserv Hkey Hsz Hmt Href Hlong)
      as (m1 & log1 & Hplay & Hdisk & Hserv1).
    destruct (IH m1 Hserv1) as (m2 & log2 & Hplay2 & Hdisk2 & Hserv2).
    { eapply Forall_impl; [exact Hall|]. intros d' (? & ? & ? & Hr' & ?).
      repeat split; try done. by rewrite Hdisk. }
    exists m2, (log1 ++ log2). split; [|split; [|done]].
    + cbn [rounds flat_map app]. cbn [play] in *.
      destruct (advance_process (Running m) (Datagram stack (Some d))) as [pr1 l1].
      destruct (advance_process pr1 (Trip i)) as [pr2 l2].
      injection Hplay as -> <-. fold (rounds stack i ds). rewrite Hplay2.
      by rewrite !app_nil_r, app_assoc.
    + rewrite Hdisk2, Hdisk. done.
Qed.

(** X23. While a host is served and every frame is followed by a trip of
    its writer, the payload of every frame of the host that holds
    the [status] field (107 bytes or more after the header of the
    frame) reaches the disk, in the order of arrival: each one is
    written to the file it names, replacing the file when its status
    is NEW and extending it otherwise. *)
Theorem frames_reach_disk (key : string) (p : ptr) (i : nat) (stack : PDU)
    (ds : list datagram) (m : machine) :
  serving key p i m →
  Forall (λ d, peerKey d = key ∧ sizeof_PDU < arrived d ∧
               mtype (PDU_of_bytes (landed d)) ≠ MsgType.CLOSE ∧
               refuses (disk m) (fileName (carried d)) = false ∧
               status_in_reach (carried d) = true) ds →
  ∃ m' log,
    play (Running m) (rounds stack i ds) = (Running m', log) ∧
    disk m' = written (disk m) (map carried ds) ∧
    serving key p i m'.
Proof. apply rounds_run. Qed.

(** X24. A datagram of header size from a host and worker [i] looking
    for work, on a server with nothing pending.  When the worker
    comes after the call of [listen], it takes the task the
    dispatcher has submitted and the writer of the host runs on it,
    the entry of the host leading to it.  When the worker comes
    between the submission and the store into the writer map, it has
    emptied [fw] by then and the store reads [back()] of an empty
    vector. *)
Theorem connect_then_take_serves (m : machine) (stack : PDU) (d : datagram) (i : nat) :
  stalled m = None →
  isAddrInit (inSockAddr (dpc (server m))) = true →
  arrived d = sizeof_PDU →
  Pool.workQueue (pool (server m)) = [] → fw (server m) = [] →
  Pool.queues (pool (server m)) !! i = Some [] →
  hosting m !! i = None →
  (∃ m' log,
     play (Running m) [Datagram stack (Some d); Take i] = (Running m', log) ∧
     play (Running m) [Hail stack (Some d) []; Take i] = (Running m', log) ∧
     serving (peerKey d) (next (server m)) i m' ∧
     disk m' = disk m ∧ fw (server m') = [] ∧
     Pool.workQueue (pool (server m')) = [] ∧
     Pool.queues (pool (server m')) = Pool.queues (pool (server m))) ∧
  ∃ log,
    play (Running m) [Hail stack (Some d) [i]] =
      (Derailed "back() of an empty vector", log).
Proof.
  intros Hst Hi Hsz Hwq Hfw Hq Hh.
  assert (Hsub : ∃ c' sent,
            listen_submit (server m)
              (set_buffer (landed d)
                 (set_outSockAddr
                    {| len := len (outSockAddr (dpc (server m))); isAddrInit := true;
                       addr := src d |} (dpc (server m))))
              (peerKey d) stack =
              ({| dpc := c'; connected := Int.to_int32 (connected (server m) + 1);
                  pool := Pool.submit Pool.outsider WriterTask (pool (server m));
                  fw := [next (server m)];
                  ftpWriters := ftpWriters (server m);
                  heap := <[next (server m) := FTPFileWriter_new (peerKey d)]>
                            (heap (server m));
                  next := S (next (server m)) |}, sent) ∧
            isAddrInit (inSockAddr c') = true).
  { unfold listen_submit. destruct (sendRaw _ _ _) as [? sent].
    rewrite Hfw. cbn [app]. by eexists _, _. }
  destruct Hsub as (c0 & sent0 & Hsub & Hi0).
  assert (Hhail : ∀ early,
            advance_process (Running m) (Hail stack (Some d) early) =
              match do_takes
                      (Running
                         {| server :=
                              {| dpc := c0;
                                 connected := Int.to_int32 (connected (server m) + 1);
                                 pool := Pool.submit Pool.outsider WriterTask
                                           (pool (server m));
                                 fw := [next (server m)];
                                 ftpWriters := ftpWriters (server m);
                                 heap := <[next (server m) := FTPFileWriter_new (peerKey d)]>
                                           (heap (server m));
                                 next := S (next (server m)) |};
                            disk := disk m; hosting := hosting m; stalled := None |})
                      early with
              | Running m1 =>
                  match listen_store (server m1) (peerKey d) with
                  | Some s2 =>
                      (Running {| server := s2; disk := disk m1; hosting := hosting m1;
                                  stalled := stalled m1 |}, sent0)
                  | None => (Derailed "back() of an empty vector", sent0)
                  end
              | other => (other, sent0)
              end).
  { intros early. cbn [advance_process]. unfold do_hail. rewrite Hst.
    rewrite recvRaw_datagram by (done || vm_compute; split; congruence).
    fold (arrived d). fold (landed d). rewrite Hsz.
    change (Int.to_size_t sizeof_PDU =? sizeof_PDU) with true. cbv iota.
    change (inet_ntoa (sin_addr (addr (outSockAddr
              (set_buffer (landed d)
                 (set_outSockAddr
                    {| len := len (outSockAddr (dpc (server m))); isAddrInit := true;
                       addr := src d |} (dpc (server m)))))))) with (peerKey d).
    by rewrite Hsub. }
  assert (Hl : ∃ c' sent,
            listen (server m) stack (Some d) =
              mkListened
                {| dpc := c'; connected := Int.to_int32 (connected (server m) + 1);
                   pool := Pool.submit Pool.outsider WriterTask (pool (server m));
                   fw := [next (server m)];
                   ftpWriters := <[peerKey d := next (server m)]> (ftpWriters (server m));
                   heap := <[next (server m) := FTPFileWriter_new (peerKey d)]>
                             (heap (server m));
                   next := S (next (server m)) |}
                sent Returned ∧
            isAddrInit (inSockAddr c') = true).
  { rewrite listen_datagram by done. cbv zeta.
    rewrite Hsz. change (sizeof_PDU =? sizeof_PDU) with true. cbv iota.
    unfold listen_connect. rewrite Hsub. unfold listen_store. cbn [fw last default].
    by eexists _, _. }
  destruct Hl as (c' & sent & Hl & Hi').
  assert (Hsame : c' = c0 ∧ sent = sent0).
  { revert Hl. rewrite listen_datagram by done. cbv zeta.
    rewrite Hsz. change (sizeof_PDU =? sizeof_PDU) with true. cbv iota.
    unfold listen_connect. rewrite Hsub. unfold listen_store. cbn [fw last default].
    by intros [= -> ->]. }
  destruct Hsame as [-> ->].
  assert (Hrun : Pool.runPendingTask (Pool.workerThread_init (Z.of_nat i))
                   (Pool.submit Pool.outsider WriterTask (pool (server m))) =
                 (Some WriterTask, pool (server m), [])).
  { unfold Pool.runPendingTask.
    destruct (Pool.popLocal _ _) as [[t|] p1] eqn:Hpl.
    { unfold Pool.popLocal in Hpl. cbn [Pool.localWorkQueue Pool.workerThread_init] in Hpl.
      rewrite Nat2Z.id in Hpl. cbn [Pool.submit Pool.outsider Pool.localWorkQueue Pool.queues]
        in Hpl.
      match type of Hpl with context [?l !! i] =>
        replace (l !! i) with (Some (@nil task)) in Hpl by (symmetry; exact Hq) end.
      done. }
    apply PoolFacts.popLocal_None in Hpl as ->.
    unfold Pool.popPoolQueue, Pool.submit. cbn [Pool.outsider Pool.localWorkQueue
      Pool.workQueue]. rewrite Hwq. cbn [Pool.tq_push app Pool.tq_tryPop].
    destruct (pool (server m)). simpl in *. by subst. }
  assert (H1 : advance_process (Running m) (Datagram stack (Some d)) =
            (Running {| server := ls_server (listen (server m) stack (Some d));
                        disk := disk m; hosting := hosting m; stalled := None |}, sent0)).
  { cbn [advance_process]. unfold do_listen. rewrite Hst, Hl. reflexivity. }
  rewrite Hl in H1. cbn [ls_server] in H1.
  set (m1 := {| server := _; disk := disk m |}) in H1.
  assert (H2 : advance_process (Running m1) (Take i) =
            (Running
               {| server :=
                    {| dpc := c0; connected := Int.to_int32 (connected (server m) + 1);
                       pool := pool (server m); fw := [];
                       ftpWriters := <[peerKey d := next (server m)]> (ftpWriters (server m));
                       heap := <[next (server m) := FTPFileWriter_new (peerKey d)]>
                                 (heap (server m));
                       next := S (next (server m)) |};
                  disk := disk m;
                  hosting := <[i := (next (server m), false)]> (hosting m);
                  stalled := None |}, [])).
  { cbn [advance_process]. unfold do_take, m1. cbn [hosting server pool fw].
    rewrite Hh, Hrun. reflexivity. }
  split.
  2:{ exists sent0. cbn [play]. rewrite Hhail. unfold do_takes. cbn [foldl].
      unfold do_take. cbn [hosting server pool fw]. rewrite Hh, Hrun.
      cbn [last removelast]. unfold listen_store. cbn [server fw last].
      by rewrite app_nil_r. }
  assert (H0 : advance_process (Running m) (Hail stack (Some d) []) = (Running m1, sent0)).
  { rewrite Hhail. unfold do_takes. cbn [foldl]. unfold listen_store.
    cbn [server fw last disk hosting stalled dpc connected pool ftpWriters heap next].
    reflexivity. }
  eexists _, sent0. split; [|split; [|split; [|split; [|split; [|split]]]]].
  - cbn [play]. rewrite H1, H2. by rewrite !app_nil_r.
  - cbn [play]. rewrite H0, H2. by rewrite !app_nil_r.
  - unfold serving. cbn [stalled server dpc hosting heap ftpWriters].
    split; [done|]. split; [done|]. split; [apply lookup_insert_eq|].
    split; [exists false; apply lookup_insert_eq|].
    exists (FTPFileWriter_new (peerKey d)). rewrite lookup_insert_eq. done.
  - done.
  - done.
  - done.
  - done.
Qed.

(** X25. Back-pressure.  A frame for a writer whose channel is full is
    acknowledged, and the dispatcher is then parked in the send: the
    next datagram is not read.  Once the writer has taken a message
    from the channel and the dispatcher runs again, the payload
    becomes the newest message of the channel and the dispatcher is
    free.  (The message the writer takes holds its [status] field;
    with one that does not, the trip of the writer reads past it.) *)
Theorem full_channel_parks_dispatcher (key : string) (p : ptr) (i : nat) (asleep : bool)
    (m : machine) (w : FTPFileWriter) (oldest : list byte) (rest : list (list byte))
    (stack stack2 : PDU) (d : datagram) (rx2 : option datagram) :
  stalled m = None →
  isAddrInit (inSockAddr (dpc (server m))) = true →
  ftpWriters (server m) !! key = Some p → heap (server m) !! p = Some w →
  hosting m !! i = Some (p, asleep) →
  Channel.open (stream w) = true →
  Channel.buffer (stream w) = oldest :: rest →
  Channel.size (stream w) = Int.to_size_t (Channel.maxSize (stream w)) →
  refuses (disk m) (fileName oldest) = false →
  peerKey d = key → sizeof_PDU < arrived d →
  mtype (PDU_of_bytes (landed d)) ≠ MsgType.CLOSE →
  let r := listen (server m) stack (Some d) in
  ls_fate r = Blocked (carried d) ∧
  (∃ m1,
     play (Running m) [Datagram stack (Some d); Datagram stack2 rx2] =
       (Running m1, ls_log r) ∧
     stalled m1 = Some (p, carried d) ∧ server m1 = ls_server r) ∧
  if status_in_reach oldest then
    ∃ m' w',
      play (Running m) [Datagram stack (Some d); Datagram stack2 rx2; Trip i; Retry] =
        (Running m', ls_log r) ∧
      stalled m' = None ∧
      disk m' =
        write_file (fileName oldest) (status oldest =? Status.NEW)
          (drop (Z.to_nat sizeof_FTP_PDU) oldest) (disk m) ∧
      heap (server m') !! p = Some w' ∧
      Channel.buffer (stream w') = rest ++ [carried d] ∧
      dpc (server m') = dpc (ls_server r)
  else
    play (Running m) [Datagram stack (Some d); Datagram stack2 rx2; Trip i; Retry] =
      (Derailed "status read past the end of the message", ls_log r).
Proof.
  intros Hst Hi Hk Hw Hh Ho Hb Hfull Href Hkey Hsz Hmt r.
  assert (Hwo : writer_of (server m) (peerKey d) = Some (p, w)).
  { unfold writer_of. by rewrite Hkey, Hk, Hw. }
  destruct (listen_payload_spelt (server m) stack d p w Hi Hsz Hmt Hwo Ho)
    as (table & log & Hl).
  replace (Channel.size (stream w) <? Int.to_size_t (Channel.maxSize (stream w)))
    with false in Hl by (symmetry; apply Z.ltb_ge; lia).
  fold (carried d) in Hl. fold r in Hl.
  set (w1 := set_stream _ w) in Hl.
  set (s1 := set_heap _ _) in Hl.
  assert (Hw1 : writer_of s1 (peerKey d) = Some (p, w1)).
  { unfold writer_of, s1. cbn [ftpWriters heap set_heap set_dpc].
    by rewrite Hkey, Hk, lookup_insert_eq. }
  set (m1 := {| server := s1; disk := disk m; hosting := hosting m;
                stalled := Some (p, carried d) |}).
  assert (H1 : advance_process (Running m) (Datagram stack (Some d)) =
                 (Running m1, log)).
  { cbn [advance_process]. unfold do_listen. rewrite Hst. fold r. rewrite Hl.
    cbn [ls_fate ls_server ls_log].
    change (inet_ntoa (sin_addr (addr (outSockAddr (dpc s1))))) with (peerKey d).
    rewrite Hw1. reflexivity. }
  assert (H2 : advance_process (Running m1) (Datagram stack2 rx2) = (Running m1, [])).
  { reflexivity. }
  split; [by rewrite Hl|]. split.
  { exists m1. split; [|split; [done|by rewrite Hl]]. cbn [play]. rewrite H1, H2, Hl.
    cbn [ls_log]. by rewrite !app_nil_r. }
  destruct (status_in_reach oldest) eqn:Hlong.
  2:{ pose proof (trip_short asleep (S i) w1 (disk m) oldest rest Hb Href Hlong) as Htrip.
      cbn [play]. rewrite H1, H2. cbn [advance_process]. unfold do_trip, m1.
      cbn [hosting server disk stalled].
      rewrite Hh. unfold s1 at 1. cbn [heap set_heap]. rewrite lookup_insert_eq.
      rewrite Htrip. rewrite Hl. cbn [ls_log advance_process app].
      rewrite ?app_nil_r. reflexivity. }
  destruct (trip_front asleep (S i) w1 (disk m) oldest rest)
    as (w2 & Htrip & Hb2 & Ho2 & Hm2 & _); [done..|].
  set (m2 := {| server := set_heap (<[p := w2]> (heap s1)) s1;
                disk := write_file (fileName oldest) (status oldest =? Status.NEW)
                          (drop (Z.to_nat sizeof_FTP_PDU) oldest) (disk m);
                hosting := <[i := (p, false)]> (hosting m);
                stalled := Some (p, carried d) |}).
  assert (H3 : advance_process (Running m1) (Trip i) = (Running m2, [])).
  { cbn [advance_process]. unfold do_trip, m1. cbn [hosting server disk stalled].
    rewrite Hh. unfold s1 at 1. cbn [heap set_heap]. rewrite lookup_insert_eq.
    rewrite Htrip. reflexivity. }
  assert (Hroom : Channel.size (Channel.leave_sender dispatcher (stream w2))
                  < Int.to_size_t (Channel.maxSize
                                     (Channel.leave_sender dispatcher (stream w2)))).
  { unfold Channel.size in *. cbn [Channel.buffer Channel.maxSize Channel.leave_sender].
    rewrite Hb2, Hm2. unfold w1. cbn [stream set_stream Channel.maxSize].
    rewrite <- Hfull, Hb. simpl. lia. }
  destruct (ChannelFacts.send_wait_cases dispatcher (carried d)
              (Channel.leave_sender dispatcher (stream w2)))
    as [(_ & Hsend)|(Hno & _)]; [|lia].
  eexists _, _. split; [|split; [|split; [|split; [|split]]]].
  - cbn [play]. rewrite H1, H2, H3. cbn [advance_process]. unfold do_retry, m2.
    cbn [stalled server heap set_heap]. rewrite lookup_insert_eq, Hsend.
    rewrite Hl. cbn [ls_log]. rewrite !app_nil_r. reflexivity.
  - done.
  - done.
  - cbn [server heap set_heap]. apply lookup_insert_eq.
  - cbn [stream set_stream Channel.buffer Channel.leave_sender]. by rewrite Hb2.
  - rewrite Hl. done.
Qed.

End Facts.

End ProcessFacts.

(** ** The client *)

Module ClientFacts.
Import Wire Conn Server Client IntFacts WireFacts ConnFacts ConnNotions ClientNotions.
Import ConnMore.

#[local] Existing Instance healthy.

Section Header.
Variables (garbage name : list byte).
Hypothesis Hgarbage : length garbage = 100%nat.
Hypothesis Hname : (length (c_str name) < 100)%nat.

Lemma fileName_field :
  write_at 0 (c_str name ++ [Byte.x00]) garbage =
    c_str name ++ [Byte.x00] ++ drop (length (c_str name) + 1) garbage.
Proof.
  unfold write_at. rewrite take_0, app_nil_l, Nat.add_0_l, length_app, <- app_assoc. done.
Qed.

Lemma length_FTP_PDU_bytes (st : Z) : length (FTP_PDU_bytes garbage name st) = 112%nat.
Proof.
  unfold FTP_PDU_bytes. rewrite fileName_field.
  rewrite !length_app, !length_le_split, length_drop. simpl length. lia.
Qed.

Lemma c_str_idem (bs : list byte) : c_str (c_str bs) = c_str bs.
Proof.
  induction bs as [|b bs IH]; [done|]. simpl.
  destruct (Byte.eqb b Byte.x00) eqn:E; [done|]. simpl. by rewrite E, IH.
Qed.

Lemma c_str_stops (bs rest : list byte) :
  c_str (c_str bs ++ Byte.x00 :: rest) = c_str bs.
Proof.
  induction bs as [|b bs IH]; [done|]. simpl.
  destruct (Byte.eqb b Byte.x00) eqn:E; [done|]. simpl. by rewrite E, IH.
Qed.

(** What the writer reads in a message of [start]. *)
Lemma message_fields (st : Z) (piece : list byte) :
  - 2 ^ 31 <= st < 2 ^ 31 →
  let m := FTP_PDU_bytes garbage name st ++ piece in
  fileName m = string_of_list_byte (c_str name) ∧ status m = st ∧
  drop (Z.to_nat sizeof_FTP_PDU) m = piece.
Proof.
  intros Hst m. split; [|split].
  - unfold fileName, m, FTP_PDU_bytes. rewrite fileName_field.
    rewrite <- !app_assoc. cbn [app]. by rewrite c_str_stops.
  - unfold status, m, FTP_PDU_bytes.
    rewrite <- !app_assoc.
    rewrite (app_assoc (write_at _ _ _) (le_split 4 1)).
    rewrite int_at_split; [by apply to_int32_id|].
    rewrite length_app, length_le_split, fileName_field.
    rewrite !length_app, length_drop. simpl length. lia.
  - unfold m. change (Z.to_nat sizeof_FTP_PDU) with 112%nat.
    rewrite drop_app_length'; [done|]. by rewrite length_FTP_PDU_bytes.
Qed.

End Header.

Lemma conveys_nil hdr st msgs : conveys hdr st [] msgs → msgs = [].
Proof.
  destruct msgs as [|m msgs]; [done|]. simpl.
  intros (piece & Hne & _ & _ & Htake & _). rewrite take_nil in Htake. congruence.
Qed.

(** [disconnect] on an endpoint that can send. *)
Lemma disconnect_ready (peer : sockaddr_in) (c : Connection) (rx : option datagram) :
  ready peer c →
  ∃ ret c' closing frame,
    disconnect c rx = Sent ret c' closing ∧ wire closing = [frame] ∧
    length frame = 20%nat ∧ mtype (PDU_of_bytes frame) = MsgType.CLOSE ∧
    hd_error closing = Some (Sendto peer frame).
Proof.
  intros (Hinit & Hpeer & Hseq & Hlen). unfold disconnect.
  rewrite sendRaw_bound by done. rewrite Hpeer.
  set (frame := PDU_bytes _).
  change (sendto (udpSock c) peer frame) with 20.
  change (negb (Int.to_size_t 20 =? sizeof_PDU)) with false. cbv iota.
  assert (Hmt : mtype (PDU_of_bytes frame) = MsgType.CLOSE).
  { unfold frame. rewrite <- (app_nil_r (PDU_bytes _)), PDU_of_bytes_PDU_bytes. done. }
  destruct (recvRaw c frame sizeof_PDU rx) as [[rcvSz c'] buff].
  destruct (negb (Int.to_size_t rcvSz =? sizeof_PDU)); [by eexists _, _, _, frame|].
  destruct (negb (mtype (PDU_of_bytes buff) =? MsgType.CLOSEACK));
    by eexists _, _, _, frame.
Qed.

Lemma loops_eof (rxs : list (option datagram)) (c : Connection) (sBuff garbage name : list byte)
    (st dataPtr : Z) (log : list Conn.event) :
  loops rxs c sBuff garbage name st [] 0 dataPtr log = finish c log rxs.
Proof. by destruct rxs. Qed.

Lemma loops_head (rx : option datagram) (rxs : list (option datagram)) (c : Connection)
    (sBuff garbage name : list byte) (st dataPtr : Z) (file : list byte)
    (log : list Conn.event) :
  file ≠ [] →
  loops (rx :: rxs) c sBuff garbage name st file 0 dataPtr log =
    let chunk := take 500 file in
    let sBuff1 :=
      write_at 0 (FTP_PDU_bytes garbage name st)
        (write_at (Z.to_nat sizeof_FTP_PDU) chunk sBuff) in
    let remaining := Z.of_nat (length chunk) in
    match sendDgram c sBuff1 (Int.to_int32 (Int.to_size_t (remaining + sizeof_FTP_PDU))) rx with
    | Undefined => Astray
    | Sent sndSz c' sent =>
        if sndSz <? sizeof_FTP_PDU then
          loops rxs c' sBuff1 garbage name st (drop 500 file) 0 sizeof_FTP_PDU (log ++ sent)
        else
          let remaining' := Int.to_size_t (remaining - (sndSz - sizeof_FTP_PDU)) in
          let dataPtr' := sizeof_FTP_PDU + (sndSz - sizeof_FTP_PDU) in
          if remaining' >? 0 then
            if sizeof_sBuff <? dataPtr' + remaining' then Astray
            else
              loops rxs c'
                (write_at (Z.to_nat sizeof_FTP_PDU)
                   (take (Z.to_nat remaining') (drop (Z.to_nat dataPtr') sBuff1)) sBuff1)
                garbage name Status.APPEND (drop 500 file) remaining' dataPtr' (log ++ sent)
          else
            loops rxs c' sBuff1 garbage name st (drop 500 file) 0 dataPtr' (log ++ sent)
    end.
Proof.
  intros Hfile. cbn [loops]. change (0 =? 0) with true. cbn [andb].
  replace (Z.of_nat (length (take 500 file)) =? 0) with false; [reflexivity|].
  symmetry. apply Z.eqb_neq. rewrite length_take. destruct file; [done|]. cbn [length]. lia.
Qed.

Lemma loops_inner (rx : option datagram) (rxs : list (option datagram)) (c : Connection)
    (sBuff garbage name : list byte) (st remaining dataPtr : Z) (file : list byte)
    (log : list Conn.event) :
  remaining ≠ 0 →
  loops (rx :: rxs) c sBuff garbage name st file remaining dataPtr log =
    let sBuff1 := write_at 0 (FTP_PDU_bytes garbage name st) sBuff in
    match sendDgram c sBuff1 (Int.to_int32 (Int.to_size_t (remaining + sizeof_FTP_PDU))) rx with
    | Undefined => Astray
    | Sent sndSz c' sent =>
        if sndSz <? sizeof_FTP_PDU then
          loops rxs c' sBuff1 garbage name st file 0 dataPtr (log ++ sent)
        else
          let remaining' := Int.to_size_t (remaining - (sndSz - sizeof_FTP_PDU)) in
          let dataPtr' := dataPtr + (sndSz - sizeof_FTP_PDU) in
          if remaining' >? 0 then
            if sizeof_sBuff <? dataPtr' + remaining' then Astray
            else
              loops rxs c'
                (write_at (Z.to_nat sizeof_FTP_PDU)
                   (take (Z.to_nat remaining') (drop (Z.to_nat dataPtr') sBuff1)) sBuff1)
                garbage name Status.APPEND file remaining' dataPtr' (log ++ sent)
          else
            loops rxs c' sBuff1 garbage name st file 0 dataPtr' (log ++ sent)
    end.
Proof.
  intros Hr. cbn [loops].
  replace (remaining =? 0) with false by (symmetry; by apply Z.eqb_neq).
  reflexivity.
Qed.

Lemma finish_ready (peer : sockaddr_in) (c : Connection) (log : list Conn.event)
    (rx : option datagram) (rxs : list (option datagram)) :
  ready peer c →
  ∃ c' closing frame,
    finish c log (rx :: rxs) = Done c' (log ++ closing) ∧ wire closing = [frame] ∧
    length frame = 20%nat ∧ mtype (PDU_of_bytes frame) = MsgType.CLOSE.
Proof.
  intros Hc. destruct (disconnect_ready peer c rx Hc)
    as (ret & c' & closing & frame & Hd & Hw & Hl & Hm & _).
  unfold finish. rewrite Hd. by exists c', closing, frame.
Qed.

Lemma ceil_step (n : Z) : 500 <= n → (n + 499) / 500 = (n - 500 + 499) / 500 + 1.
Proof.
  intros Hn. replace (n + 499) with (n - 500 + 499 + 1 * 500) by lia.
  by rewrite Z.div_add by lia.
Qed.

Lemma ceil_pos (n : Z) : 0 < n → 1 <= (n + 499) / 500.
Proof. intros Hn. apply Z.div_le_lower_bound; lia. Qed.

Section Loops.
Variables (garbage name : list byte) (peer : sockaddr_in).
Hypothesis Hgarbage : length garbage = 100%nat.
Hypothesis Hname : (length (c_str name) < 100)%nat.

Let hdr := FTP_PDU_bytes garbage name.

(** The loops of [start] with a kernel that takes every datagram:
    from the head of the outer loop ([remaining = 0]), or from the
    head of the inner loop with the rest [tailc] of a chunk at
    [sBuff + pduSize]. *)
Lemma loops_run (rxs : list (option datagram)) :
  ∀ (c : Connection) (sBuff : list byte) (st : Z) (file : list byte)
    (remaining dataPtr : Z) (log : list Conn.event) (tailc : list byte),
    ready peer c → all_from peer rxs → length sBuff = 612%nat →
    st = Status.NEW ∨ st = Status.APPEND →
    (remaining = 0 ∧ tailc = [] ∨
     0 < remaining <= 100 ∧ st = Status.APPEND ∧
     Z.of_nat (length tailc) = remaining ∧
     take (Z.to_nat remaining) (drop 112 sBuff) = tailc) →
    (if remaining =? 0 then 0 else 1)
      + 2 * ((Z.of_nat (length file) + 499) / 500) + 1 <= Z.of_nat (length rxs) →
    ∃ c' frames closing close_frame,
      loops rxs c sBuff garbage name st file remaining dataPtr log =
        Done c' (log ++ map (Sendto peer) frames ++ closing) ∧
      conveys hdr st (tailc ++ file) (map payload frames) ∧
      Forall data_frame frames ∧
      wire closing = [close_frame] ∧ length close_frame = 20%nat ∧
      mtype (PDU_of_bytes close_frame) = MsgType.CLOSE.
Proof.
  induction rxs as [|rx rxs IH];
    intros c sBuff st file remaining dataPtr log tailc Hc Hfrom Hlen Hst Hpos Hfuel.
  { cbn [length] in Hfuel. change (Z.of_nat 0) with 0 in Hfuel.
    pose proof (Z.div_pos (Z.of_nat (length file) + 499) 500 ltac:(lia) ltac:(lia)).
    destruct (remaining =? 0); lia. }
  apply Forall_cons in Hfrom as [Hrx Hfrom].
  assert (Lhdr : ∀ s, length (hdr s) = 112%nat)
    by (intros s; by apply length_FTP_PDU_bytes).
  destruct Hpos as [[-> ->]|(Hr & -> & Ltail & Htail)].
  - (* the head of the outer loop *)
    change (0 =? 0) with true in Hfuel. cbv iota in Hfuel. cbn [app].
    destruct file as [|b0 file0] eqn:Efile.
    { rewrite loops_eof.
      destruct (finish_ready peer c log rx rxs Hc) as (c' & closing & fr & Hf & Hw & Hl & Hm).
      exists c', [], closing, fr. by rewrite Hf. }
    rewrite <- Efile in *. assert (Hfile : file ≠ []) by (by rewrite Efile).
    clear Efile b0 file0.
    rewrite loops_head by done. cbv zeta.
    set (chunk := take 500 file).
    set (b := Z.of_nat (length chunk)).
    assert (Hb : 0 < b <= 500).
    { unfold b, chunk. rewrite length_take. destruct file; [done|]. cbn [length]. lia. }
    assert (Hb' : b = Z.min 500 (Z.of_nat (length file))).
    { unfold b, chunk. rewrite length_take. lia. }
    set (rest := drop (112 + length chunk) sBuff).
    assert (HsBuff : write_at 0 (hdr st) (write_at (Z.to_nat sizeof_FTP_PDU) chunk sBuff)
                     = hdr st ++ chunk ++ rest).
    { change (Z.to_nat sizeof_FTP_PDU) with 112%nat. unfold write_at at 2.
      apply write_at_0. rewrite Lhdr, length_take. lia. }
    fold hdr. rewrite HsBuff.
    set (sBuff1 := hdr st ++ chunk ++ rest).
    assert (L1 : length sBuff1 = 612%nat).
    { unfold sBuff1, rest. rewrite !length_app, Lhdr, length_drop. unfold b in Hb. lia. }
    change sizeof_FTP_PDU with 112.
    rewrite (to_size_t_id (b + 112)), (to_int32_id (b + 112)) by lia.
    destruct (sendDgram_healthy peer c sBuff1 (b + 112) rx Hc ltac:(lia) Hrx)
      as (c1 & frame & Hsend & Hc1 & Hpay & Lf & Hmt & _).
    cbv zeta in Hsend. rewrite Hsend.
    set (sz := Z.min (b + 112) MAX_BUFF_SZ) in *.
    assert (Hsz : 112 < sz <= 512) by (unfold sz, MAX_BUFF_SZ; lia).
    replace (sz <? 112) with false by (symmetry; apply Z.ltb_ge; lia).
    assert (Hframe : data_frame frame).
    { split.
      - rewrite Hmt. destruct (_ <=? _); auto.
      - rewrite Lf. change (Z.to_nat (sizeof_PDU + sizeof_FTP_PDU)) with 132%nat.
        change (Z.to_nat MAX_DGRAM_SZ) with 532%nat. lia. }
    destruct (Z.le_gt_cases b 400) as [Hsmall|Hbig].
    + (* the chunk fits one frame *)
      assert (Esz : sz = b + 112) by (unfold sz, MAX_BUFF_SZ; lia).
      rewrite Esz in *.
      replace (b - (b + 112 - 112)) with 0 by lia.
      change (Int.to_size_t 0 >? 0) with false. cbv iota.
      assert (Hall : chunk = file).
      { unfold chunk. apply take_ge. lia. }
      assert (Hrest : drop 500 file = []) by (apply drop_ge; lia).
      rewrite Hrest.
      destruct (IH c1 sBuff1 st [] 0 (112 + (b + 112 - 112)) (log ++ [Sendto peer frame]) [])
        as (c' & frames & closing & fr & Hrun & Hconv & Hok & Hw & Hl & Hm);
        try done.
      { by left. }
      { change (0 =? 0) with true. cbv iota. cbn [length] in Hfuel |- *.
        pose proof (ceil_pos (Z.of_nat (length file)) ltac:(lia)).
        change ((Z.of_nat 0 + 499) / 500) with 0. lia. }
      apply conveys_nil in Hconv. apply map_eq_nil in Hconv. subst frames.
      exists c', [frame], closing, fr. rewrite Hrun.
      split; [by rewrite <- app_assoc|]. split; [|split; [by constructor|done]].
      cbn [map conveys]. exists file.
      split; [done|]. split; [lia|].
      split.
      { rewrite Hpay. unfold sBuff1. rewrite Hall.
        replace (Z.to_nat (b + 112)) with (length (hdr st) + length file)%nat
          by (rewrite Lhdr; lia).
        rewrite take_app_add, take_app_length. done. }
      split; [by rewrite take_ge|]. by rewrite drop_ge.
    + (* the chunk takes a fragment and a second frame *)
      assert (Esz : sz = 512) by (unfold sz, MAX_BUFF_SZ; lia).
      rewrite Esz in *.
      replace (b - (512 - 112)) with (b - 400) by lia.
      rewrite (to_size_t_id (b - 400)) by lia.
      replace (b - 400 >? 0) with true by (symmetry; apply Z.gtb_lt; lia).
      replace (sizeof_sBuff <? 112 + (512 - 112) + (b - 400)) with false
        by (symmetry; apply Z.ltb_ge; unfold sizeof_sBuff, sizeof_FTP_PDU; lia).
      change (Z.to_nat (112 + (512 - 112))) with 512%nat.
      set (tl := drop 400 chunk).
      assert (Ltl : Z.of_nat (length tl) = b - 400).
      { unfold tl. rewrite length_drop. unfold b. lia. }
      assert (Htl : take (Z.to_nat (b - 400)) (drop 512 sBuff1) = tl).
      { unfold sBuff1.
        replace 512%nat with (length (hdr st) + 400)%nat by (rewrite Lhdr; lia).
        rewrite drop_app_add. rewrite drop_app_le by (unfold b in *; lia).
        fold tl. apply take_app_length'. lia. }
      rewrite Htl.
      set (sBuff2 := write_at (Z.to_nat 112) tl sBuff1).
      assert (L2 : length sBuff2 = 612%nat).
      { unfold sBuff2. rewrite write_at_length; [done|].
        change (Z.to_nat 112) with 112%nat. lia. }
      assert (Hhead : take (Z.to_nat (b - 400)) (drop 112 sBuff2) = tl).
      { unfold sBuff2, write_at. change (Z.to_nat 112) with 112%nat.
        assert (L : length (take 112 sBuff1) = 112%nat) by (rewrite length_take; lia).
        rewrite drop_app_length' by done. apply take_app_length'. lia. }
      destruct (IH c1 sBuff2 Status.APPEND (drop 500 file) (b - 400) (112 + (512 - 112))
                  (log ++ [Sendto peer frame]) tl)
        as (c' & frames & closing & fr & Hrun & Hconv & Hok & Hw & Hl & Hm);
        try done.
      { by right. }
      { right. split; [lia|]. split; [done|]. split; [done|]. exact Hhead. }
      { replace (b - 400 =? 0) with false by (symmetry; apply Z.eqb_neq; lia).
        rewrite length_drop. cbn [length] in Hfuel.
        destruct (Z.le_gt_cases 500 (Z.of_nat (length file))) as [Hlong|Hshort].
        - rewrite (ceil_step (Z.of_nat (length file))) in Hfuel by lia.
          replace (Z.of_nat (length file - 500)) with (Z.of_nat (length file) - 500) by lia.
          lia.
        - replace (Z.of_nat (length file - 500)) with 0 by lia.
          change ((0 + 499) / 500) with 0.
          pose proof (ceil_pos (Z.of_nat (length file)) ltac:(lia)). lia. }
      exists c', (frame :: frames), closing, fr. rewrite Hrun.
      split; [by rewrite <- app_assoc|]. split; [|split; [by constructor|done]].
      cbn [map conveys]. exists (take 400 file).
      assert (L400 : length (take 400 file) = 400%nat) by (rewrite length_take; lia).
      rewrite L400.
      split. { intros E. rewrite E in L400. done. }
      split; [lia|].
      split.
      { rewrite Hpay. unfold sBuff1.
        replace (Z.to_nat 512) with (length (hdr st) + 400)%nat by (rewrite Lhdr; lia).
        rewrite take_app_add. f_equal.
        rewrite take_app_le by (unfold b in *; lia).
        unfold chunk. rewrite take_take. f_equal. }
      split; [done|].
      replace (drop 400 file) with (tl ++ drop 500 file); [done|].
      unfold tl, chunk. rewrite skipn_firstn_comm.
      change (500 - 400)%nat with 100%nat.
      rewrite <- (take_drop 100 (drop 400 file)) at 2. rewrite drop_drop. done.
  - (* the head of the inner loop, the rest of a chunk to send *)
    replace (remaining =? 0) with false in Hfuel by (symmetry; apply Z.eqb_neq; lia).
    rewrite loops_inner by lia. cbv zeta.
    assert (HsBuff : write_at 0 (hdr Status.APPEND) sBuff
                     = hdr Status.APPEND ++ drop 112 sBuff).
    { rewrite <- (take_drop 112 sBuff) at 1. apply write_at_0.
      rewrite Lhdr, length_take. lia. }
    fold hdr. rewrite HsBuff.
    set (sBuff1 := hdr Status.APPEND ++ drop 112 sBuff).
    assert (L1 : length sBuff1 = 612%nat).
    { unfold sBuff1. rewrite length_app, Lhdr, length_drop. lia. }
    change sizeof_FTP_PDU with 112.
    rewrite (to_size_t_id (remaining + 112)), (to_int32_id (remaining + 112)) by lia.
    destruct (sendDgram_healthy peer c sBuff1 (remaining + 112) rx Hc ltac:(lia) Hrx)
      as (c1 & frame & Hsend & Hc1 & Hpay & Lf & Hmt & _).
    cbv zeta in Hsend. rewrite Hsend.
    assert (Esz : Z.min (remaining + 112) MAX_BUFF_SZ = remaining + 112)
      by (unfold MAX_BUFF_SZ; lia).
    rewrite Esz in *.
    replace (remaining + 112 <? 112) with false by (symmetry; apply Z.ltb_ge; lia).
    replace (remaining - (remaining + 112 - 112)) with 0 by lia.
    change (Int.to_size_t 0 >? 0) with false. cbv iota.
    assert (Hframe : data_frame frame).
    { split.
      - rewrite Hmt. destruct (_ <=? _); auto.
      - rewrite Lf. change (Z.to_nat (sizeof_PDU + sizeof_FTP_PDU)) with 132%nat.
        change (Z.to_nat MAX_DGRAM_SZ) with 532%nat. lia. }
    destruct (IH c1 sBuff1 Status.APPEND file 0 (dataPtr + (remaining + 112 - 112))
                (log ++ [Sendto peer frame]) [])
      as (c' & frames & closing & fr & Hrun & Hconv & Hok & Hw & Hl & Hm);
      try done; try (by right); try (by left).
    { change (0 =? 0) with true. cbv iota. cbn [length] in Hfuel. lia. }
    exists c', (frame :: frames), closing, fr. rewrite Hrun.
    split; [by rewrite <- app_assoc|]. split; [|split; [by constructor|done]].
    cbn [map conveys]. exists tailc.
    split. { intros E. rewrite E in Ltail. simpl in Ltail. lia. }
    split; [lia|].
    split.
    { rewrite Hpay. unfold sBuff1.
      replace (Z.to_nat (remaining + 112)) with (length (hdr Status.APPEND) + Z.to_nat remaining)%nat
        by (rewrite Lhdr; lia).
      rewrite take_app_add. by rewrite Htail. }
    split; [by rewrite take_app_length|]. by rewrite drop_app_length.
Qed.

(** What the messages of a file look like to the writer. *)
Lemma conveys_facts (msgs : list (list byte)) :
  ∀ st bs, st = Status.NEW ∨ st = Status.APPEND →
    conveys hdr st bs msgs →
    concat (map (drop (Z.to_nat sizeof_FTP_PDU)) msgs) = bs ∧
    Forall (λ m, fileName m = string_of_list_byte (c_str name)) msgs ∧
    match msgs with
    | [] => True
    | first :: others =>
        status first = st ∧ Forall (λ m, status m ≠ Status.NEW) others
    end.
Proof.
  induction msgs as [|m msgs IH]; intros st bs Hst Hconv.
  - simpl in Hconv. by subst.
  - cbn [conveys] in Hconv. destruct Hconv as (piece & Hne & Hle & -> & Htake & Hrest).
    destruct (IH Status.APPEND _ ltac:(by right) Hrest) as (Hcat & Hnames & Hstat).
    assert (Hr : - 2 ^ 31 <= st < 2 ^ 31) by (destruct Hst as [-> | ->]; done).
    destruct (message_fields garbage name Hgarbage Hname st piece Hr) as (Hf & Hs & Hd).
    fold hdr in Hf, Hs, Hd.
    split; [|split; [|split]].
    + cbn [map concat]. rewrite Hd, Hcat. rewrite <- Htake at 1. apply take_drop.
    + by constructor.
    + done.
    + destruct msgs as [|m2 msgs]; [done|]. destruct Hstat as [Hs2 Hothers].
      constructor; [by rewrite Hs2|done].
Qed.

(** X26. [start] on a connected endpoint, with a kernel that takes every
    datagram and an answer for every frame: the file goes out in
    messages of the header and a piece of 1 to 400 bytes of the file,
    the pieces in order; the first message has status NEW and the
    others APPEND; every message travels in a frame of its own, a SND
    or a SENDFRAGMENT; after the last one [disconnect] sends the
    CLOSE. *)
Theorem start_sends_file (c : Connection) (bs : list byte)
    (rxs : list (option datagram)) :
  Conn.connected c = true → ready peer c → all_from peer rxs →
  2 * ((Z.of_nat (length bs) + 499) / 500) + 1 <= Z.of_nat (length rxs) →
  ∃ c' frames closing close_frame,
    start c (Some bs) garbage name rxs =
      Done c' (map (Sendto peer) frames ++ closing) ∧
    conveys hdr Status.NEW bs (map payload frames) ∧
    concat (map (λ f, drop (Z.to_nat sizeof_FTP_PDU) (payload f)) frames) = bs ∧
    Forall data_frame frames ∧
    wire closing = [close_frame] ∧ length close_frame = 20%nat ∧
    mtype (PDU_of_bytes close_frame) = MsgType.CLOSE.
Proof.
  intros Hcon Hc Hfrom Hfuel.
  destruct (loops_run rxs c (repeat Byte.x00 (Z.to_nat sizeof_sBuff)) Status.NEW bs 0
              sizeof_FTP_PDU [] [])
    as (c' & frames & closing & fr & Hrun & Hconv & Hok & Hw & Hl & Hm); try done.
  { by left. }
  { by left. }
  exists c', frames, closing, fr. split; [|split; [done|split; [|done]]].
  - unfold start. rewrite Hcon. cbn [negb].
    replace (100 <=? Z.of_nat (length (c_str name))) with false
      by (symmetry; apply Z.leb_gt; lia).
    destruct Hc as (-> & _). cbn [negb]. exact Hrun.
  - destruct (conveys_facts (map payload frames) Status.NEW bs ltac:(by left) Hconv)
      as (Hcat & _). by rewrite map_map in Hcat.
Qed.

(** How the dispatcher sees a data frame of [start] that comes from
    [a]. *)
Lemma data_frame_arrives (a : sockaddr_in) (f : list byte) :
  data_frame f →
  let d := {| src := a; data := f |} in
  ServerNotions.peerKey d = inet_ntoa (sin_addr a) ∧
  sizeof_PDU < ServerNotions.arrived d ∧
  mtype (PDU_of_bytes (ServerNotions.landed d)) ≠ MsgType.CLOSE ∧
  ServerNotions.carried d = payload f ∧
  status_in_reach (payload f) = true.
Proof.
  intros [Hmt Hlen] d.
  change (Z.to_nat (sizeof_PDU + sizeof_FTP_PDU)) with 132%nat in Hlen.
  change (Z.to_nat MAX_DGRAM_SZ) with 532%nat in Hlen.
  assert (Htake : take (Z.to_nat MAX_DGRAM_SZ) f = f).
  { apply take_ge. change (Z.to_nat MAX_DGRAM_SZ) with 532%nat. lia. }
  split; [done|]. split; [|split; [|split]].
  - unfold ServerNotions.arrived, d. cbn [data]. rewrite Htake. unfold sizeof_PDU. lia.
  - rewrite ServerFacts.landed_alt. unfold d. cbn [data]. rewrite Htake.
    rewrite PDU_of_bytes_app by lia. by destruct Hmt as [-> | ->].
  - unfold ServerNotions.carried, d, payload. cbn [data]. by rewrite Htake.
  - unfold status_in_reach, payload. apply Z.leb_le. rewrite length_drop.
    change (Z.to_nat sizeof_PDU) with 20%nat. lia.
Qed.

(** X27. A file on its way from the client to the disk of the server.
    The frames that [start] sends for a file that is not empty, taken
    by the dispatcher one after the other from a host that is being
    served, each followed by a trip of the writer of that host, leave
    on the disk of the server a file of the name sent with the content
    of the file read; the other files are as they were. *)
Theorem file_reaches_server_disk (c : Connection) (bs : list byte)
    (rxs : list (option datagram)) (a : sockaddr_in) (p : Server.ptr) (i : nat)
    (m : Server.machine) (stack : PDU) :
  Conn.connected c = true → ready peer c → all_from peer rxs →
  2 * ((Z.of_nat (length bs) + 499) / 500) + 1 <= Z.of_nat (length rxs) →
  bs ≠ [] →
  ServerNotions.serving (inet_ntoa (sin_addr a)) p i m →
  refuses (disk m) (string_of_list_byte (c_str name)) = false →
  ∃ c' frames closing m' log,
    start c (Some bs) garbage name rxs =
      Done c' (map (Sendto peer) frames ++ closing) ∧
    play (Running m)
      (ServerNotions.rounds stack i (map (λ f, {| src := a; data := f |}) frames)) =
      (Running m', log) ∧
    files (disk m') !! string_of_list_byte (c_str name) = Some bs ∧
    (∀ other, other ≠ string_of_list_byte (c_str name) →
       files (disk m') !! other = files (disk m) !! other) ∧
    ServerNotions.serving (inet_ntoa (sin_addr a)) p i m'.
Proof.
  intros Hcon Hc Hfrom Hfuel Hbs Hserv Href.
  destruct (loops_run rxs c (repeat Byte.x00 (Z.to_nat sizeof_sBuff)) Status.NEW bs 0
              sizeof_FTP_PDU [] [])
    as (c' & frames & closing & fr & Hrun & Hconv & Hok & _); try done.
  { by left. }
  { by left. }
  cbn [app] in Hrun, Hconv.
  destruct (conveys_facts (map payload frames) Status.NEW bs ltac:(by left) Hconv)
    as (Hcat & Hnames & Hstat).
  set (ds := map (λ f, {| src := a; data := f |}) frames).
  assert (Hcarried : map ServerNotions.carried ds = map payload frames).
  { unfold ds. rewrite map_map. apply map_ext_Forall.
    eapply Forall_impl; [exact Hok|]. intros f Hf.
    by destruct (data_frame_arrives a f Hf) as (_ & _ & _ & -> & _). }
  destruct (ProcessFacts.rounds_run (inet_ntoa (sin_addr a)) p i stack ds m Hserv)
    as (m' & log & Hplay & Hdisk & Hserv').
  { unfold ds. rewrite Forall_map. rewrite Forall_map in Hnames.
    rewrite Forall_forall in Hok, Hnames. apply Forall_forall. intros f Hin.
    destruct (data_frame_arrives a f (Hok f Hin)) as (Hk & Hsz & Hmt & Hca & Hlong).
    cbv zeta in *. split; [done|]. split; [done|]. split; [done|].
    rewrite Hca. split; [by rewrite (Hnames f Hin)|done]. }
  exists c', frames, closing, m', log.
  split.
  { unfold start. rewrite Hcon. cbn [negb].
    replace (100 <=? Z.of_nat (length (c_str name))) with false
      by (symmetry; apply Z.leb_gt; lia).
    destruct Hc as (-> & _). cbn [negb]. exact Hrun. }
  split; [done|]. rewrite Hdisk, Hcarried.
  destruct (map payload frames) as [|first others] eqn:Emsgs.
  { simpl in Hcat. congruence. }
  destruct Hstat as [Hnew Hothers].
  apply Forall_cons in Hnames as [Hn1 Hn2].
  split; [|split; [|done]].
  - unfold ServerNotions.written. cbn [foldl].
    fold (ServerNotions.written
            (write_file (fileName first) (status first =? Status.NEW)
               (drop (Z.to_nat sizeof_FTP_PDU) first) (disk m)) others).
    erewrite WriterFacts.written_appends.
    + cbn [map concat] in Hcat. by rewrite Hcat.
    + unfold write_file. cbn [files]. rewrite Hn1, lookup_insert_eq, Hnew. reflexivity.
    + apply Forall_forall. intros x Hx. rewrite Forall_forall in Hn2, Hothers.
      split; [by apply Hn2|by apply Hothers].
  - intros other Hne. apply WriterFacts.written_other.
    apply Forall_cons. split; [by rewrite Hn1|].
    eapply Forall_impl; [exact Hn2|]. intros x ->. done.
Qed.

End Loops.

End ClientFacts.

(** ** The further properties at work *)

Module Examples.
Import Wire Conn Server Client Sample Fixtures.
Import ConnNotions ServerNotions ClientNotions.

#[local] Existing Instance healthy.

Lemma serverLoop_drains_channel_witness :
  ∃ w', serverLoop 3 1%nat drained roomy =
          Some (Left w', written roomy [note Status.NEW abcd; note Status.APPEND efgh]).
Proof.
  destruct (WriterFacts.serverLoop_drains_channel 1%nat drained roomy)
    as (w' & _ & _ & Hrun & _).
  { repeat constructor. }
  exists w'. exact Hrun.
Defined.

Lemma serverLoop_writes_chunks_in_order_witness :
  ∃ end_ fs', serverLoop 3 1%nat drained roomy = Some (end_, fs') ∧
              files fs' !! "x"%string = Some (abcd ++ efgh).
Proof.
  destruct (WriterFacts.serverLoop_writes_chunks_in_order 1%nat drained roomy "x"%string
              (note Status.NEW abcd) [note Status.APPEND efgh])
    as (e & fs' & Hrun & Hfile & _).
  { reflexivity. }
  { reflexivity. }
  { vm_compute. reflexivity. }
  { vm_compute. reflexivity. }
  { constructor; [|constructor]. split; [vm_compute; reflexivity|].
    vm_compute. congruence. }
  { repeat constructor. }
  exists e, fs'. split; [exact Hrun|]. exact Hfile.
Defined.

Lemma client_ready : ready station client.
Proof.
  unfold ready. split; [reflexivity|]. split; [reflexivity|]. split; [|reflexivity].
  change (seqNum client) with 1. lia.
Qed.

Lemma send_splits_into_frames_witness :
  ∃ c' frames,
    send client letters 600 0 [] [None; None] = Ended 600 c' [] (map (Sendto station) frames) ∧
    Z.of_nat (length frames) = 2.
Proof.
  destruct (ConnMore.send_splits_into_frames client letters 600 [None; None])
    as (c' & frames & Hrun & _ & _ & Hcount & _).
  { reflexivity. }
  { change (seqNum client) with 1. lia. }
  { reflexivity. }
  { change (Z.of_nat (length letters)) with 600. lia. }
  { lia. }
  { change (Z.of_nat (length [None; None])) with 2. lia. }
  { repeat constructor. }
  exists c', frames. split; [exact Hrun|]. exact Hcount.
Defined.

Lemma letter_frames_framing : framing 1 letters letter_frames.
Proof.
  cbn [framing letter_frames].
  change (Z.of_nat (length letters)) with 600.
  change (Z.min 600 MAX_BUFF_SZ) with 512. change (Z.to_nat 512) with 512%nat.
  change (drop 512 letters) with (repeat Byte.x61 88).
  change (Z.of_nat (length (repeat Byte.x61 88))) with 88.
  change (Z.min 88 MAX_BUFF_SZ) with 88. change (Z.to_nat 88) with 88%nat.
  split; [done|]. split; [vm_compute; reflexivity|]. split; [vm_compute; reflexivity|].
  split; [vm_compute; reflexivity|]. split; [vm_compute; reflexivity|].
  split; [done|]. split; [vm_compute; reflexivity|]. split; [vm_compute; reflexivity|].
  split; [vm_compute; reflexivity|]. split; [vm_compute; reflexivity|].
  vm_compute. reflexivity.
Qed.

Lemma recv_reassembles_witness :
  ∃ r' acks,
    recv endpoint blank 700 0 []
      (map (λ f, Some {| src := peer; data := f |}) letter_frames) =
      Ended 600 r' (take 600 letters ++ drop 600 blank) (map (Sendto peer) acks).
Proof.
  destruct (ConnMore.recv_reassembles endpoint peer letter_frames 1 letters blank 700)
    as (r' & acks & Hrun & _).
  { reflexivity. }
  { change (seqNum endpoint) with 0. lia. }
  { exact letter_frames_framing. }
  { done. }
  { change (Z.of_nat (length blank)) with 700. lia. }
  { lia. }
  exists r', acks. exact Hrun.
Defined.

Lemma send_recv_round_trip_witness :
  ∃ c' sent r' acks,
    send client letters 600 0 [] [None; None] = Ended 600 c' [] sent ∧
    recv endpoint blank 700 0 [] (map (λ f, Some {| src := peer; data := f |}) (wire sent)) =
      Ended 600 r' (take 600 letters ++ drop 600 blank) acks.
Proof.
  destruct (ConnMore.send_recv_round_trip client endpoint letters blank 600 700
              [None; None] peer)
    as (c' & sent & r' & acks & Hsend & Hrecv & _).
  { reflexivity. }
  { change (seqNum client) with 1. lia. }
  { reflexivity. }
  { change (Z.of_nat (length letters)) with 600. lia. }
  { change (Z.of_nat (length [None; None])) with 2. lia. }
  { repeat constructor. }
  { reflexivity. }
  { change (seqNum endpoint) with 0. lia. }
  { change (Z.of_nat (length blank)) with 700. lia. }
  { lia. }
  exists c', sent, r', acks. split; [exact Hsend|exact Hrecv].
Defined.

Lemma recvDgram_failed_recvfrom_witness :
  let r := recvDgram endpoint zeros MAX_DGRAM_SZ None in
  rd_buff r = zeros ∧
  (rd_ret r = -1 ∨ rd_ret r = ERROR_PROTOCOL ∨ rd_ret r = CONNECTION_CLOSED).
Proof.
  destruct (ConnEdges.recvDgram_failed_recvfrom endpoint zeros MAX_DGRAM_SZ)
    as (_ & Hb & _ & Hr).
  { lia. }
  { vm_compute. congruence. }
  split; [exact Hb|exact Hr].
Defined.

Lemma send_gives_up_after_counting_witness :
  ∃ c' frame,
    send (H := deaf) client letters 600 0 [] [None] =
      Ended (-1) c' [] [Sendto station frame] ∧
    seqNum c' = Int.to_uint32 (1 + 512).
Proof.
  destruct (ConnEdges.send_gives_up_after_counting (H := deaf) client letters 600 None [])
    as (c' & frame & Hrun & _ & Hs).
  { intros sock dest bytes. change (sendto sock dest bytes) with (-1).
    unfold sizeof_PDU. lia. }
  { reflexivity. }
  { reflexivity. }
  { change (Z.of_nat (length letters)) with 600. lia. }
  exists c', frame. split; [exact Hrun|exact Hs].
Defined.

Lemma recv_reports_full_buffer_after_failure_witness :
  ∃ r' out, recv endpoint blank 100 0 [] [None] = Ended 100 r' out [] ∧
            take 100 out = repeat Byte.x00 100.
Proof.
  pose proof (ConnEdges.recv_reports_full_buffer_after_failure endpoint blank 100 []) as H.
  assert (H1 : 0 <= 100 <= Z.of_nat (length blank))
    by (change (Z.of_nat (length blank)) with 700; lia).
  assert (H2 : 100 < 2 ^ 31) by lia.
  specialize (H H1 H2). change (100 <=? MAX_BUFF_SZ) with true in H. cbv iota in H.
  eexists _, _. split; [exact H|]. vm_compute. reflexivity.
Defined.

Lemma recvDgram_rejected_frame_goes_on_witness :
  let r := recvDgram endpoint zeros MAX_DGRAM_SZ
             (Some (from peer (frame MsgType.SND 10000 abcd))) in
  rd_ret r = 24 ∧ length (rd_log r) = 2%nat.
Proof.
  pose proof (ConnEdges.recvDgram_rejected_frame_goes_on endpoint zeros MAX_DGRAM_SZ
                (from peer (frame MsgType.SND 10000 abcd))) as H.
  assert (H1 : isAddrInit (inSockAddr endpoint) = true) by reflexivity.
  assert (H2 : 0 <= MAX_DGRAM_SZ <= MAX_DGRAM_SZ)
    by (unfold MAX_DGRAM_SZ, MAX_BUFF_SZ, sizeof_PDU; lia).
  specialize (H H1 H2). cbv zeta in H.
  assert (H3 : classify
            (Z.of_nat (length (take (Z.to_nat MAX_DGRAM_SZ)
                                 (data (from peer (frame MsgType.SND 10000 abcd))))))
            (PDU_of_bytes
               (write_at 0 (take (Z.to_nat MAX_DGRAM_SZ)
                              (data (from peer (frame MsgType.SND 10000 abcd)))) zeros))
            MAX_DGRAM_SZ ≠ NO_ERROR) by (vm_compute; congruence).
  specialize (H H3).
  intros r. split.
  - apply (f_equal snd) in H. cbn [snd] in H. unfold r. rewrite H. vm_compute. reflexivity.
  - apply (f_equal fst) in H. cbn [fst] in H. unfold r. rewrite H. vm_compute. reflexivity.
Defined.

Lemma connect_listen_handshake_witness :
  ∃ c' l', seqNum c' = 2 ∧ seqNum l' = 2 ∧
    Conn.connected c' = true ∧ Conn.connected l' = true ∧ addr (outSockAddr l') = peer.
Proof.
  destruct (ConnEdges.connect_listen_handshake client endpoint peer)
    as (c' & l' & _ & _ & Hc & Hl & Hsc & Hsl & Ha & _).
  { reflexivity. }
  { reflexivity. }
  { reflexivity. }
  { change (seqNum client) with 1. lia. }
  exists c', l'. split; [exact Hsc|]. split; [exact Hsl|].
  split; [exact Hc|]. split; [exact Hl|exact Ha].
Defined.

Lemma disconnect_recvDgram_close_witness :
  rd_ret (recvDgram endpoint zeros MAX_DGRAM_SZ (Some (from peer close_frame))) =
    CONNECTION_CLOSED ∧
  ∃ c' reply,
    disconnect client (Some (from station reply)) =
      Sent CONNECTION_CLOSED c' [Sendto station close_frame; SockClose].
Proof.
  destruct (ConnEdges.disconnect_recvDgram_close client endpoint peer zeros MAX_DGRAM_SZ)
    as ((Hret & _) & c' & Hd & _).
  { reflexivity. }
  { reflexivity. }
  { reflexivity. }
  { change (seqNum client) with 1. lia. }
  { change (seqNum endpoint) with 0. lia. }
  { unfold MAX_DGRAM_SZ, MAX_BUFF_SZ, sizeof_PDU. lia. }
  split; [exact Hret|]. eexists c', _. exact Hd.
Defined.

Lemma listen_short_datagram_terminates_witness :
  ∃ what, ls_fate (listen active junk (Some (from peer [Byte.x61]))) = Terminated what.
Proof.
  apply (DispatcherFacts.listen_short_datagram_terminates active junk
           (Some (from peer [Byte.x61]))).
  intros d [= <-]. vm_compute. reflexivity.
Defined.

Lemma listen_unknown_peer_terminates_witness :
  ls_fate (listen server0 junk (Some (from peer (frame MsgType.SND 4 abcd)))) =
    Terminated "null pointer".
Proof.
  destruct (DispatcherFacts.listen_unknown_peer_terminates server0 junk
              (from peer (frame MsgType.SND 4 abcd))) as [H _].
  { reflexivity. }
  { vm_compute. congruence. }
  { vm_compute. reflexivity. }
  exact H.
Defined.

Lemma listen_hands_payload_to_writer_witness :
  ∃ w', heap (ls_server (listen active junk (Some (from peer (frame MsgType.SND 116 message)))))
          = <[1%nat := w']> (heap active) ∧
        Channel.open (stream w') = true.
Proof.
  destruct (DispatcherFacts.listen_hands_payload_to_writer active junk
              (from peer (frame MsgType.SND 116 message)) 1%nat
              (FTPFileWriter_new "10.0.0.1"))
    as (w' & Hh & _ & _ & _ & Ho & _).
  { reflexivity. }
  { vm_compute. reflexivity. }
  { vm_compute. congruence. }
  { vm_compute. reflexivity. }
  { reflexivity. }
  exists w'. split; [exact Hh|exact Ho].
Defined.


Lemma connect_dispatcher_handshake_witness :
  let frame :=
    PDU_bytes {| proto_ver := 0; mtype := MsgType.CONNECT; seqnum := 1;
                 dgram_sz := 0; err_num := 0 |} in
  (advance_process (Running (boot roomy)) (Hail junk (Some (from peer frame)) [0%nat])).2 =
    [Net (Sendto peer (ack MsgType.CNTACK 1)); Submit] ∧
  ∃ c' reply, connect client (Some (from station reply)) =
                Sent 1 c' [Sendto station frame] ∧
              seqNum c' = 2.
Proof.
  intros frame.
  destruct (DispatcherFacts.connect_dispatcher_handshake client
              (boot roomy) junk peer [0%nat])
    as (Hlog & _ & _ & c' & Hc & _ & Hn).
  { reflexivity. }
  { reflexivity. }
  { reflexivity. }
  { reflexivity. }
  { change (seqNum client) with 1. lia. }
  split; [exact Hlog|]. eexists c', _. split; [exact Hc|exact Hn].
Defined.

Lemma hosted_serving : serving "10.0.0.1" 1%nat 0%nat hosted.
Proof.
  unfold serving. split; [vm_compute; reflexivity|]. split; [vm_compute; reflexivity|].
  split; [vm_compute; reflexivity|]. split; [exists false; vm_compute; reflexivity|].
  exists (FTPFileWriter_new "10.0.0.1").
  split; [vm_compute; reflexivity|]. split; [reflexivity|]. split; [reflexivity|].
  vm_compute. reflexivity.
Qed.

Lemma frames_reach_disk_witness :
  ∃ m' log,
    play (Running hosted)
      (rounds junk 0 [from peer (frame MsgType.SND 116 (note Status.NEW abcd));
                      from peer (frame MsgType.SND 116 (note Status.APPEND efgh))]) =
      (Running m', log) ∧
    disk m' = written roomy [note Status.NEW abcd; note Status.APPEND efgh].
Proof.
  destruct (ProcessFacts.frames_reach_disk "10.0.0.1" 1%nat 0%nat junk
              [from peer (frame MsgType.SND 116 (note Status.NEW abcd));
               from peer (frame MsgType.SND 116 (note Status.APPEND efgh))] hosted)
    as (m' & log & Hplay & Hdisk & _).
  { exact hosted_serving. }
  { constructor; [|constructor; [|constructor]].
    - split; [vm_compute; reflexivity|]. split; [vm_compute; reflexivity|].
      split; [vm_compute; congruence|]. split; reflexivity.
    - split; [vm_compute; reflexivity|]. split; [vm_compute; reflexivity|].
      split; [vm_compute; congruence|]. split; reflexivity. }
  exists m', log. split; [exact Hplay|]. rewrite Hdisk. vm_compute. reflexivity.
Defined.

Lemma connect_then_take_serves_witness :
  (∃ m' log,
     play (Running (boot roomy)) [Datagram junk (Some (from peer connect_frame)); Take 0] =
       (Running m', log) ∧
     serving "10.0.0.1" 1%nat 0%nat m') ∧
  ∃ log,
    play (Running (boot roomy)) [Hail junk (Some (from peer connect_frame)) [0%nat]] =
      (Derailed "back() of an empty vector", log).
Proof.
  destruct (ProcessFacts.connect_then_take_serves (boot roomy) junk
              (from peer connect_frame) 0%nat)
    as ((m' & log & Hplay & _ & Hserv & _) & log' & Hraced).
  { reflexivity. }
  { reflexivity. }
  { vm_compute. reflexivity. }
  { reflexivity. }
  { reflexivity. }
  { reflexivity. }
  { reflexivity. }
  split; [|exists log'; exact Hraced].
  exists m', log. split; [exact Hplay|exact Hserv].
Defined.

Lemma full_channel_parks_dispatcher_witness :
  ls_fate (listen (server crowded) junk
             (Some (from peer (frame MsgType.SND 116 (note Status.APPEND efgh))))) =
    Blocked (carried (from peer (frame MsgType.SND 116 (note Status.APPEND efgh)))).
Proof.
  destruct (ProcessFacts.full_channel_parks_dispatcher "10.0.0.1" 1%nat 0%nat false
              crowded busy (note Status.APPEND abcd) (repeat (note Status.APPEND abcd) 19)
              junk junk (from peer (frame MsgType.SND 116 (note Status.APPEND efgh))) None)
    as (H & _).
  { vm_compute. reflexivity. }
  { vm_compute. reflexivity. }
  { vm_compute. reflexivity. }
  { vm_compute. reflexivity. }
  { vm_compute. reflexivity. }
  { vm_compute. reflexivity. }
  { vm_compute. reflexivity. }
  { vm_compute. reflexivity. }
  { reflexivity. }
  { vm_compute. reflexivity. }
  { vm_compute. reflexivity. }
  { vm_compute. congruence. }
  exact H.
Defined.

Lemma start_sends_file_witness :
  ∃ c' frames closing,
    start client (Some essay) litter title [None; None; None] =
      Done c' (map (Sendto station) frames ++ closing) ∧
    concat (map (λ f, drop (Z.to_nat sizeof_FTP_PDU) (payload f)) frames) = essay.
Proof.
  destruct (ClientFacts.start_sends_file litter title station eq_refl
              ltac:(vm_compute; lia) client essay [None; None; None])
    as (c' & frames & closing & fr & Hrun & _ & Hcat & _).
  { reflexivity. }
  { exact client_ready. }
  { repeat constructor. }
  { vm_compute. congruence. }
  exists c', frames, closing. split; [exact Hrun|exact Hcat].
Defined.

Lemma file_reaches_server_disk_witness :
  ∃ c' frames closing m' log,
    start client (Some essay) litter title [None; None; None] =
      Done c' (map (Sendto station) frames ++ closing) ∧
    play (Running hosted) (rounds junk 0 (map (λ f, {| src := peer; data := f |}) frames)) =
      (Running m', log) ∧
    files (disk m') !! string_of_list_byte (c_str title) = Some essay.
Proof.
  destruct (ClientFacts.file_reaches_server_disk litter title station eq_refl
              ltac:(vm_compute; lia) client essay [None; None; None] peer 1%nat 0%nat
              hosted junk)
    as (c' & frames & closing & m' & log & Hrun & Hplay & Hfile & _).
  { reflexivity. }
  { exact client_ready. }
  { repeat constructor. }
  { vm_compute. congruence. }
  { done. }
  { exact hosted_serving. }
  { reflexivity. }
  exists c', frames, closing, m', log.
  split; [exact Hrun|]. split; [exact Hplay|exact Hfile].
Defined.

End Examples.
